(** * Aggregation and classification engine of the Pehchaan index dashboard

    A shallow embedding of the data utilities of the dashboard (the
    module that imports [./types]; its text follows the map component in
    [src/components/IndiaMap.tsx]) and of [src/lib/types.ts], and the
    properties the specification states about them.

    Conventions of the embedding.
    - The three age-bracket counts of a record and of a summary are
      integer-valued JavaScript numbers; they are modelled as [Z].  Sums of
      such counts are exact in IEEE doubles below 2^53, the range in which
      the model and the program agree.  A count that [parseInt] could not
      read (NaN) is outside the record type; only the parser's own output
      type can hold it.
    - A quotient of counts is a double that need not be an integer.  It is
      modelled by [number]: NaN, the two infinities, or an exact rational.
      A comparison of such a quotient against a decimal literal agrees with
      the double comparison as long as the counts, and the products of a
      count and a number of sub-regions, stay below 2^48.
    - Strings are [string].  On the characters of the ASCII range
      [lowerChar], [upperChar] and [isWhitespace] are the case mappings and
      the whitespace test of JavaScript; the properties that depend on them
      are stated for texts of such characters ([asciiText]).
    - [Number.prototype.toString] of an integer-valued number writes all
      digits up to 2^53 and, beyond, the shortest digits that are read back
      as the same double, in exponent notation from 1e21 on.  [parseInt]
      reads an integer exactly; up to 2^53, where the properties that
      depend on it are stated ([safeCount]), so does JavaScript.
    - A [Map] keeps its keys in insertion order, which the program relies
      on; it is modelled as an association list.
    - [Array.prototype.sort] is stable; with a consistent comparator its
      result is the unique stably sorted arrangement, computed here by an
      insertion sort.
    - [Number.prototype.toFixed], [parseFloat] and the locale-dependent
      [formatMonth] are parameters of the functions that call them. *)

From Stdlib Require Import ZArith QArith List String Ascii Bool Lia.
From Stdlib Require Import Permutation Sorted.
Import ListNotations.

Local Open Scope string_scope.
Local Open Scope list_scope.
Local Open Scope Z_scope.

(** ** JavaScript numbers that are not counts *)

Inductive number : Type :=
| NaN
| Infinity (negative : bool)
| Finite (q : Q).

Definition ofZ (z : Z) : number := Finite (inject_Z z).

Definition Qneg_bool (q : Q) : bool := negb (Qle_bool 0 q).

(** [x / y].  A zero divisor is the positive zero: every divisor of the
    program is a sum of counts started at [0], or a length. *)
Definition ndiv (x y : number) : number :=
  match x, y with
  | NaN, _ | _, NaN => NaN
  | Infinity _, Infinity _ => NaN
  | Infinity s, Finite q => Infinity (xorb s (Qneg_bool q))
  | Finite _, Infinity _ => Finite 0
  | Finite p, Finite q =>
      if Qeq_bool q 0
      then (if Qeq_bool p 0 then NaN else Infinity (Qneg_bool p))
      else Finite (p / q)
  end.

(** [x * y]. *)
Definition nmul (x y : number) : number :=
  match x, y with
  | NaN, _ | _, NaN => NaN
  | Infinity s, Infinity t => Infinity (xorb s t)
  | Infinity s, Finite q | Finite q, Infinity s =>
      if Qeq_bool q 0 then NaN else Infinity (xorb s (Qneg_bool q))
  | Finite p, Finite q => Finite (p * q)
  end.

(** [x > y]; false as soon as one side is NaN. *)
Definition ngt (x y : number) : bool :=
  match x, y with
  | NaN, _ | _, NaN => false
  | Infinity true, _ => false
  | Infinity false, Infinity false => false
  | Infinity false, _ => true
  | Finite _, Infinity s => s
  | Finite p, Finite q => negb (Qle_bool p q)
  end.

(** ** Arrays *)

Section ArraySort.
Context {A : Type}.
Variable compareFn : A -> A -> Z.

(** [x] goes in front of the first element it does not have to follow. *)
Fixpoint sortInsert (x : A) (l : list A) : list A :=
  match l with
  | [] => [x]
  | y :: l' => if compareFn x y <=? 0 then x :: l else y :: sortInsert x l'
  end.

(** [arr.sort(compareFn)] *)
Definition sort (l : list A) : list A := fold_right sortInsert [] l.
End ArraySort.

(** [arr.slice(0, n)] *)
Definition slice0 {A : Type} (n : nat) (l : list A) : list A := firstn n l.

(** [arr.forEach(f)] where [f] updates a state [S]. *)
Definition forEach {A S : Type} (l : list A) (f : S -> A -> S) (s : S) : S :=
  fold_left f l s.

(** [arr.push(x)] *)
Definition push {A : Type} (l : list A) (x : A) : list A := l ++ [x].

(** ** Maps with string keys, in insertion order *)

Section JsMap.
Context {V : Type}.

Definition JsMap : Type := list (string * V).

Fixpoint map_get (k : string) (m : JsMap) : option V :=
  match m with
  | [] => None
  | (k', v) :: m' => if String.eqb k' k then Some v else map_get k m'
  end.

(** [m.set(k, v)]: an existing key keeps its place, a new key goes last. *)
Fixpoint map_set (k : string) (v : V) (m : JsMap) : JsMap :=
  match m with
  | [] => [(k, v)]
  | (k', v') :: m' =>
      if String.eqb k' k then (k, v) :: m' else (k', v') :: map_set k v m'
  end.

Definition map_entries (m : JsMap) : list (string * V) := m.
End JsMap.
Arguments JsMap V : clear implicits.

(** ** Arrays of numbers held by reference

    [calculateIntensity] receives its reference values as an array object
    and sorts a copy of it in place.  The store below holds such arrays;
    a reference is the position of the array in the store. *)

Definition Heap : Type := list (list Z).
Definition Ref : Type := nat.

Definition readArr (h : Heap) (r : Ref) : list Z := nth r h [].

(** A fresh array object, placed after the existing ones. *)
Definition allocArr (a : list Z) (h : Heap) : Ref * Heap :=
  (List.length h, h ++ [a]).

Fixpoint writeArr (r : Ref) (a : list Z) (h : Heap) : Heap :=
  match h, r with
  | [], _ => []
  | _ :: h', O => a :: h'
  | b :: h', S r' => b :: writeArr r' a h'
  end.

(** ** Rounding to a double *)

(** The double nearest to a non-negative dyadic number [x / 2^e], as the
    numerator over the same [2^e]: [x] rounded to 53 significant bits,
    ties to even. *)
Definition roundTo53 (x : Z) : Z :=
  let bits := Z.log2 x + 1 in
  if bits <=? 53 then x
  else
    let sh := bits - 53 in
    let q := Z.shiftr x sh in
    let rem := x - Z.shiftl q sh in
    let half := Z.shiftl 1 (sh - 1) in
    let q' := if (half <? rem) || ((rem =? half) && Z.odd q) then q + 1 else q in
    Z.shiftl q' sh.

(** ** Strings *)

Definition isWhitespace (c : ascii) : bool :=
  let n := nat_of_ascii c in
  ((9 <=? n) && (n <=? 13) || (n =? 32))%nat.

Definition lowerChar (c : ascii) : ascii :=
  let n := nat_of_ascii c in
  if ((65 <=? n) && (n <=? 90))%nat then ascii_of_nat (n + 32) else c.

Definition upperChar (c : ascii) : ascii :=
  let n := nat_of_ascii c in
  if ((97 <=? n) && (n <=? 122))%nat then ascii_of_nat (n - 32) else c.

Fixpoint mapChars (f : ascii -> ascii) (s : string) : string :=
  match s with
  | EmptyString => EmptyString
  | String c r => String (f c) (mapChars f r)
  end.

(** [s.toLowerCase()] and [s.toUpperCase()] for a text of ASCII
    characters, of which only the letters change. *)
Definition toLowerCase : string -> string := mapChars lowerChar.
Definition toUpperCase : string -> string := mapChars upperChar.

Fixpoint trimStart (s : string) : string :=
  match s with
  | EmptyString => EmptyString
  | String c r => if isWhitespace c then trimStart r else s
  end.

Fixpoint trimEnd (s : string) : string :=
  match s with
  | EmptyString => EmptyString
  | String c r =>
      match trimEnd r with
      | EmptyString => if isWhitespace c then EmptyString else String c EmptyString
      | t => String c t
      end
  end.

(** [s.trim()] *)
Definition trim (s : string) : string := trimEnd (trimStart s).

(** [s.split(sep)] for a separator of one character; never empty. *)
Fixpoint split (sep : ascii) (s : string) : list string :=
  match s with
  | EmptyString => [EmptyString]
  | String c r =>
      if Ascii.eqb c sep then EmptyString :: split sep r
      else match split sep r with
           | w :: ws => String c w :: ws
           | [] => [String c EmptyString]
           end
  end.

(** [words.join(sep)] *)
Fixpoint join (sep : string) (words : list string) : string :=
  match words with
  | [] => EmptyString
  | [w] => w
  | w :: ws => (w ++ sep ++ join sep ws)%string
  end.

(** [s.charAt(0)] *)
Definition charAt0 (s : string) : string :=
  match s with
  | EmptyString => EmptyString
  | String c _ => String c EmptyString
  end.

(** [s.slice(1)] *)
Definition slice1 (s : string) : string :=
  match s with
  | EmptyString => EmptyString
  | String _ r => r
  end.

Definition digitValue (c : ascii) : option Z :=
  let n := nat_of_ascii c in
  if ((48 <=? n) && (n <=? 57))%nat then Some (Z.of_nat (n - 48)) else None.

(** The value of the longest prefix of decimal digits, read after [acc];
    [None] while no digit has been read. *)
Fixpoint parseDigits (s : string) (acc : option Z) : option Z :=
  match s with
  | EmptyString => acc
  | String c r =>
      match digitValue c with
      | Some d =>
          parseDigits r (Some (10 * (match acc with Some a => a | None => 0 end) + d))
      | None => acc
      end
  end.

(** [parseInt(v, 10)]; [None] is NaN.  An absent array element is
    [undefined], which [parseInt] reads as the text ["undefined"].  The
    integer is read exactly; JavaScript gives the double nearest to it,
    which is the integer itself up to 2^53. *)
Definition parseInt (v : option string) : option Z :=
  let s := trimStart (match v with Some s => s | None => "undefined" end) in
  match s with
  | String "-" r => option_map Z.opp (parseDigits r None)
  | String "+" r => parseDigits r None
  | _ => parseDigits s None
  end.

Definition digitChar (d : Z) : ascii := ascii_of_nat (48 + Z.to_nat d).

Fixpoint digitsBefore (fuel : nat) (n : Z) (acc : string) : string :=
  match fuel with
  | O => acc
  | S fuel' =>
      let acc' := String (digitChar (n mod 10)) acc in
      if n / 10 =? 0 then acc' else digitsBefore fuel' (n / 10) acc'
  end.

(** The decimal digits of [n >= 0]. *)
Definition decimalDigits (n : Z) : string :=
  digitsBefore (S (Z.to_nat (Z.log2 n))) n EmptyString.

(** The [k]-digit number [s], if there is one, such that [s * 10^(n - k)]
    is read as the double [x]; of two such numbers the one nearer to [x],
    and the even one when they are equally near. *)
Definition shortestAt (x n k : Z) : option Z :=
  let p := 10 ^ (n - k) in
  let lo := x / p in
  let hi := lo + 1 in
  let okLo := roundTo53 (lo * p) =? x in
  let okHi := (hi <? 10 ^ k) && (roundTo53 (hi * p) =? x) in
  if okLo && okHi then
    let below := x - lo * p in
    let above := hi * p - x in
    Some (if below <? above then lo
          else if above <? below then hi
          else if Z.even lo then lo else hi)
  else if okLo then Some lo
  else if okHi then Some hi
  else None.

(** The least number of digits [k], from [k] on, with such an [s]. *)
Fixpoint shortestFrom (fuel : nat) (x n k : Z) : Z * Z :=
  match fuel with
  | O => (x, n)
  | S fuel' =>
      match shortestAt x n k with
      | Some s => (s, k)
      | None => shortestFrom fuel' x n (k + 1)
      end
  end.

(** The digits [s], their number [k] and the position [n] of the decimal
    point that [Number::toString] chooses for the double [x]: [k] is as
    small as possible with [s * 10^(n - k)] read as [x].  Seventeen digits
    are always enough. *)
Definition shortestDigits (x : Z) : Z * Z * Z :=
  let len := Z.of_nat (String.length (decimalDigits x)) in
  if roundTo53 (10 ^ len) =? x then (1, 1, len + 1)
  else let '(s, k) := shortestFrom 17 x len 1 in (s, k, len).

Fixpoint zeros (n : nat) : string :=
  match n with
  | O => EmptyString
  | S n' => String "0" (zeros n')
  end.

(** [x.toString()] for a double [x >= 2^53]: the shortest digits,
    followed by zeros while the number has at most 21 digits, and in
    exponent notation from 1e21 on; the doubles end below 2^1024. *)
Definition largeToString (x : Z) : string :=
  if 2 ^ 1024 <=? x then "Infinity"
  else
    let '(s, k, n) := shortestDigits x in
    let digits := decimalDigits s in
    if n <=? 21 then (digits ++ zeros (Z.to_nat (n - k)))%string
    else
      match digits with
      | String d EmptyString => String d ("e+" ++ decimalDigits (n - 1))
      | String d rest =>
          String d ("." ++ rest ++ "e+" ++ decimalDigits (n - 1))
      | EmptyString => EmptyString
      end.

(** [n.toString()] for an integer-valued number [n].  Below 2^53 every
    integer is a double and is written with all its digits; from 2^53 on
    [n] stands for the double nearest to it. *)
Definition numberToString (n : Z) : string :=
  let a := Z.abs n in
  let text :=
    if a <? 2 ^ 53 then decimalDigits a else largeToString (roundTo53 a) in
  if n <? 0 then String "-" text else text.

(** ** Exceptions *)

Inductive result (A : Type) : Type :=
| Ok (a : A)
| Throw (error : string).
Arguments Ok {A} a.
Arguments Throw {A} error.

Definition bindR {A B : Type} (r : result A) (k : A -> result B) : result B :=
  match r with
  | Ok a => k a
  | Throw e => Throw e
  end.

Notation "x <- r ;;; k" := (bindR r (fun x => k))
  (at level 61, r at next level, right associativity).

Fixpoint mapR {A B : Type} (f : A -> result B) (l : list A) : result (list B) :=
  match l with
  | [] => Ok []
  | x :: l' => y <- f x ;;; ys <- mapR f l' ;;; Ok (y :: ys)
  end.

(** ** The data model ([types.ts]) *)

(** ['low' | 'medium' | 'high'] *)
Inductive Level : Type := low | medium | high.

Definition Level_eqb (a b : Level) : bool :=
  match a, b with
  | low, low | medium, medium | high, high => true
  | _, _ => false
  end.

(** A record whose counts have type [num]: [Z] for a record of the data
    model, [option Z] for what [parseInt] returns ([None] is NaN). *)
Record AadhaarRecordOf (num : Type) : Type := {
  Month : string;
  State : string;
  District : string;
  Age_0_5 : num;
  Age_5_17 : num;
  Age_18_plus : num
}.
Arguments Month {num} _.
Arguments State {num} _.
Arguments District {num} _.
Arguments Age_0_5 {num} _.
Arguments Age_5_17 {num} _.
Arguments Age_18_plus {num} _.

Definition AadhaarRecord : Type := AadhaarRecordOf Z.

Module DistrictData.
Record t : Type := {
  district : string;
  state : string;
  totalUpdates : Z;
  age0_5 : Z;
  age5_17 : Z;
  age18Plus : Z;
  dominantAgeGroup : string;
  intensity : Level
}.
End DistrictData.

Module StateData.
Record t : Type := {
  state : string;
  totalUpdates : Z;
  age0_5 : Z;
  age5_17 : Z;
  age18Plus : Z;
  districts : list DistrictData.t;
  dominantAgeGroup : string;
  intensity : Level
}.
End StateData.

Module Recommendation.
Record t : Type := {
  severity : Level;
  location : string;
  month : string;
  reasons : list string;
  actions : list string;
  expectedImpact : string
}.
End Recommendation.

(** The values of the map built by [aggregateByState]. *)
Module StateAcc.
Record t : Type := {
  age0_5 : Z;
  age5_17 : Z;
  age18Plus : Z;
  districts : list DistrictData.t
}.
End StateAcc.

(** ['high' | 'medium'] *)
Inductive Severity : Type := sev_high | sev_medium.

(** The elements of the array returned by [getDemographicAlerts]. *)
Module Alert.
Record t : Type := {
  state : string;
  district : string;
  alert : string;
  severity : Severity
}.
End Alert.

(** ** The record parser ([data-utils.ts]) *)

Definition quoteChar : ascii := ascii_of_nat 34.
Definition commaChar : ascii := ascii_of_nat 44.
Definition newlineChar : ascii := ascii_of_nat 10.
Definition spaceChar : ascii := ascii_of_nat 32.

(** The loop of [parseCSVLine] over the characters still to read. *)
Fixpoint parseCSVLine_loop (line : string) (result : list string)
    (current : string) (inQuotes : bool) : list string :=
  match line with
  | EmptyString => push result (trim current)
  | String char rest =>
      if Ascii.eqb char quoteChar then
        parseCSVLine_loop rest result current (negb inQuotes)
      else if Ascii.eqb char commaChar && negb inQuotes then
        parseCSVLine_loop rest (push result (trim current)) EmptyString inQuotes
      else
        parseCSVLine_loop rest result (current ++ String char EmptyString)%string inQuotes
  end.

Definition parseCSVLine (line : string) : list string :=
  parseCSVLine_loop line [] EmptyString false.

Definition normalizeCase (str : string) : string :=
  join " "
    (map (fun word => (toUpperCase (charAt0 word) ++ slice1 word)%string)
         (split spaceChar (toLowerCase str))).

(** [normalizeCase(v)] for an array element [v]: a method call on
    [undefined] throws. *)
Definition normalizeCaseOf (v : option string) : result string :=
  match v with
  | Some s => Ok (normalizeCase s)
  | None => Throw "TypeError"
  end.

Definition parseCSV (csvText : string) : result (list (AadhaarRecordOf (option Z))) :=
  let lines := split newlineChar (trim csvText) in
  mapR (fun line =>
          let values := parseCSVLine line in
          st <- normalizeCaseOf (nth_error values 1) ;;;
          di <- normalizeCaseOf (nth_error values 2) ;;;
          Ok {| Month := nth 0 values EmptyString;
                State := st;
                District := di;
                Age_0_5 := parseInt (nth_error values 3);
                Age_5_17 := parseInt (nth_error values 4);
                Age_18_plus := parseInt (nth_error values 5) |})
       (skipn 1 lines).

(** ** Classification *)

Definition getDominantAgeGroup (age0_5 age5_17 age18Plus : Z) : string :=
  let max := Z.max (Z.max age0_5 age5_17) age18Plus in
  if max =? age18Plus then "Adult (18+)"
  else if max =? age5_17 then "Youth (5-17)"
  else "Child (0-5)".

(** [Math.floor(n * 0.33)] and [Math.floor(n * 0.66)] for a length [n]:
    the floors of the exact products.  [floor33_double] and
    [floor66_double] show that the floors of the rounded double products
    are the same for every length an array can have. *)
Definition floor33 (n : nat) : nat := (33 * n / 100)%nat.
Definition floor66 (n : nat) : nat := (66 * n / 100)%nat.

(** [Math.floor(n * c)] for the double literal [c = m / 2^e]. *)
Definition floorOfProduct (n : nat) (m e : Z) : nat :=
  Z.to_nat (Z.shiftr (roundTo53 (Z.of_nat n * m)) e).

(** The literals [0.33 = 0x1.51eb851eb851fp-2] and
    [0.66 = 0x1.51eb851eb851fp-1] share one mantissa. *)
Definition mantissa33 : Z := 5944751508129055.
Definition floor33_as_double (n : nat) : nat := floorOfProduct n mantissa33 54.
Definition floor66_as_double (n : nat) : nat := floorOfProduct n mantissa33 53.

(** [value <= p] where [p] was read from an array: an index out of range
    reads [undefined], and a comparison with [undefined] is false. *)
Definition leElem (value : Z) (p : option Z) : bool :=
  match p with
  | Some p => value <=? p
  | None => false
  end.

Definition ascending (a b : Z) : Z := a - b.

Definition calculateIntensity (value : Z) (values : list Z) : Level :=
  let sorted := sort ascending values in
  let p33 := nth_error sorted (floor33 (List.length sorted)) in
  let p66 := nth_error sorted (floor66 (List.length sorted)) in
  if leElem value p33 then low
  else if leElem value p66 then medium
  else high.

(** The same function on the store of arrays: [[...values]] allocates a
    copy and [.sort] rearranges that copy in place. *)
Definition calculateIntensity_heap (value : Z) (values : Ref) (h : Heap)
    : Level * Heap :=
  let '(sorted, h) := allocArr (readArr h values) h in
  let h := writeArr sorted (sort ascending (readArr h sorted)) h in
  let p33 := nth_error (readArr h sorted) (floor33 (List.length (readArr h sorted))) in
  let p66 := nth_error (readArr h sorted) (floor66 (List.length (readArr h sorted))) in
  (if leElem value p33 then low
   else if leElem value p66 then medium
   else high, h).

(** ** Computations that record their calls to [calculateIntensity] *)

Record Call : Type := { call_value : Z; call_values : list Z }.

Definition Traced (A : Type) : Type := A * list Call.

Definition retT {A : Type} (a : A) : Traced A := (a, []).

Definition bindT {A B : Type} (m : Traced A) (k : A -> Traced B) : Traced B :=
  let '(a, t1) := m in
  let '(b, t2) := k a in
  (b, t1 ++ t2).

Notation "x <~ m ;; k" := (bindT m (fun x => k))
  (at level 61, m at next level, right associativity).

Fixpoint mapT {A B : Type} (f : A -> Traced B) (l : list A) : Traced (list B) :=
  match l with
  | [] => retT []
  | x :: l' => y <~ f x ;; ys <~ mapT f l' ;; retT (y :: ys)
  end.

Definition calculateIntensityT (value : Z) (values : list Z) : Traced Level :=
  (calculateIntensity value values,
   [{| call_value := value; call_values := values |}]).

(** ** The aggregation engine *)

(** The body of [filtered.forEach] in [aggregateByState]. *)
Definition accumulate (stateMap : JsMap StateAcc.t) (record : AadhaarRecord)
    : JsMap StateAcc.t :=
  let total := Age_0_5 record + Age_5_17 record + Age_18_plus record in
  let existing :=
    match map_get (State record) stateMap with
    | Some e => e
    | None => {| StateAcc.age0_5 := 0; StateAcc.age5_17 := 0;
                 StateAcc.age18Plus := 0; StateAcc.districts := [] |}
    end in
  let existing :=
    {| StateAcc.age0_5 := StateAcc.age0_5 existing + Age_0_5 record;
       StateAcc.age5_17 := StateAcc.age5_17 existing + Age_5_17 record;
       StateAcc.age18Plus := StateAcc.age18Plus existing + Age_18_plus record;
       StateAcc.districts :=
         push (StateAcc.districts existing)
           {| DistrictData.district := District record;
              DistrictData.state := State record;
              DistrictData.totalUpdates := total;
              DistrictData.age0_5 := Age_0_5 record;
              DistrictData.age5_17 := Age_5_17 record;
              DistrictData.age18Plus := Age_18_plus record;
              DistrictData.dominantAgeGroup :=
                getDominantAgeGroup (Age_0_5 record) (Age_5_17 record)
                  (Age_18_plus record);
              DistrictData.intensity := low |} |} in
  map_set (State record) existing stateMap.

(** The summary of one entry of the map. *)
Definition stateOfEntry (entry : string * StateAcc.t) : StateData.t :=
  let '(state, data) := entry in
  {| StateData.state := state;
     StateData.totalUpdates :=
       StateAcc.age0_5 data + StateAcc.age5_17 data + StateAcc.age18Plus data;
     StateData.age0_5 := StateAcc.age0_5 data;
     StateData.age5_17 := StateAcc.age5_17 data;
     StateData.age18Plus := StateAcc.age18Plus data;
     StateData.districts := StateAcc.districts data;
     StateData.dominantAgeGroup :=
       getDominantAgeGroup (StateAcc.age0_5 data) (StateAcc.age5_17 data)
         (StateAcc.age18Plus data);
     StateData.intensity := low |}.

(** [district.intensity = calculateIntensity(...)] *)
Definition classifyDistrict (districtTotals : list Z) (district : DistrictData.t)
    : Traced DistrictData.t :=
  i <~ calculateIntensityT (DistrictData.totalUpdates district) districtTotals ;;
  retT {| DistrictData.district := DistrictData.district district;
          DistrictData.state := DistrictData.state district;
          DistrictData.totalUpdates := DistrictData.totalUpdates district;
          DistrictData.age0_5 := DistrictData.age0_5 district;
          DistrictData.age5_17 := DistrictData.age5_17 district;
          DistrictData.age18Plus := DistrictData.age18Plus district;
          DistrictData.dominantAgeGroup := DistrictData.dominantAgeGroup district;
          DistrictData.intensity := i |}.

(** The body of [states.forEach] in [aggregateByState]. *)
Definition classifyState (totals districtTotals : list Z) (state : StateData.t)
    : Traced StateData.t :=
  i <~ calculateIntensityT (StateData.totalUpdates state) totals ;;
  ds <~ mapT (classifyDistrict districtTotals) (StateData.districts state) ;;
  retT {| StateData.state := StateData.state state;
          StateData.totalUpdates := StateData.totalUpdates state;
          StateData.age0_5 := StateData.age0_5 state;
          StateData.age5_17 := StateData.age5_17 state;
          StateData.age18Plus := StateData.age18Plus state;
          StateData.districts := ds;
          StateData.dominantAgeGroup := StateData.dominantAgeGroup state;
          StateData.intensity := i |}.

Definition descendingTotal (a b : StateData.t) : Z :=
  StateData.totalUpdates b - StateData.totalUpdates a.

Definition filterMonth (records : list AadhaarRecord) (month : string)
    : list AadhaarRecord :=
  filter (fun r => String.eqb (Month r) month) records.

(** [aggregateByState], together with the calls it makes to
    [calculateIntensity], in the order it makes them. *)
Definition aggregateByState_traced (records : list AadhaarRecord) (month : string)
    : Traced (list StateData.t) :=
  let filtered := filterMonth records month in
  let stateMap := forEach filtered accumulate [] in
  let states := map stateOfEntry (map_entries stateMap) in
  let totals := map StateData.totalUpdates states in
  let districtTotals :=
    flat_map (fun s => map DistrictData.totalUpdates (StateData.districts s))
      states in
  states <~ mapT (classifyState totals districtTotals) states ;;
  retT (sort descendingTotal states).

Definition aggregateByState (records : list AadhaarRecord) (month : string)
    : list StateData.t :=
  fst (aggregateByState_traced records month).

(** ** Alerts, recommendations and display strings

    Three functions of the JavaScript runtime are taken as they come:
    the rendering of a double with a fixed number of decimals, the reading
    of a double from such a text, and the locale-dependent name of a
    month. *)

Section Display.
Variable toFixed : number -> nat -> string.
Variable parseFloat : string -> number.
Variable formatMonth : string -> string.

Definition lit (n : Z) (d : positive) : number := Finite (n # d).

(** The body of [state.districts.forEach] in [getDemographicAlerts]. *)
Definition alertStep (state : StateData.t) (alerts : list Alert.t)
    (district : DistrictData.t) : list Alert.t :=
  let childRatio :=
    ndiv (ofZ (DistrictData.age0_5 district))
         (ofZ (DistrictData.totalUpdates district)) in
  let youthRatio :=
    ndiv (ofZ (DistrictData.age5_17 district))
         (ofZ (DistrictData.totalUpdates district)) in
  let adultRatio :=
    ndiv (ofZ (DistrictData.age18Plus district))
         (ofZ (DistrictData.totalUpdates district)) in
  if ngt childRatio (lit 4 10) then
    push alerts
      {| Alert.state := StateData.state state;
         Alert.district := DistrictData.district district;
         Alert.alert :=
           ("High child enrollment ("
              ++ toFixed (nmul childRatio (ofZ 100)) 0 ++ "%)")%string;
         Alert.severity := sev_high |}
  else if ngt adultRatio (lit 75 100) then
    push alerts
      {| Alert.state := StateData.state state;
         Alert.district := DistrictData.district district;
         Alert.alert :=
           ("Adult-heavy updates ("
              ++ toFixed (nmul adultRatio (ofZ 100)) 0 ++ "%)")%string;
         Alert.severity := sev_medium |}
  else if ngt youthRatio (lit 35 100) then
    push alerts
      {| Alert.state := StateData.state state;
         Alert.district := DistrictData.district district;
         Alert.alert :=
           ("Youth surge detected ("
              ++ toFixed (nmul youthRatio (ofZ 100)) 0 ++ "%)")%string;
         Alert.severity := sev_medium |}
  else alerts.

Definition getDemographicAlerts (states : list StateData.t) : list Alert.t :=
  let alerts :=
    forEach states
      (fun alerts state =>
         forEach (StateData.districts state) (alertStep state) alerts)
      [] in
  slice0 5 alerts.

(** [ds.reduce((sum, d) => sum + d.totalUpdates, 0)] *)
Definition sumTotals (ds : list DistrictData.t) : Z :=
  fold_left (fun sum d => sum + DistrictData.totalUpdates d) ds 0.

Definition pushIf (c : bool) (l : list string) (items : list string)
    : list string :=
  if c then fold_left push items l else l.

(** The body of the inner [forEach] of [generateRecommendations]. *)
Definition recommendStep (avgTotal stateMedian : number) (state : StateData.t)
    (month : string) (recommendations : list Recommendation.t)
    (district : DistrictData.t) : list Recommendation.t :=
  let total := ofZ (DistrictData.totalUpdates district) in
  let multiplier := toFixed (ndiv total stateMedian) 1 in
  let reasons : list string := [] in
  let actions : list string := [] in
  let reasons :=
    pushIf (ngt (parseFloat multiplier) (lit 15 10)) reasons
      [(multiplier ++ "× state median update volume")%string] in
  let adultRatio := ndiv (ofZ (DistrictData.age18Plus district)) total in
  let childRatio := ndiv (ofZ (DistrictData.age0_5 district)) total in
  let youthRatio := ndiv (ofZ (DistrictData.age5_17 district)) total in
  let reasons :=
    pushIf (ngt adultRatio (lit 65 100)) reasons
      ["Adult-heavy demographic skew"] in
  let actions :=
    pushIf (ngt adultRatio (lit 65 100)) actions
      ["Extended update windows";
       "Priority processing for biometric updates"] in
  let reasons :=
    pushIf (ngt childRatio (lit 25 100)) reasons
      ["High child enrollment activity"] in
  let actions :=
    pushIf (ngt childRatio (lit 25 100)) actions
      ["School-based enrollment camps"; "Parent awareness campaigns"] in
  let reasons :=
    pushIf (ngt youthRatio (lit 3 10)) reasons ["Youth update surge"] in
  let actions :=
    pushIf (ngt youthRatio (lit 3 10)) actions
      ["College enrollment integration"] in
  let actions :=
    pushIf (ngt total (nmul avgTotal (lit 15 10))) actions
      ["Temporary capacity expansion"; "Targeted awareness campaigns"] in
  if (0 <? List.length reasons)%nat then
    push recommendations
      {| Recommendation.severity :=
           if ngt total (nmul avgTotal (ofZ 2)) then high else medium;
         Recommendation.location :=
           (DistrictData.district district ++ ", "
              ++ StateData.state state)%string;
         Recommendation.month := formatMonth month;
         Recommendation.reasons := reasons;
         Recommendation.actions :=
           if (0 <? List.length actions)%nat then actions
           else ["Monitor situation closely"];
         Recommendation.expectedImpact :=
           if ngt total (nmul avgTotal (ofZ 2))
           then "~25–35% load normalization"
           else "~15–20% efficiency improvement" |}
  else recommendations.

(** The array [recommendations] when both loops have run. *)
Definition producedRecommendations (states : list StateData.t) (month : string)
    : list Recommendation.t :=
  let allDistricts := flat_map StateData.districts states in
  let avgTotal :=
    ndiv (ofZ (sumTotals allDistricts))
         (ofZ (Z.of_nat (List.length allDistricts))) in
  forEach states
    (fun recommendations state =>
       let stateMedian :=
         ndiv (ofZ (sumTotals (StateData.districts state)))
              (ofZ (Z.of_nat (List.length (StateData.districts state)))) in
       forEach
         (filter (fun d => Level_eqb (DistrictData.intensity d) high)
                 (StateData.districts state))
         (recommendStep avgTotal stateMedian state month)
         recommendations)
    [].

Definition highFirst (a b : Recommendation.t) : Z :=
  (if Level_eqb (Recommendation.severity b) high then 1 else 0)
  - (if Level_eqb (Recommendation.severity a) high then 1 else 0).

Definition generateRecommendations (states : list StateData.t) (month : string)
    : list Recommendation.t :=
  slice0 4 (sort highFirst (producedRecommendations states month)).

Definition formatNumber (num : Z) : string :=
  if 1000000 <=? num then
    (toFixed (ndiv (ofZ num) (ofZ 1000000)) 1 ++ "M")%string
  else if 1000 <=? num then
    (toFixed (ndiv (ofZ num) (ofZ 1000)) 1 ++ "K")%string
  else numberToString num.
End Display.

(** * Vocabulary of the properties

    What the specification says about the engine, and the auxiliary
    notions of the proofs. *)

(** ** The sum invariant *)

(** The sum of a list of counts. *)
Definition sumZ (l : list Z) : Z := fold_right Z.add 0 l.

(** A sub-region summary whose three brackets add up to its total. *)
Definition districtSumOk (d : DistrictData.t) : Prop :=
  DistrictData.age0_5 d + DistrictData.age5_17 d + DistrictData.age18Plus d
  = DistrictData.totalUpdates d.

(** A region summary whose brackets are the sums over its sub-regions and
    whose total is the sum of its own brackets. *)
Definition stateSumOk (s : StateData.t) : Prop :=
  StateData.age0_5 s = sumZ (map DistrictData.age0_5 (StateData.districts s))
  /\ StateData.age5_17 s = sumZ (map DistrictData.age5_17 (StateData.districts s))
  /\ StateData.age18Plus s = sumZ (map DistrictData.age18Plus (StateData.districts s))
  /\ StateData.totalUpdates s
     = StateData.age0_5 s + StateData.age5_17 s + StateData.age18Plus s.

(** What every entry of the map satisfies while records are consumed. *)
Definition accSumOk (a : StateAcc.t) : Prop :=
  StateAcc.age0_5 a = sumZ (map DistrictData.age0_5 (StateAcc.districts a))
  /\ StateAcc.age5_17 a = sumZ (map DistrictData.age5_17 (StateAcc.districts a))
  /\ StateAcc.age18Plus a = sumZ (map DistrictData.age18Plus (StateAcc.districts a))
  /\ Forall districtSumOk (StateAcc.districts a).

(** ** Order of the region summaries *)

(** The summaries before they are sorted. *)
Definition classifiedStates (records : list AadhaarRecord) (month : string)
    : list StateData.t :=
  let states :=
    map stateOfEntry (forEach (filterMonth records month) accumulate []) in
  map (fun s =>
         fst (classifyState
                (map StateData.totalUpdates states)
                (flat_map (fun s => map DistrictData.totalUpdates (StateData.districts s))
                          states)
                s))
      states.

(** The position at which [k] first occurs in [l] (the length of [l] when
    it does not occur). *)
Fixpoint firstIndex (k : string) (l : list string) : nat :=
  match l with
  | [] => O
  | x :: l' => if String.eqb x k then O else S (firstIndex k l')
  end.

(** [x] occurs in [l] at an earlier position than an occurrence of [y]. *)
Definition Before {A : Type} (x y : A) (l : list A) : Prop :=
  exists l1 l2 l3, l = l1 ++ x :: l2 ++ y :: l3.

(** The keys of the map after one more record of region [k]. *)
Definition addKey (ks : list string) (k : string) : list string :=
  if existsb (String.eqb k) ks then ks else ks ++ [k].

(** ** Calls to the classifier *)

(** The reference lists of the two levels: all region totals, and all
    sub-region totals of all regions. *)
Definition regionTotals (states : list StateData.t) : list Z :=
  map StateData.totalUpdates states.

Definition subRegionTotals (states : list StateData.t) : list Z :=
  flat_map (fun s => map DistrictData.totalUpdates (StateData.districts s)) states.

(** The calls the classification pass makes for one region. *)
Definition callsOfState (totals districtTotals : list Z) (s : StateData.t)
    : list Call :=
  {| call_value := StateData.totalUpdates s; call_values := totals |}
  :: map (fun d => {| call_value := DistrictData.totalUpdates d;
                      call_values := districtTotals |})
         (StateData.districts s).

(** ** Alerts *)

(** The quotient of two counts. *)
Definition ratio (count total : Z) : number := ndiv (ofZ count) (ofZ total).

(** The three rules of the specification, in their order of priority. *)
Inductive AlertRule : Type := ChildRule | AdultRule | YouthRule.

Definition ruleHolds (r : AlertRule) (d : DistrictData.t) : bool :=
  match r with
  | ChildRule =>
      ngt (ratio (DistrictData.age0_5 d) (DistrictData.totalUpdates d)) (lit 4 10)
  | AdultRule =>
      ngt (ratio (DistrictData.age18Plus d) (DistrictData.totalUpdates d)) (lit 75 100)
  | YouthRule =>
      ngt (ratio (DistrictData.age5_17 d) (DistrictData.totalUpdates d)) (lit 35 100)
  end.

(** First match wins. *)
Definition firstMatchingRule (d : DistrictData.t) : option AlertRule :=
  find (fun r => ruleHolds r d) [ChildRule; AdultRule; YouthRule].

Definition ruleSeverity (r : AlertRule) : Severity :=
  match r with
  | ChildRule => sev_high
  | AdultRule | YouthRule => sev_medium
  end.

Definition ruleMessage (toFixed : number -> nat -> string) (r : AlertRule)
    (d : DistrictData.t) : string :=
  match r with
  | ChildRule =>
      "High child enrollment ("
        ++ toFixed (nmul (ratio (DistrictData.age0_5 d) (DistrictData.totalUpdates d))
                         (ofZ 100)) 0%nat ++ "%)"
  | AdultRule =>
      "Adult-heavy updates ("
        ++ toFixed (nmul (ratio (DistrictData.age18Plus d) (DistrictData.totalUpdates d))
                         (ofZ 100)) 0%nat ++ "%)"
  | YouthRule =>
      "Youth surge detected ("
        ++ toFixed (nmul (ratio (DistrictData.age5_17 d) (DistrictData.totalUpdates d))
                         (ofZ 100)) 0%nat ++ "%)"
  end%string.

(** The alerts of one sub-region: one for its first matching rule, none
    when no rule matches. *)
Definition alertsOfDistrict (toFixed : number -> nat -> string)
    (s : StateData.t) (d : DistrictData.t) : list Alert.t :=
  match firstMatchingRule d with
  | Some r =>
      [{| Alert.state := StateData.state s;
          Alert.district := DistrictData.district d;
          Alert.alert := ruleMessage toFixed r d;
          Alert.severity := ruleSeverity r |}]
  | None => []
  end.

(** [detectAlerts] of the specification: the first five alerts met when
    the regions, and within each region its sub-regions, are visited in
    order. *)
Definition detectAlerts (toFixed : number -> nat -> string)
    (states : list StateData.t) : list Alert.t :=
  firstn 5
    (flat_map (fun s => flat_map (alertsOfDistrict toFixed s) (StateData.districts s))
              states).

(** ** Sub-regions without updates *)

(** A record whose brackets cancel out to a total of zero. *)
Definition cancellingRecord : AadhaarRecord :=
  {| Month := "2024-01"; State := "Goa"; District := "North Goa";
     Age_0_5 := 5; Age_5_17 := -5; Age_18_plus := 0 |}.

(** ** Recommendations *)

Definition isHigh (r : Recommendation.t) : bool :=
  Level_eqb (Recommendation.severity r) high.

(** [avgTotal] of [generateRecommendations]. *)
Definition avgTotalOf (states : list StateData.t) : number :=
  ndiv (ofZ (sumTotals (flat_map StateData.districts states)))
       (ofZ (Z.of_nat (List.length (flat_map StateData.districts states)))).

(** [stateMedian] of [generateRecommendations]. *)
Definition stateMedianOf (s : StateData.t) : number :=
  ndiv (ofZ (sumTotals (StateData.districts s)))
       (ofZ (Z.of_nat (List.length (StateData.districts s)))).

(** The severity tier of a sub-region total against the average. *)
Definition tierOf (avgTotal : number) (d : DistrictData.t) : Level :=
  if ngt (ofZ (DistrictData.totalUpdates d)) (nmul avgTotal (ofZ 2))
  then high else medium.

(** The expected impact of a severity tier. *)
Definition impactOf (tier : Level) : string :=
  match tier with
  | high => "~25–35% load normalization"
  | _ => "~15–20% efficiency improvement"
  end.

(** ** Written and parsed records *)

(** Every character of [s] satisfies [p]. *)
Fixpoint stringForall (p : ascii -> bool) (s : string) : bool :=
  match s with
  | EmptyString => true
  | String c r => p c && stringForall p r
  end.

Definition isSpace (c : ascii) : bool := Ascii.eqb c spaceChar.
Definition isDigit (c : ascii) : bool :=
  match digitValue c with Some _ => true | None => false end.
Definition notNewline (c : ascii) : bool := negb (Ascii.eqb c newlineChar).

(** A character of the ASCII range.  On these characters [lowerChar],
    [upperChar] and [isWhitespace] are the case mappings and the
    whitespace test of JavaScript; the properties that depend on them are
    stated for texts of such characters. *)
Definition isAscii (c : ascii) : bool := (nat_of_ascii c <? 128)%nat.
Definition asciiText (s : string) : Prop := stringForall isAscii s = true.

(** [Number.MAX_SAFE_INTEGER]: up to it every integer is a double, so
    [parseInt] and [toString] are exact. *)
Definition MAX_SAFE_INTEGER : Z := 2 ^ 53 - 1.
Definition safeCount (n : Z) : Prop := 0 <= n <= MAX_SAFE_INTEGER.

(** A character that [parseCSVLine] copies into the current field. *)
Definition plainChar (c : ascii) : bool :=
  negb (Ascii.eqb c commaChar) && negb (Ascii.eqb c quoteChar)
  && negb (Ascii.eqb c newlineChar).

(** The normalization of a name in the words of the specification: all
    characters lower-cased, then the first character of every word
    capitalized, a word being delimited by the characters [delim]. *)
Fixpoint titleCaseBy (delim : ascii -> bool) (wordStart : bool) (s : string)
    : string :=
  match s with
  | EmptyString => EmptyString
  | String c r =>
      String (if wordStart then upperChar (lowerChar c) else lowerChar c)
             (titleCaseBy delim (delim c) r)
  end.

(** Words delimited by whitespace. *)
Definition titleCase (s : string) : string := titleCaseBy isWhitespace true s.

(** Words delimited by the space character. *)
Definition titleCaseSpaces (s : string) : string := titleCaseBy isSpace true s.

(** The line of a CSV file that holds a record, and a file made of a
    header and that line. *)
Definition csvLine (r : AadhaarRecord) : string :=
  join ","
    [Month r; State r; District r;
     numberToString (Age_0_5 r); numberToString (Age_5_17 r);
     numberToString (Age_18_plus r)].

Definition csvText (header : string) (r : AadhaarRecord) : string :=
  (header ++ String newlineChar (csvLine r))%string.

(** The value read from a string of digits, after the value [a]. *)
Fixpoint readDigits (s : string) (a : Z) : Z :=
  match s with
  | EmptyString => a
  | String c r =>
      match digitValue c with
      | Some d => readDigits r (10 * a + d)
      | None => a
      end
  end.

(** The words of a split name with all but possibly the first
    capitalized. *)
Definition capitalize (word : string) : string :=
  (toUpperCase (charAt0 word) ++ slice1 word)%string.

Definition capitalizeFrom (first : bool) (words : list string) : list string :=
  match words with
  | [] => []
  | w :: ws => (if first then capitalize w else w) :: map capitalize ws
  end.

(** ** Sample data *)

Definition row (m s d : string) (a b c : Z) : AadhaarRecord :=
  {| Month := m; State := s; District := d;
     Age_0_5 := a; Age_5_17 := b; Age_18_plus := c |}.

(** Two regions of two sub-regions each in one period, and one row of
    another period. *)
Definition sampleRecords : list AadhaarRecord :=
  [row "2024-01" "Goa" "North Goa" 45 20 35;
   row "2024-01" "Kerala" "Kochi" 10 30 60;
   row "2024-02" "Goa" "South Goa" 1 1 1;
   row "2024-01" "Goa" "South Goa" 10 30 60;
   row "2024-01" "Kerala" "Idukki" 20 30 50].

(** * The remaining utilities and their callers *)

(** ** Ranking and the list of periods *)

Definition descendingDistrictTotal (a b : DistrictData.t) : Z :=
  DistrictData.totalUpdates b - DistrictData.totalUpdates a.

(** [arr.slice(0, n)] for an integer [n]: a negative [n] counts from the
    end of the array. *)
Definition sliceTo {A : Type} (n : Z) (l : list A) : list A :=
  if n <? 0 then firstn (Z.to_nat (Z.of_nat (List.length l) + n)) l
  else firstn (Z.to_nat n) l.

(** [getTopDistricts(states, limit)]; an absent [limit] is 5. *)
Definition getTopDistricts (states : list StateData.t) (limit : option Z)
    : list DistrictData.t :=
  let limit := match limit with Some n => n | None => 5 end in
  sliceTo limit
    (sort descendingDistrictTotal (flat_map StateData.districts states)).

(** The comparator of [arr.sort()] on strings: the order of the code
    units. *)
Definition compareStrings (a b : string) : Z :=
  match String.compare a b with
  | Lt => -1
  | Eq => 0
  | Gt => 1
  end.

(** [Array.from(new Set(l))]: the first occurrences, in order. *)
Definition setFrom (l : list string) : list string := fold_left addKey l [].

Definition getUniqueMonths (records : list AadhaarRecord) : list string :=
  let months := setFrom (map Month records) in
  rev (sort compareStrings months).

(** ** Lines with quoted fields *)

(** A field as a CSV writer puts it on a line: as it is, or between double
    quotes. *)
Inductive CsvField : Type :=
| PlainField (text : string)
| QuotedField (text : string).

Definition fieldText (f : CsvField) : string :=
  match f with
  | PlainField s | QuotedField s => s
  end.

Definition writeField (f : CsvField) : string :=
  match f with
  | PlainField s => s
  | QuotedField s => String quoteChar (s ++ String quoteChar EmptyString)
  end.

Definition notQuote (c : ascii) : bool := negb (Ascii.eqb c quoteChar).
Definition notComma (c : ascii) : bool := negb (Ascii.eqb c commaChar).

(** A plain field holds neither a comma nor a quote, a quoted one no
    quote. *)
Definition writableField (f : CsvField) : bool :=
  match f with
  | PlainField s => stringForall (fun c => notComma c && notQuote c) s
  | QuotedField s => stringForall notQuote s
  end.

Fixpoint countChar (c : ascii) (s : string) : nat :=
  match s with
  | EmptyString => O
  | String x r => if Ascii.eqb x c then S (countChar c r) else countChar c r
  end.

(** The lines of a text that [parseCSV] turns into records. *)
Definition dataLines (csvText : string) : list string :=
  skipn 1 (split newlineChar (trim csvText)).

(** ** The summaries as a grouping of the records *)

Definition recordTotal (r : AadhaarRecord) : Z :=
  Age_0_5 r + Age_5_17 r + Age_18_plus r.

(** The records of one region. *)
Definition recordsOfState (k : string) (rs : list AadhaarRecord)
    : list AadhaarRecord :=
  filter (fun r => String.eqb (State r) k) rs.

(** The summary of the sub-region of one record, classified against the
    totals [districtTotals]. *)
Definition districtSummary (districtTotals : list Z) (r : AadhaarRecord)
    : DistrictData.t :=
  {| DistrictData.district := District r;
     DistrictData.state := State r;
     DistrictData.totalUpdates := recordTotal r;
     DistrictData.age0_5 := Age_0_5 r;
     DistrictData.age5_17 := Age_5_17 r;
     DistrictData.age18Plus := Age_18_plus r;
     DistrictData.dominantAgeGroup :=
       getDominantAgeGroup (Age_0_5 r) (Age_5_17 r) (Age_18_plus r);
     DistrictData.intensity := calculateIntensity (recordTotal r) districtTotals |}.

(** The summary of the region [k] whose records are [rs], classified
    against the totals [totals]. *)
Definition regionSummary (totals districtTotals : list Z) (k : string)
    (rs : list AadhaarRecord) : StateData.t :=
  let a := sumZ (map Age_0_5 rs) in
  let b := sumZ (map Age_5_17 rs) in
  let c := sumZ (map Age_18_plus rs) in
  {| StateData.state := k;
     StateData.totalUpdates := a + b + c;
     StateData.age0_5 := a;
     StateData.age5_17 := b;
     StateData.age18Plus := c;
     StateData.districts := map (districtSummary districtTotals) rs;
     StateData.dominantAgeGroup := getDominantAgeGroup a b c;
     StateData.intensity := calculateIntensity (a + b + c) totals |}.

(** The rank of a level. *)
Definition levelRank (l : Level) : nat :=
  match l with
  | low => 0
  | medium => 1
  | high => 2
  end.

(** ** The map component ([IndiaMap.tsx]) *)

(** [stateDataMap]: the summaries by region name. *)
Definition stateDataMap (stateData : list StateData.t) : JsMap StateData.t :=
  forEach stateData (fun map s => map_set (StateData.state s) s map) [].

(** [getStateColor(intensity)]; [None] is [undefined]. *)
Definition getStateColor (intensity : option Level) : string :=
  match intensity with
  | Some high => "#D97706"
  | Some medium => "#1E3A8A"
  | Some low | None => "#15803D"
  end.

(** [STATE_NAME_MAP]: the own properties of the object literal, in the
    order of the source. *)
Definition STATE_NAME_MAP : list (string * string) :=
  [
   ("Andaman and Nicobar", "Andaman and Nicobar");
   ("Andhra Pradesh", "Andhra Pradesh");
   ("Arunachal Pradesh", "Arunachal Pradesh");
   ("Assam", "Assam");
   ("Bihar", "Bihar");
   ("Chandigarh", "Chandigarh");
   ("Chhattisgarh", "Chhattisgarh");
   ("Dadra and Nagar Haveli", "Dadra and Nagar Haveli");
   ("Daman and Diu", "Daman and Diu");
   ("Delhi", "Delhi");
   ("NCT of Delhi", "Delhi");
   ("Goa", "Goa");
   ("Gujarat", "Gujarat");
   ("Haryana", "Haryana");
   ("Himachal Pradesh", "Himachal Pradesh");
   ("Jammu and Kashmir", "Jammu and Kashmir");
   ("Jharkhand", "Jharkhand");
   ("Karnataka", "Karnataka");
   ("Kerala", "Kerala");
   ("Lakshadweep", "Lakshadweep");
   ("Madhya Pradesh", "Madhya Pradesh");
   ("Maharashtra", "Maharashtra");
   ("Manipur", "Manipur");
   ("Meghalaya", "Meghalaya");
   ("Mizoram", "Mizoram");
   ("Nagaland", "Nagaland");
   ("Odisha", "Odisha");
   ("Orissa", "Odisha");
   ("Puducherry", "Puducherry");
   ("Punjab", "Punjab");
   ("Rajasthan", "Rajasthan");
   ("Sikkim", "Sikkim");
   ("Tamil Nadu", "Tamil Nadu");
   ("Telangana", "Telangana");
   ("Tripura", "Tripura");
   ("Uttar Pradesh", "Uttar Pradesh");
   ("Uttarakhand", "Uttarakhand");
   ("Uttaranchal", "Uttarakhand");
   ("West Bengal", "West Bengal");
   ("Ladakh", "Ladakh")].

(** The names every object inherits from [Object.prototype].  Reading
    one of them from [STATE_NAME_MAP] gives a function or, for
    [__proto__], the prototype object: a truthy value that is no text. *)
Definition inheritedNames : list string :=
  ["constructor"; "hasOwnProperty"; "isPrototypeOf"; "propertyIsEnumerable";
   "toLocaleString"; "toString"; "valueOf"; "__proto__";
   "__defineGetter__"; "__defineSetter__"; "__lookupGetter__";
   "__lookupSetter__"].

(** The value of [STATE_NAME_MAP[geoName] || geoName]: a text, or one of
    the inherited functions and objects. *)
Inductive LookupKey : Type :=
| TextKey (name : string)
| InheritedValue.

(** [STATE_NAME_MAP[geoName] || geoName]; the empty text is falsy. *)
Definition normalizedName (geoName : string) : LookupKey :=
  match map_get geoName STATE_NAME_MAP with
  | Some name =>
      if String.eqb name EmptyString then TextKey geoName else TextKey name
  | None =>
      if existsb (String.eqb geoName) inheritedNames then InheritedValue
      else TextKey geoName
  end.

(** [stateDataMap.get(normalizedName)] for the feature named [geoName];
    every key of the map is a text. *)
Definition featureData (stateData : list StateData.t) (geoName : string)
    : option StateData.t :=
  match normalizedName geoName with
  | TextKey name => map_get name (stateDataMap stateData)
  | InheritedValue => None
  end.

(** The [fill] of the path of the feature named [geoName]:
    [getStateColor(data?.intensity)]. *)
Definition featureFill (stateData : list StateData.t) (geoName : string)
    : string :=
  getStateColor (option_map StateData.intensity (featureData stateData geoName)).

(** ** The dashboard ([page.tsx]) *)

Module SummaryStats.
Record t : Type := {
  totalUpdates : Z;
  totalStates : nat;
  totalDistricts : nat;
  highActivityCount : nat
}.
End SummaryStats.

Definition summaryStats (stateData : list StateData.t) : SummaryStats.t :=
  {| SummaryStats.totalUpdates :=
       fold_left (fun sum s => sum + StateData.totalUpdates s) stateData 0;
     SummaryStats.totalStates := List.length stateData;
     SummaryStats.totalDistricts :=
       fold_left (fun sum s => (sum + List.length (StateData.districts s))%nat)
                 stateData O;
     SummaryStats.highActivityCount :=
       List.length
         (filter (fun d => Level_eqb (DistrictData.intensity d) high)
                 (flat_map StateData.districts stateData)) |}.

Module AgeSlice.
Record t : Type := { name : string; value : Z; color : string }.
End AgeSlice.

Definition PIE_COLORS : list string := ["#1E3A8A"; "#15803D"; "#D97706"].

Definition ageData (stateData : list StateData.t) : list AgeSlice.t :=
  let total0_5 := fold_left (fun sum s => sum + StateData.age0_5 s) stateData 0 in
  let total5_17 := fold_left (fun sum s => sum + StateData.age5_17 s) stateData 0 in
  let total18Plus := fold_left (fun sum s => sum + StateData.age18Plus s) stateData 0 in
  [{| AgeSlice.name := "Children (0-5)"; AgeSlice.value := total0_5;
      AgeSlice.color := nth 0 PIE_COLORS EmptyString |};
   {| AgeSlice.name := "Youth (5-17)"; AgeSlice.value := total5_17;
      AgeSlice.color := nth 1 PIE_COLORS EmptyString |};
   {| AgeSlice.name := "Adults (18+)"; AgeSlice.value := total18Plus;
      AgeSlice.color := nth 2 PIE_COLORS EmptyString |}].

Definition totalAll (stateData : list StateData.t) : Z :=
  fold_left (fun sum d => sum + AgeSlice.value d) (ageData stateData) 0.

Module Bar.
Record t : Type := { name : string; updates : Z; fullName : string }.
End Bar.

Definition barChartData (stateData : list StateData.t) : list Bar.t :=
  map (fun s =>
         {| Bar.name :=
              if (14 <? String.length (StateData.state s))%nat
              then (substring 0 14 (StateData.state s) ++ "...")%string
              else StateData.state s;
            Bar.updates := StateData.totalUpdates s;
            Bar.fullName := StateData.state s |})
      (slice0 10 stateData).

(** The summaries the dashboard shows: none while no period is
    selected. *)
Definition selectedStateData (records : list AadhaarRecord)
    (selectedMonth : string) : list StateData.t :=
  if String.eqb selectedMonth EmptyString then []
  else aggregateByState records selectedMonth.

(** The period selected when the records arrive: [months[0] || '']. *)
Definition initialMonth (records : list AadhaarRecord) : string :=
  nth 0 (getUniqueMonths records) EmptyString.

Module TrendPoint.
Record t : Type := { month : string; updates : Z }.
End TrendPoint.

Definition trendMonths (records : list AadhaarRecord) : list string :=
  rev (slice0 6 (getUniqueMonths records)).

Definition trendData (formatMonth : string -> string)
    (records : list AadhaarRecord) : list TrendPoint.t :=
  map (fun m =>
         let data := aggregateByState records m in
         {| TrendPoint.month :=
              substring 0 3 (nth 0 (split spaceChar (formatMonth m)) EmptyString);
            TrendPoint.updates :=
              fold_left (fun sum s => sum + StateData.totalUpdates s) data 0 |})
      (trendMonths records).

(** ** Vocabulary of the further properties *)

(** [a] does not come after [b]. *)
Definition stringLe (a b : string) : Prop := String.compare a b <> Gt.

(** The sub-region summary of a record before classification. *)
Definition rawDistrict (r : AadhaarRecord) : DistrictData.t :=
  {| DistrictData.district := District r;
     DistrictData.state := State r;
     DistrictData.totalUpdates := recordTotal r;
     DistrictData.age0_5 := Age_0_5 r;
     DistrictData.age5_17 := Age_5_17 r;
     DistrictData.age18Plus := Age_18_plus r;
     DistrictData.dominantAgeGroup :=
       getDominantAgeGroup (Age_0_5 r) (Age_5_17 r) (Age_18_plus r);
     DistrictData.intensity := low |}.

(** The value the map holds for a region whose records are [rs]. *)
Definition accOfRecords (rs : list AadhaarRecord) : StateAcc.t :=
  {| StateAcc.age0_5 := sumZ (map Age_0_5 rs);
     StateAcc.age5_17 := sumZ (map Age_5_17 rs);
     StateAcc.age18Plus := sumZ (map Age_18_plus rs);
     StateAcc.districts := map rawDistrict rs |}.

(** The record of a line that has at least three fields. *)
Definition recordOfLine (line : string) : AadhaarRecordOf (option Z) :=
  let values := parseCSVLine line in
  {| Month := nth 0 values EmptyString;
     State := normalizeCase (nth 1 values EmptyString);
     District := normalizeCase (nth 2 values EmptyString);
     Age_0_5 := parseInt (nth_error values 3);
     Age_5_17 := parseInt (nth_error values 4);
     Age_18_plus := parseInt (nth_error values 5) |}.

(** The body of the [map] of [parseCSV]. *)
Definition recordOfLineOrThrow (line : string)
    : result (AadhaarRecordOf (option Z)) :=
  let values := parseCSVLine line in
  st <- normalizeCaseOf (nth_error values 1) ;;;
  di <- normalizeCaseOf (nth_error values 2) ;;;
  Ok {| Month := nth 0 values EmptyString;
        State := st;
        District := di;
        Age_0_5 := parseInt (nth_error values 3);
        Age_5_17 := parseInt (nth_error values 4);
        Age_18_plus := parseInt (nth_error values 5) |}.

(** The keys of [STATE_NAME_MAP] that it maps to another name. *)
Definition aliasNames : list string := ["NCT of Delhi"; "Orissa"; "Uttaranchal"].

(** The keys of [STATE_NAME_MAP] with a word that begins with a small
    letter. *)
Definition namesWithSmallWord : list string :=
  ["Andaman and Nicobar"; "Dadra and Nagar Haveli"; "Daman and Diu";
   "Jammu and Kashmir"].

Definition isLower (c : ascii) : bool :=
  let n := nat_of_ascii c in ((97 <=? n) && (n <=? 122))%nat.

(** No word of [s] begins with a small letter; the words are delimited by
    spaces, and [wordStart] tells whether [s] begins a word. *)
Fixpoint wordsCapitalized (wordStart : bool) (s : string) : bool :=
  match s with
  | EmptyString => true
  | String c r =>
      negb (wordStart && isLower c) && wordsCapitalized (isSpace c) r
  end.

(** * Properties *)

(** ** Sorting *)

Section SortFacts.
Context {A : Type}.
Variable compareFn : A -> A -> Z.

Lemma sortInsert_perm (x : A) (l : list A) :
  Permutation (x :: l) (sortInsert compareFn x l).
Proof.
  induction l as [|y l IH]; simpl.
  - apply Permutation_refl.
  - destruct (compareFn x y <=? 0).
    + apply Permutation_refl.
    + eapply perm_trans; [apply perm_swap|].
      apply perm_skip, IH.
Qed.

Lemma sort_perm (l : list A) : Permutation l (sort compareFn l).
Proof.
  induction l as [|x l IH]; simpl.
  - constructor.
  - eapply perm_trans; [apply perm_skip, IH|].
    apply sortInsert_perm.
Qed.

Lemma sort_In (l : list A) (x : A) : In x (sort compareFn l) <-> In x l.
Proof.
  split; apply Permutation_in;
    [apply Permutation_sym|]; apply sort_perm.
Qed.

Lemma sort_Forall (P : A -> Prop) (l : list A) :
  Forall P l -> Forall P (sort compareFn l).
Proof.
  rewrite !Forall_forall. intros H x Hx. apply H, sort_In, Hx.
Qed.

Lemma sort_length (l : list A) : List.length (sort compareFn l) = List.length l.
Proof. symmetry. apply Permutation_length, sort_perm. Qed.

(** Filtering by a class of the comparator commutes with sorting: the
    sort is stable. *)
Lemma sortInsert_filter (p : A -> bool) (x : A) (l : list A) :
  (forall y, p x = true -> p y = true -> compareFn x y <= 0) ->
  filter p (sortInsert compareFn x l) = filter p (x :: l).
Proof.
  intros Hp. induction l as [|y l IH]; simpl.
  - reflexivity.
  - destruct (compareFn x y <=? 0) eqn:E; simpl.
    + reflexivity.
    + simpl in IH. rewrite IH.
      destruct (p x) eqn:Px, (p y) eqn:Py; try reflexivity.
      specialize (Hp y eq_refl Py). apply Z.leb_gt in E. lia.
Qed.

Lemma sort_filter (p : A -> bool) (l : list A) :
  (forall x y, p x = true -> p y = true -> compareFn x y <= 0) ->
  filter p (sort compareFn l) = filter p l.
Proof.
  intros Hp. induction l as [|x l IH]; simpl.
  - reflexivity.
  - rewrite sortInsert_filter by (intros; now apply Hp).
    simpl. now rewrite IH.
Qed.
End SortFacts.

(** ** Recorded computations *)

Lemma mapT_fst {A B : Type} (f : A -> Traced B) (l : list A) :
  fst (mapT f l) = map (fun x => fst (f x)) l.
Proof.
  induction l as [|x l IH]; simpl.
  - reflexivity.
  - unfold bindT. destruct (f x) as [y t1]. simpl.
    destruct (mapT f l) as [ys t2]. simpl in *. now rewrite IH.
Qed.

Lemma mapT_snd {A B : Type} (f : A -> Traced B) (l : list A) :
  snd (mapT f l) = flat_map (fun x => snd (f x)) l.
Proof.
  induction l as [|x l IH]; simpl.
  - reflexivity.
  - unfold bindT. destruct (f x) as [y t1]. simpl.
    destruct (mapT f l) as [ys t2]. simpl in *.
    now rewrite IH, app_nil_r.
Qed.

(** ** The map of the aggregation *)

Section MapFacts.
Context {V : Type}.

Lemma map_get_In (k : string) (v : V) (m : JsMap V) :
  map_get k m = Some v -> In (k, v) m.
Proof.
  induction m as [|[k' v'] m IH]; simpl; [discriminate|].
  destruct (String.eqb_spec k' k) as [->|].
  - intros [= ->]. now left.
  - intros H. right. now apply IH.
Qed.

Lemma map_set_Forall (P : string * V -> Prop) (k : string) (v : V) (m : JsMap V) :
  Forall P m -> P (k, v) -> Forall P (map_set k v m).
Proof.
  intros Hm Hv. induction Hm as [|[k' v'] m Hx Hm IH]; simpl.
  - now constructor.
  - destruct (String.eqb k' k); constructor; assumption.
Qed.

(** The keys after [set]: unchanged for a known key, extended at the end
    for a new one. *)
Lemma map_set_keys (k : string) (v : V) (m : JsMap V) :
  map fst (map_set k v m)
  = if existsb (String.eqb k) (map fst m) then map fst m
    else map fst m ++ [k].
Proof.
  induction m as [|[k' v'] m IH]; simpl.
  - reflexivity.
  - rewrite (String.eqb_sym k k').
    destruct (String.eqb_spec k' k) as [->|]; simpl.
    + reflexivity.
    + rewrite IH. now destruct (existsb _ _).
Qed.
End MapFacts.

(** ** The sum invariant *)

Lemma sumZ_app (l1 l2 : list Z) : sumZ (l1 ++ l2) = sumZ l1 + sumZ l2.
Proof. induction l1 as [|x l1 IH]; simpl; [reflexivity|rewrite IH; lia]. Qed.

Lemma accumulate_sum_ok (m : JsMap StateAcc.t) (r : AadhaarRecord) :
  Forall (fun e => accSumOk (snd e)) m ->
  Forall (fun e => accSumOk (snd e)) (accumulate m r).
Proof.
  intros Hm. unfold accumulate. apply map_set_Forall; [assumption|].
  assert (He : accSumOk
                 match map_get (State r) m with
                 | Some e => e
                 | None => {| StateAcc.age0_5 := 0; StateAcc.age5_17 := 0;
                              StateAcc.age18Plus := 0; StateAcc.districts := [] |}
                 end).
  { destruct (map_get (State r) m) as [e|] eqn:E.
    - apply map_get_In in E. rewrite Forall_forall in Hm. apply (Hm _ E).
    - repeat split; constructor. }
  destruct He as (H1 & H2 & H3 & H4).
  unfold accSumOk, push; simpl. rewrite !map_app, !sumZ_app; simpl.
  repeat split; try lia.
  apply Forall_app. split; [assumption|].
  constructor; [|constructor]. reflexivity.
Qed.

Lemma forEach_accumulate_sum_ok (rs : list AadhaarRecord) (m : JsMap StateAcc.t) :
  Forall (fun e => accSumOk (snd e)) m ->
  Forall (fun e => accSumOk (snd e)) (forEach rs accumulate m).
Proof.
  revert m. induction rs as [|r rs IH]; intros m Hm; simpl.
  - assumption.
  - apply IH, accumulate_sum_ok, Hm.
Qed.

Lemma stateOfEntry_sum_ok (e : string * StateAcc.t) :
  accSumOk (snd e) ->
  stateSumOk (stateOfEntry e) /\ Forall districtSumOk (StateData.districts (stateOfEntry e)).
Proof.
  destruct e as [k a]. intros (H1 & H2 & H3 & H4).
  unfold stateSumOk; simpl. repeat split; assumption.
Qed.

(** Classification rewrites intensities only. *)
Lemma classifyState_fst (t dt : list Z) (s : StateData.t) :
  fst (classifyState t dt s)
  = {| StateData.state := StateData.state s;
       StateData.totalUpdates := StateData.totalUpdates s;
       StateData.age0_5 := StateData.age0_5 s;
       StateData.age5_17 := StateData.age5_17 s;
       StateData.age18Plus := StateData.age18Plus s;
       StateData.districts :=
         map (fun d => fst (classifyDistrict dt d)) (StateData.districts s);
       StateData.dominantAgeGroup := StateData.dominantAgeGroup s;
       StateData.intensity := calculateIntensity (StateData.totalUpdates s) t |}.
Proof.
  unfold classifyState, bindT, calculateIntensityT, retT.
  rewrite <- mapT_fst.
  destruct (mapT (classifyDistrict dt) (StateData.districts s)) as [ds tr].
  reflexivity.
Qed.

Lemma classifyState_sum_ok (t dt : list Z) (s : StateData.t) :
  stateSumOk s /\ Forall districtSumOk (StateData.districts s) ->
  stateSumOk (fst (classifyState t dt s))
  /\ Forall districtSumOk (StateData.districts (fst (classifyState t dt s))).
Proof.
  intros [(H1 & H2 & H3 & H4) Hd]. rewrite classifyState_fst.
  unfold stateSumOk; simpl. rewrite !map_map; simpl.
  repeat split; try assumption.
  apply Forall_map. revert Hd. apply Forall_impl. intros d Hd. exact Hd.
Qed.

Lemma aggregateByState_unfold (records : list AadhaarRecord) (month : string) :
  aggregateByState records month
  = sort descendingTotal (classifiedStates records month).
Proof.
  unfold aggregateByState, aggregateByState_traced, classifiedStates, map_entries, bindT.
  rewrite <- mapT_fst.
  destruct (mapT _ _) as [ss tr]. reflexivity.
Qed.

(** C1. For every record list and every period, each region summary
    returned by [aggregateByState] has bracket counts equal to the sums of
    the corresponding counts of its sub-region summaries and a total equal
    to the sum of its own three brackets, and each of its sub-region
    summaries has a total equal to the sum of its three brackets. *)
Theorem aggregateByState_sum_invariant (records : list AadhaarRecord) (month : string) :
  Forall (fun s => stateSumOk s /\ Forall districtSumOk (StateData.districts s))
         (aggregateByState records month).
Proof.
  rewrite aggregateByState_unfold. apply sort_Forall.
  unfold classifiedStates. apply Forall_map.
  set (m := forEach (filterMonth records month) accumulate []).
  assert (Hm : Forall (fun e => accSumOk (snd e)) m)
    by (apply forEach_accumulate_sum_ok; constructor).
  apply Forall_map. revert Hm. apply Forall_impl. intros e He.
  apply classifyState_sum_ok, stateOfEntry_sum_ok, He.
Qed.

(** ** Order of the region summaries *)

Section SortedFacts.
Context {A : Type}.
Variable compareFn : A -> A -> Z.
Variable R : A -> A -> Prop.
Hypothesis R_le : forall x y, compareFn x y <= 0 -> R x y.
Hypothesis R_gt : forall x y, 0 < compareFn x y -> R y x.
Hypothesis R_trans : forall x y z, R x y -> R y z -> R x z.

Lemma sortInsert_sorted (x : A) (l : list A) :
  StronglySorted R l -> StronglySorted R (sortInsert compareFn x l).
Proof.
  induction 1 as [|y l Hl IH Hy]; simpl.
  - constructor; constructor.
  - destruct (compareFn x y <=? 0) eqn:E.
    + apply Z.leb_le in E. constructor.
      * now constructor.
      * constructor; [now apply R_le|].
        revert Hy. apply Forall_impl. intros z. apply R_trans. now apply R_le.
    + apply Z.leb_gt in E. constructor; [assumption|].
      apply (Permutation_Forall (sortInsert_perm compareFn x l)).
      constructor; [now apply R_gt|assumption].
Qed.

Lemma sort_sorted (l : list A) : StronglySorted R (sort compareFn l).
Proof.
  induction l as [|x l IH]; simpl.
  - constructor.
  - now apply sortInsert_sorted.
Qed.
End SortedFacts.

Lemma filter_split {A : Type} (p : A -> bool) (a : A) (l f1 f2 : list A) :
  filter p l = f1 ++ a :: f2 ->
  exists l1 l2, l = l1 ++ a :: l2 /\ filter p l1 = f1 /\ filter p l2 = f2.
Proof.
  revert f1. induction l as [|x l IH]; intros f1; simpl.
  - destruct f1; discriminate.
  - destruct (p x) eqn:Px.
    + destruct f1 as [|y f1]; simpl.
      * intros [= -> H]. exists [], l. simpl. now rewrite H.
      * intros [= -> H]. destruct (IH _ H) as (l1 & l2 & -> & H1 & H2).
        exists (y :: l1), l2. simpl. rewrite Px, H1. repeat split; assumption.
    + intros H. destruct (IH _ H) as (l1 & l2 & -> & H1 & H2).
      exists (x :: l1), l2. simpl. rewrite Px. repeat split; assumption.
Qed.

(** Two elements of one comparator class keep their order through the
    sort. *)
Lemma sort_stable {A : Type} (compareFn : A -> A -> Z) (p : A -> bool)
    (a b : A) (l : list A) :
  (forall x y, p x = true -> p y = true -> compareFn x y <= 0) ->
  p a = true -> p b = true ->
  Before a b (sort compareFn l) -> Before a b l.
Proof.
  intros Hp Pa Pb (l1 & l2 & l3 & E).
  pose proof (sort_filter compareFn p l Hp) as F.
  rewrite E in F. rewrite filter_app in F. simpl in F. rewrite Pa in F.
  rewrite filter_app in F. simpl in F. rewrite Pb in F.
  symmetry in F. apply filter_split in F.
  destruct F as (u1 & u & -> & _ & F).
  apply filter_split in F. destruct F as (u2 & u3 & -> & _ & _).
  now exists u1, u2, u3.
Qed.

Lemma existsb_eqb_In (k : string) (ks : list string) :
  existsb (String.eqb k) ks = true <-> In k ks.
Proof.
  rewrite existsb_exists. split.
  - intros (x & Hx & E). apply String.eqb_eq in E. now subst.
  - intros H. exists k. split; [assumption|apply String.eqb_refl].
Qed.

Lemma Before_snoc {A : Type} (x y n : A) (l : list A) :
  Before x y (l ++ [n]) -> Before x y l \/ (In x l /\ y = n).
Proof.
  intros (l1 & l2 & l3 & E).
  destruct (exists_last (l := y :: l3)) as (l3' & z & E3); [discriminate|].
  change (l1 ++ x :: l2 ++ y :: l3) with (l1 ++ x :: l2 ++ (y :: l3)) in E.
  rewrite E3 in E.
  replace (l1 ++ x :: l2 ++ l3' ++ [z]) with ((l1 ++ x :: l2 ++ l3') ++ [z]) in E
    by (rewrite <- !app_assoc; simpl; now rewrite <- app_assoc).
  apply app_inj_tail in E. destruct E as [-> ->].
  destruct l3' as [|y' l3']; simpl in E3.
  - injection E3 as -> ->. right. split; [|reflexivity].
    rewrite app_nil_r. apply in_or_app. right. now left.
  - injection E3 as -> ->. left. now exists l1, l2, l3'.
Qed.

Lemma firstIndex_order (x y : string) (names ks0 : list string) :
  Before x y (fold_left addKey names ks0) ->
  Before x y ks0
  \/ (In x ks0 /\ ~ In y ks0)
  \/ (~ In x ks0 /\ ~ In y ks0 /\ (firstIndex x names < firstIndex y names)%nat).
Proof.
  revert ks0. induction names as [|n ns IH]; intros ks0 H; simpl in *.
  - now left.
  - apply IH in H. unfold addKey in H.
    destruct (existsb (String.eqb n) ks0) eqn:En.
    + apply existsb_eqb_In in En.
      destruct H as [H|[H|(Hx & Hy & Hlt)]]; [now left|now (right; left)|].
      right; right. repeat split; try assumption.
      destruct (String.eqb_spec n x) as [->|]; [contradiction|].
      destruct (String.eqb_spec n y) as [->|]; [contradiction|]. lia.
    + assert (Hn : ~ In n ks0).
      { intros Hn. apply existsb_eqb_In in Hn. congruence. }
      destruct H as [H|[(Hx & Hy)|(Hx & Hy & Hlt)]].
      * apply Before_snoc in H. destruct H as [H|[Hx ->]]; [now left|].
        right; left. now split.
      * rewrite in_app_iff in Hx, Hy. simpl in Hx, Hy.
        destruct Hx as [Hx|[->|[]]].
        -- right; left. split; [assumption|tauto].
        -- right; right. repeat split; [assumption|tauto|].
           rewrite String.eqb_refl.
           destruct (String.eqb_spec x y) as [->|]; [tauto|lia].
      * rewrite in_app_iff in Hx, Hy. simpl in Hx, Hy.
        right; right. repeat split; [tauto|tauto|].
        destruct (String.eqb_spec n x) as [->|]; [tauto|].
        destruct (String.eqb_spec n y) as [->|]; [tauto|lia].
Qed.

Lemma forEach_accumulate_keys (rs : list AadhaarRecord) (m : JsMap StateAcc.t) :
  map fst (forEach rs accumulate m) = fold_left addKey (map State rs) (map fst m).
Proof.
  revert m. induction rs as [|r rs IH]; intros m; simpl.
  - reflexivity.
  - rewrite IH. unfold accumulate at 1. now rewrite map_set_keys.
Qed.

Lemma classifiedStates_names (records : list AadhaarRecord) (month : string) :
  map StateData.state (classifiedStates records month)
  = fold_left addKey (map State (filterMonth records month)) [].
Proof.
  pose proof (forEach_accumulate_keys (filterMonth records month) []) as K.
  simpl in K. rewrite <- K.
  unfold classifiedStates. rewrite !map_map.
  apply map_ext. intros [k a]. now rewrite classifyState_fst.
Qed.

(** C2. For every record list and every period, the region summaries
    returned by [aggregateByState] are in descending order of
    [totalUpdates], and of two regions with equal [totalUpdates] the one
    placed first is the one whose name occurs first among the records of
    that period. *)
Theorem aggregateByState_order (records : list AadhaarRecord) (month : string) :
  let out := aggregateByState records month in
  let seen := map State (filterMonth records month) in
  StronglySorted
    (fun a b => StateData.totalUpdates a >= StateData.totalUpdates b) out
  /\ (forall a b,
        Before a b out ->
        StateData.totalUpdates a = StateData.totalUpdates b ->
        (firstIndex (StateData.state a) seen
         < firstIndex (StateData.state b) seen)%nat).
Proof.
  intros out seen. subst out. rewrite aggregateByState_unfold. split.
  - apply sort_sorted; unfold descendingTotal; intros; lia.
  - intros a b Hab Ht.
    apply (sort_stable descendingTotal
             (fun s => StateData.totalUpdates s =? StateData.totalUpdates a))
      in Hab.
    + destruct Hab as (u1 & u2 & u3 & E).
      assert (Hk : Before (StateData.state a) (StateData.state b)
                     (fold_left addKey seen [])).
      { subst seen. rewrite <- classifiedStates_names, E.
        exists (map StateData.state u1), (map StateData.state u2),
               (map StateData.state u3).
        rewrite map_app. simpl. now rewrite map_app. }
      apply firstIndex_order in Hk.
      destruct Hk as [(l1 & l2 & l3 & Hk)|[[[] _]|(_ & _ & Hlt)]];
        [destruct l1; discriminate|exact Hlt].
    + unfold descendingTotal. intros x y Hx Hy.
      apply Z.eqb_eq in Hx, Hy. lia.
    + apply Z.eqb_refl.
    + apply Z.eqb_eq. now symmetry.
Qed.

(** ** The classifier *)

Lemma floor33_lt (n : nat) : (0 < n)%nat -> (floor33 n < n)%nat.
Proof.
  intros H. unfold floor33. apply Nat.Div0.div_lt_upper_bound. lia.
Qed.

Lemma floor66_lt (n : nat) : (0 < n)%nat -> (floor66 n < n)%nat.
Proof.
  intros H. unfold floor66. apply Nat.Div0.div_lt_upper_bound. lia.
Qed.

Lemma roundTo53_bounds (x b : Z) :
  0 <= b -> 0 <= x < 2 ^ (53 + b) ->
  exists sh, 0 <= sh <= b
             /\ x / 2 ^ sh * 2 ^ sh <= roundTo53 x <= x + 2 ^ sh.
Proof.
  intros Hb [Hx0 Hx]. unfold roundTo53.
  destruct (Z.leb_spec (Z.log2 x + 1) 53) as [Hs|Hs].
  - exists 0. rewrite Z.pow_0_r, Z.div_1_r. lia.
  - assert (Hpos : 0 < x).
    { destruct (Z.eq_dec x 0) as [->|]; [simpl in Hs; lia|lia]. }
    assert (Hl : Z.log2 x < 53 + b) by (apply Z.log2_lt_pow2; assumption).
    set (sh := Z.log2 x + 1 - 53) in *.
    exists sh. split; [lia|].
    rewrite !Z.shiftl_mul_pow2, Z.shiftr_div_pow2 by lia.
    assert (Ht : 0 < 2 ^ sh) by (apply Z.pow_pos_nonneg; lia).
    pose proof (Z.mul_div_le x (2 ^ sh) Ht) as Hq.
    destruct (_ || _); nia.
Qed.

(** For a literal [m / 2^e] that exceeds [p / 100] by less than the
    rounding can bridge, flooring the double product of a length and the
    literal is flooring the exact product with [p / 100]. *)
Lemma floorOfProduct_exact (n : nat) (m e p d : Z) :
  Z.of_nat n < 2 ^ 32 -> 0 < m < 2 ^ 53 -> 32 <= e ->
  100 * m = p * 2 ^ e + d -> 0 <= d -> 0 <= p ->
  (d + 100) * 2 ^ 32 < 2 ^ e ->
  floorOfProduct n m e = Z.to_nat (p * Z.of_nat n / 100).
Proof.
  intros Hn Hm He Hc Hd Hp Hsmall. unfold floorOfProduct. f_equal.
  set (N := Z.of_nat n) in *. assert (HN : 0 <= N) by (subst N; lia).
  set (x := N * m).
  assert (Hx : 0 <= x < 2 ^ (53 + 32)).
  { rewrite Z.pow_add_r by lia. subst x. nia. }
  destruct (roundTo53_bounds x 32 ltac:(lia) Hx) as (sh & Hsh & Hlo & Hhi).
  set (R := roundTo53 x) in *.
  set (k := p * N / 100).
  assert (Hk : 100 * k <= p * N < 100 * k + 100).
  { subst k. pose proof (Z.div_mod (p * N) 100 ltac:(lia)).
    pose proof (Z.mod_pos_bound (p * N) 100 ltac:(lia)). lia. }
  assert (HP : 0 < 2 ^ e) by (apply Z.pow_pos_nonneg; lia).
  assert (HT : 0 < 2 ^ sh) by (apply Z.pow_pos_nonneg; lia).
  assert (HTS : 2 ^ sh <= 2 ^ 32) by (apply Z.pow_le_mono_r; lia).
  assert (Hsplit : 2 ^ e = 2 ^ (e - sh) * 2 ^ sh).
  { rewrite <- Z.pow_add_r by lia. f_equal. lia. }
  assert (HU : 0 < 2 ^ (e - sh)) by (apply Z.pow_pos_nonneg; lia).
  assert (Hx100 : 100 * x = p * N * 2 ^ e + d * N).
  { subst x. replace (100 * (N * m)) with (N * (100 * m)) by ring.
    rewrite Hc. ring. }
  rewrite Z.shiftr_div_pow2 by lia.
  symmetry. apply (Z.div_unique_pos R (2 ^ e) k (R - k * 2 ^ e)); [|ring].
  split.
  - assert (Hkx : k * 2 ^ e <= x) by nia.
    assert (Hdiv : k * 2 ^ (e - sh) <= x / 2 ^ sh).
    { apply Z.div_le_lower_bound; [assumption|]. rewrite Hsplit in Hkx. nia. }
    rewrite Hsplit. nia.
  - assert (100 * (x + 2 ^ 32) < 100 * ((k + 1) * 2 ^ e)); [|lia].
    assert (d * N <= d * 2 ^ 32) by nia.
    nia.
Qed.

Lemma floor33_double (n : nat) :
  Z.of_nat n < 2 ^ 32 -> floor33_as_double n = floor33 n.
Proof.
  intros Hn. unfold floor33_as_double, mantissa33.
  rewrite (floorOfProduct_exact n _ 54 33 28) by (try assumption; lia).
  unfold floor33. apply Nat2Z.inj.
  rewrite Z2Nat.id by (apply Z.div_pos; lia).
  now rewrite Nat2Z.inj_div, Nat2Z.inj_mul.
Qed.

Lemma floor66_double (n : nat) :
  Z.of_nat n < 2 ^ 32 -> floor66_as_double n = floor66 n.
Proof.
  intros Hn. unfold floor66_as_double, mantissa33.
  rewrite (floorOfProduct_exact n _ 53 66 28) by (try assumption; lia).
  unfold floor66. apply Nat2Z.inj.
  rewrite Z2Nat.id by (apply Z.div_pos; lia).
  now rewrite Nat2Z.inj_div, Nat2Z.inj_mul.
Qed.

Lemma sort_ascending_sorted (l : list Z) : StronglySorted Z.le (sort ascending l).
Proof. apply sort_sorted; unfold ascending; intros; lia. Qed.

Lemma readArr_old (h : Heap) (a : list Z) (r : Ref) :
  (r < List.length h)%nat -> readArr (h ++ [a]) r = readArr h r.
Proof. intros H. unfold readArr. now apply app_nth1. Qed.

Lemma readArr_new (h : Heap) (a : list Z) : readArr (h ++ [a]) (List.length h) = a.
Proof. unfold readArr. apply nth_middle. Qed.

Lemma writeArr_new (h : Heap) (a b : list Z) :
  writeArr (List.length h) b (h ++ [a]) = h ++ [b].
Proof. induction h as [|x h IH]; simpl; [reflexivity|now rewrite IH]. Qed.

Lemma calculateIntensity_heap_run (value : Z) (values : Ref) (h : Heap) :
  calculateIntensity_heap value values h
  = (calculateIntensity value (readArr h values),
     h ++ [sort ascending (readArr h values)]).
Proof.
  unfold calculateIntensity_heap, allocArr.
  rewrite readArr_new, writeArr_new, readArr_new. reflexivity.
Qed.

(** C3. For every value and every non-empty list of reference values,
    [calculateIntensity] reads its two cut points at the indices
    floor(0.33 * length) and floor(0.66 * length) of the ascending
    arrangement of the reference values, answers [low] up to the first cut
    point, [medium] above it and up to the second, [high] above both; run
    on the store of arrays it sorts a copy and leaves every array that
    existed before the call, the caller's among them, as it was.  For a
    length below 2^32 the two indices are also the floors of the products
    as the program computes them on doubles. *)
Theorem calculateIntensity_spec (value : Z) (values : list Z) :
  values <> [] ->
  exists sorted cut33 cut66,
    Permutation values sorted
    /\ StronglySorted Z.le sorted
    /\ nth_error sorted (floor33 (List.length values)) = Some cut33
    /\ nth_error sorted (floor66 (List.length values)) = Some cut66
    /\ (value <= cut33 -> calculateIntensity value values = low)
    /\ (cut33 < value <= cut66 -> calculateIntensity value values = medium)
    /\ (cut33 < value -> cut66 < value -> calculateIntensity value values = high)
    /\ (forall (h : Heap) (ref : Ref),
          readArr h ref = values ->
          fst (calculateIntensity_heap value ref h) = calculateIntensity value values
          /\ forall r, (r < List.length h)%nat ->
               readArr (snd (calculateIntensity_heap value ref h)) r = readArr h r)
    /\ (Z.of_nat (List.length values) < 2 ^ 32 ->
        floor33_as_double (List.length values) = floor33 (List.length values)
        /\ floor66_as_double (List.length values) = floor66 (List.length values)).
Proof.
  intros Hne.
  assert (Hlen : (0 < List.length values)%nat)
    by (destruct values; [congruence|simpl; lia]).
  pose proof (sort_length ascending values) as Hsl.
  destruct (nth_error (sort ascending values) (floor33 (List.length values)))
    as [c33|] eqn:E33.
  2:{ apply nth_error_None in E33. pose proof (floor33_lt _ Hlen). lia. }
  destruct (nth_error (sort ascending values) (floor66 (List.length values)))
    as [c66|] eqn:E66.
  2:{ apply nth_error_None in E66. pose proof (floor66_lt _ Hlen). lia. }
  exists (sort ascending values), c33, c66.
  split; [apply sort_perm|].
  split; [apply sort_ascending_sorted|].
  split; [exact E33|]. split; [exact E66|].
  assert (Hrun : calculateIntensity value values
                 = if value <=? c33 then low
                   else if value <=? c66 then medium else high).
  { unfold calculateIntensity. now rewrite Hsl, E33, E66. }
  split; [|split; [|split; [|split]]].
  - intros H. apply Z.leb_le in H. now rewrite Hrun, H.
  - intros [H1 H2]. apply Z.leb_gt in H1. apply Z.leb_le in H2.
    now rewrite Hrun, H1, H2.
  - intros H1 H2. apply Z.leb_gt in H1, H2. now rewrite Hrun, H1, H2.
  - intros h ref Hr. rewrite calculateIntensity_heap_run, Hr.
    split; [reflexivity|].
    intros r Hlt. now apply readArr_old.
  - intros Hmax. split; [now apply floor33_double|now apply floor66_double].
Qed.

Lemma calculateIntensity_spec_witness :
  [30; 10; 20] <> []
  /\ exists sorted cut33 cut66,
       Permutation [30; 10; 20] sorted
       /\ StronglySorted Z.le sorted
       /\ nth_error sorted (floor33 (List.length [30; 10; 20])) = Some cut33
       /\ nth_error sorted (floor66 (List.length [30; 10; 20])) = Some cut66
       /\ (20 <= cut33 -> calculateIntensity 20 [30; 10; 20] = low)
       /\ (cut33 < 20 <= cut66 -> calculateIntensity 20 [30; 10; 20] = medium)
       /\ (cut33 < 20 -> cut66 < 20 -> calculateIntensity 20 [30; 10; 20] = high)
       /\ (forall (h : Heap) (ref : Ref),
             readArr h ref = [30; 10; 20] ->
             fst (calculateIntensity_heap 20 ref h) = calculateIntensity 20 [30; 10; 20]
             /\ forall r, (r < List.length h)%nat ->
                  readArr (snd (calculateIntensity_heap 20 ref h)) r = readArr h r)
       /\ (Z.of_nat (List.length [30; 10; 20]) < 2 ^ 32 ->
           floor33_as_double (List.length [30; 10; 20])
           = floor33 (List.length [30; 10; 20])
           /\ floor66_as_double (List.length [30; 10; 20])
              = floor66 (List.length [30; 10; 20])).
Proof.
  split; [discriminate|].
  apply (calculateIntensity_spec 20 [30; 10; 20]). discriminate.
Defined.

(** ** The dominant bracket *)

(** C4. [getDominantAgeGroup low mid high] is the adult label when [high]
    is the maximum of the three counts, otherwise the youth label when
    [mid] is that maximum, otherwise the child label; (10,10,10) and
    (5,10,10) give the adult label, (10,10,5) the youth label and (10,5,5)
    the child label. *)
Theorem getDominantAgeGroup_spec :
  (forall lo mi hi : Z,
      let m := Z.max lo (Z.max mi hi) in
      (hi = m -> getDominantAgeGroup lo mi hi = "Adult (18+)")
      /\ (hi <> m -> mi = m -> getDominantAgeGroup lo mi hi = "Youth (5-17)")
      /\ (hi <> m -> mi <> m -> getDominantAgeGroup lo mi hi = "Child (0-5)"))
  /\ getDominantAgeGroup 10 10 10 = "Adult (18+)"
  /\ getDominantAgeGroup 10 10 5 = "Youth (5-17)"
  /\ getDominantAgeGroup 5 10 10 = "Adult (18+)"
  /\ getDominantAgeGroup 10 5 5 = "Child (0-5)".
Proof.
  split; [|repeat split].
  intros lo mi hi m. subst m. unfold getDominantAgeGroup.
  repeat split; intros;
    repeat match goal with
           | |- context [?a =? ?b] => destruct (Z.eqb_spec a b)
           end; try reflexivity; lia.
Qed.

(** ** A period without records *)

Lemma filterMonth_absent (records : list AadhaarRecord) (month : string) :
  (forall r, In r records -> Month r <> month) ->
  filterMonth records month = [].
Proof.
  intros H. unfold filterMonth. induction records as [|r rs IH]; simpl.
  - reflexivity.
  - destruct (String.eqb_spec (Month r) month) as [E|_].
    + exfalso. apply (H r); [now left|exact E].
    + apply IH. intros r' Hr'. apply H. now right.
Qed.

(** C8. For a period that is the [Month] of no record, [aggregateByState]
    returns the empty list of region summaries; and [formatNumber 0] is
    the text ["0"]. *)
Theorem aggregateByState_absent_period
    (records : list AadhaarRecord) (month : string) :
  (forall r, In r records -> Month r <> month) ->
  aggregateByState records month = []
  /\ forall toFixed : number -> nat -> string, formatNumber toFixed 0 = "0".
Proof.
  intros H. split.
  - unfold aggregateByState, aggregateByState_traced.
    rewrite (filterMonth_absent _ _ H). reflexivity.
  - intros toFixed. reflexivity.
Qed.

Lemma aggregateByState_absent_period_witness :
  (forall r, In r [ {| Month := "2024-01"; State := "Goa"; District := "North Goa";
                       Age_0_5 := 1; Age_5_17 := 2; Age_18_plus := 3 |} ] ->
             Month r <> "2024-02")
  /\ aggregateByState
       [ {| Month := "2024-01"; State := "Goa"; District := "North Goa";
            Age_0_5 := 1; Age_5_17 := 2; Age_18_plus := 3 |} ] "2024-02" = []
  /\ forall toFixed : number -> nat -> string, formatNumber toFixed 0 = "0".
Proof.
  assert (H : forall r : AadhaarRecord,
             In r [ {| Month := "2024-01"; State := "Goa"; District := "North Goa";
                       Age_0_5 := 1; Age_5_17 := 2; Age_18_plus := 3 |} ] ->
             Month r <> "2024-02").
  { intros r [<-|[]]. simpl. discriminate. }
  split; [exact H|].
  apply (aggregateByState_absent_period _ _ H).
Defined.

(** ** The calls to the classifier *)

Lemma classifyState_snd (t dt : list Z) (s : StateData.t) :
  snd (classifyState t dt s) = callsOfState t dt s.
Proof.
  unfold classifyState, bindT, calculateIntensityT, retT, callsOfState.
  pose proof (mapT_snd (classifyDistrict dt) (StateData.districts s)) as H.
  destruct (mapT (classifyDistrict dt) (StateData.districts s)) as [ds tr].
  simpl in *. rewrite app_nil_r, H. f_equal.
Qed.

Lemma classified_callsOfState (t dt t' dt' : list Z) (s : StateData.t) :
  callsOfState t dt (fst (classifyState t' dt' s)) = callsOfState t dt s.
Proof.
  rewrite classifyState_fst. unfold callsOfState; simpl.
  now rewrite map_map.
Qed.

Lemma classified_subRegionTotals (t dt : list Z) (l : list StateData.t) :
  subRegionTotals (map (fun s => fst (classifyState t dt s)) l) = subRegionTotals l.
Proof.
  unfold subRegionTotals. induction l as [|s l IH]; simpl; [reflexivity|].
  rewrite IH, classifyState_fst. simpl. now rewrite map_map.
Qed.

Lemma classified_regionTotals (t dt : list Z) (l : list StateData.t) :
  regionTotals (map (fun s => fst (classifyState t dt s)) l) = regionTotals l.
Proof.
  unfold regionTotals. rewrite map_map. apply map_ext.
  intros s. now rewrite classifyState_fst.
Qed.

Lemma aggregateByState_trace (records : list AadhaarRecord) (month : string) :
  let states := classifiedStates records month in
  snd (aggregateByState_traced records month)
  = flat_map (callsOfState (regionTotals states) (subRegionTotals states)) states.
Proof.
  unfold classifiedStates.
  set (states0 := map stateOfEntry (forEach (filterMonth records month) accumulate [])).
  cbv zeta.
  rewrite classified_regionTotals, classified_subRegionTotals.
  unfold aggregateByState_traced, map_entries, bindT.
  fold states0. fold (regionTotals states0). fold (subRegionTotals states0).
  pose proof (mapT_snd (classifyState (regionTotals states0) (subRegionTotals states0))
                states0) as H.
  destruct (mapT _ states0) as [ss tr]. simpl in *.
  rewrite app_nil_r, H. clear.
  generalize (regionTotals states0), (subRegionTotals states0).
  intros t dt. induction states0 as [|s l IH]; [reflexivity|].
  cbn [map flat_map]. rewrite IH.
  now rewrite classifyState_snd, (classified_callsOfState t dt t dt s).
Qed.

(** C7. For every record list and every period, each call that
    [aggregateByState] makes to [calculateIntensity] passes a reference
    list that is not empty: a region's total is classified against the
    totals of all regions of the period and a sub-region's total against
    the totals of all sub-regions of the period, and the classified value
    is itself an element of the list it is classified against. *)
Theorem aggregateByState_calls_nonempty
    (records : list AadhaarRecord) (month : string) :
  let states := classifiedStates records month in
  let calls := snd (aggregateByState_traced records month) in
  Permutation states (aggregateByState records month)
  /\ calls
     = flat_map (callsOfState (regionTotals states) (subRegionTotals states)) states
  /\ Forall (fun c => call_values c <> [] /\ In (call_value c) (call_values c))
            calls.
Proof.
  intros states calls. subst calls.
  split; [rewrite aggregateByState_unfold; apply sort_perm|].
  split; [apply aggregateByState_trace|].
  rewrite aggregateByState_trace. fold states.
  assert (H : forall c,
             In c (flat_map (callsOfState (regionTotals states)
                               (subRegionTotals states)) states) ->
             In (call_value c) (call_values c)).
  { intros c Hc. apply in_flat_map in Hc. destruct Hc as (s & Hs & Hc).
    destruct Hc as [<-|Hc]; simpl.
    - unfold regionTotals. now apply in_map.
    - apply in_map_iff in Hc. destruct Hc as (d & <- & Hd). simpl.
      unfold subRegionTotals. apply in_flat_map. exists s. split; [assumption|].
      now apply in_map. }
  apply Forall_forall. intros c Hc. specialize (H c Hc).
  split; [|assumption]. intros E. rewrite E in H. contradiction.
Qed.

(** ** Alerts *)

(** A quotient by a positive total exceeds the literal [p/q] exactly when
    the cross products say so. *)
Lemma ratio_gt_pos (a t p : Z) (q : positive) :
  0 < t -> ngt (ratio a t) (lit p q) = (p * t <? Z.pos q * a).
Proof.
  intros Ht. destruct t as [|t|t]; try lia.
  unfold ratio, ndiv, ofZ, lit, ngt, Qeq_bool, Qle_bool, Qdiv, Qmult, Qinv, inject_Z.
  cbn -[Z.mul Z.leb Z.ltb Z.eqb].
  destruct (Z.eqb_spec (Z.pos t * 1) (0 * 1)) as [E|_]; [lia|].
  cbn -[Z.mul Z.leb Z.ltb Z.eqb].
  destruct (Z.leb_spec (a * 1 * Z.pos q) (p * Z.pos t));
    destruct (Z.ltb_spec (p * Z.pos t) (Z.pos q * a)); simpl; try reflexivity; lia.
Qed.

(** A quotient by a zero total exceeds a positive literal exactly when the
    count is positive: [0/0] is NaN and [c/0] an infinity of the sign of
    [c]. *)
Lemma ratio_gt_zero (a p : Z) (q : positive) :
  0 < p -> ngt (ratio a 0) (lit p q) = (0 <? a).
Proof.
  intros Hp. unfold ratio, ndiv, ofZ, lit, ngt, Qneg_bool, Qeq_bool, Qle_bool, inject_Z.
  cbn -[Z.mul Z.leb Z.ltb Z.eqb].
  destruct a; reflexivity.
Qed.

Lemma alertStep_push (toFixed : number -> nat -> string) (s : StateData.t)
    (alerts : list Alert.t) (d : DistrictData.t) :
  alertStep toFixed s alerts d = alerts ++ alertsOfDistrict toFixed s d.
Proof.
  unfold alertStep, alertsOfDistrict, firstMatchingRule, push.
  cbn [find ruleHolds]. cbv zeta.
  fold (ratio (DistrictData.age0_5 d) (DistrictData.totalUpdates d)).
  fold (ratio (DistrictData.age18Plus d) (DistrictData.totalUpdates d)).
  fold (ratio (DistrictData.age5_17 d) (DistrictData.totalUpdates d)).
  destruct (ngt (ratio (DistrictData.age0_5 d) _) _); [reflexivity|].
  destruct (ngt (ratio (DistrictData.age18Plus d) _) _); [reflexivity|].
  destruct (ngt (ratio (DistrictData.age5_17 d) _) _); [reflexivity|].
  now rewrite app_nil_r.
Qed.

Lemma forEach_push_flat_map {A B : Type} (step : list B -> A -> list B)
    (g : A -> list B) (l : list A) (acc : list B) :
  (forall acc x, step acc x = acc ++ g x) ->
  forEach l step acc = acc ++ flat_map g l.
Proof.
  intros H. revert acc. induction l as [|x l IH]; intros acc; simpl.
  - now rewrite app_nil_r.
  - rewrite IH, H. now rewrite <- app_assoc.
Qed.

(** C5. For every list of region summaries, [getDemographicAlerts]
    returns the first five, at most, of the alerts met when the regions are
    visited in order and within each region its sub-regions in order; a
    sub-region yields the alert of the first rule that holds for it among
    age0_5/total > 0.40 (severity high), age18Plus/total > 0.75 (severity
    medium) and age5_17/total > 0.35 (severity medium), and no alert when
    none holds. *)
Theorem getDemographicAlerts_spec (toFixed : number -> nat -> string)
    (states : list StateData.t) :
  getDemographicAlerts toFixed states = detectAlerts toFixed states
  /\ (List.length (getDemographicAlerts toFixed states) <= 5)%nat
  /\ (forall d : DistrictData.t,
        let t := DistrictData.totalUpdates d in
        0 < t ->
        (firstMatchingRule d = Some ChildRule
         <-> 40 * t < 100 * DistrictData.age0_5 d)
        /\ (firstMatchingRule d = Some AdultRule
            <-> 100 * DistrictData.age0_5 d <= 40 * t
                /\ 75 * t < 100 * DistrictData.age18Plus d)
        /\ (firstMatchingRule d = Some YouthRule
            <-> 100 * DistrictData.age0_5 d <= 40 * t
                /\ 100 * DistrictData.age18Plus d <= 75 * t
                /\ 35 * t < 100 * DistrictData.age5_17 d)).
Proof.
  assert (E : getDemographicAlerts toFixed states = detectAlerts toFixed states).
  { unfold getDemographicAlerts, detectAlerts, slice0. f_equal.
    rewrite (forEach_push_flat_map _
               (fun s => flat_map (alertsOfDistrict toFixed s) (StateData.districts s))).
    - reflexivity.
    - intros acc s. apply forEach_push_flat_map. intros acc' d.
      apply alertStep_push. }
  split; [exact E|]. split.
  - rewrite E. unfold detectAlerts. apply firstn_le_length.
  - intros d t Ht. unfold firstMatchingRule. cbn [find ruleHolds]. fold t.
    rewrite !ratio_gt_pos by assumption.
    destruct (Z.ltb_spec (4 * t) (10 * DistrictData.age0_5 d));
      destruct (Z.ltb_spec (75 * t) (100 * DistrictData.age18Plus d));
      destruct (Z.ltb_spec (35 * t) (100 * DistrictData.age5_17 d));
      repeat split; intros; try discriminate; try reflexivity; try lia.
Qed.

(** ** Sub-regions without updates *)

Lemma zero_total_rules (d : DistrictData.t) :
  DistrictData.totalUpdates d = 0 ->
  ruleHolds ChildRule d = (0 <? DistrictData.age0_5 d)
  /\ ruleHolds AdultRule d = (0 <? DistrictData.age18Plus d)
  /\ ruleHolds YouthRule d = (0 <? DistrictData.age5_17 d).
Proof.
  intros H. unfold ruleHolds. rewrite H.
  rewrite !ratio_gt_zero by lia. repeat split.
Qed.

(** C10, as the program has it. A sub-region whose [totalUpdates] is 0 and
    none of whose three bracket counts is positive produces no alert: its
    three quotients are NaN or the negative infinity, no threshold
    comparison holds for them, and the loop body leaves the alerts as they
    were.  This covers every sub-region with non-negative counts that add
    up to a total of 0. *)
Theorem zero_total_no_alert (d : DistrictData.t) :
  DistrictData.totalUpdates d = 0 ->
  DistrictData.age0_5 d <= 0 ->
  DistrictData.age5_17 d <= 0 ->
  DistrictData.age18Plus d <= 0 ->
  ruleHolds ChildRule d = false
  /\ ruleHolds AdultRule d = false
  /\ ruleHolds YouthRule d = false
  /\ forall (toFixed : number -> nat -> string) (s : StateData.t)
            (alerts : list Alert.t),
       alertStep toFixed s alerts d = alerts.
Proof.
  intros H0 Hc Hy Ha.
  destruct (zero_total_rules d H0) as (Rc & Ra & Ry).
  assert (Ec : ruleHolds ChildRule d = false) by (rewrite Rc; now apply Z.ltb_ge).
  assert (Ea : ruleHolds AdultRule d = false) by (rewrite Ra; now apply Z.ltb_ge).
  assert (Ey : ruleHolds YouthRule d = false) by (rewrite Ry; now apply Z.ltb_ge).
  repeat split; try assumption.
  intros toFixed s alerts. rewrite alertStep_push.
  unfold alertsOfDistrict, firstMatchingRule. cbn [find].
  rewrite Ec, Ea, Ey. apply app_nil_r.
Qed.

Lemma zero_total_no_alert_witness :
  let d := {| DistrictData.district := "North Goa"; DistrictData.state := "Goa";
              DistrictData.totalUpdates := 0;
              DistrictData.age0_5 := 0; DistrictData.age5_17 := 0;
              DistrictData.age18Plus := 0;
              DistrictData.dominantAgeGroup := "Adult (18+)";
              DistrictData.intensity := low |} in
  DistrictData.totalUpdates d = 0
  /\ DistrictData.age0_5 d <= 0
  /\ DistrictData.age5_17 d <= 0
  /\ DistrictData.age18Plus d <= 0
  /\ ruleHolds ChildRule d = false
  /\ ruleHolds AdultRule d = false
  /\ ruleHolds YouthRule d = false
  /\ forall (toFixed : number -> nat -> string) (s : StateData.t)
            (alerts : list Alert.t),
       alertStep toFixed s alerts d = alerts.
Proof.
  intros d.
  split; [reflexivity|]. split; [simpl; lia|]. split; [simpl; lia|].
  split; [simpl; lia|].
  apply (zero_total_no_alert d); simpl; lia.
Defined.

(** A sub-region whose [totalUpdates] is 0 does produce an alert when its
    first bracket is positive: the quotient is the positive infinity.  The
    summaries are those [aggregateByState] builds from one record with the
    counts 5, -5 and 0. *)
Lemma zero_total_alert_counterexample :
  let states := aggregateByState [cancellingRecord] "2024-01" in
  map (fun s => map DistrictData.totalUpdates (StateData.districts s)) states
  = [[0]]
  /\ forall toFixed : number -> nat -> string,
       getDemographicAlerts toFixed states
       = [{| Alert.state := "Goa";
             Alert.district := "North Goa";
             Alert.alert :=
               ("High child enrollment (" ++ toFixed (Infinity false) 0%nat ++ "%)")%string;
             Alert.severity := sev_high |}].
Proof.
  split; [reflexivity|]. intros toFixed. reflexivity.
Qed.

(** ** Recommendations *)

Lemma recommendStep_push (toFixed : number -> nat -> string)
    (parseFloat : string -> number) (formatMonth : string -> string)
    (avg med : number) (s : StateData.t) (month : string)
    (recs : list Recommendation.t) (d : DistrictData.t) :
  recommendStep toFixed parseFloat formatMonth avg med s month recs d
  = recs ++ recommendStep toFixed parseFloat formatMonth avg med s month [] d.
Proof.
  unfold recommendStep. cbv zeta.
  match goal with
  | |- context [if ?c then push recs _ else recs] => destruct c
  end; unfold push.
  - reflexivity.
  - now rewrite app_nil_r.
Qed.

Lemma recommendStep_tier (toFixed : number -> nat -> string)
    (parseFloat : string -> number) (formatMonth : string -> string)
    (avg med : number) (s : StateData.t) (month : string)
    (d : DistrictData.t) (r : Recommendation.t) :
  In r (recommendStep toFixed parseFloat formatMonth avg med s month [] d) ->
  recommendStep toFixed parseFloat formatMonth avg med s month [] d = [r]
  /\ Recommendation.severity r = tierOf avg d
  /\ Recommendation.expectedImpact r = impactOf (tierOf avg d).
Proof.
  unfold recommendStep, tierOf. cbv zeta.
  match goal with
  | |- context [if ?c then push [] _ else []] => destruct c
  end; unfold push; [|intros []].
  intros [<-|[]]. cbn [app Recommendation.severity Recommendation.expectedImpact].
  split; [reflexivity|]. split; [reflexivity|].
  now destruct (ngt _ _).
Qed.

Lemma producedRecommendations_flat (toFixed : number -> nat -> string)
    (parseFloat : string -> number) (formatMonth : string -> string)
    (states : list StateData.t) (month : string) :
  producedRecommendations toFixed parseFloat formatMonth states month
  = flat_map
      (fun s =>
         flat_map
           (recommendStep toFixed parseFloat formatMonth (avgTotalOf states)
              (stateMedianOf s) s month [])
           (filter (fun d => Level_eqb (DistrictData.intensity d) high)
                   (StateData.districts s)))
      states.
Proof.
  unfold producedRecommendations. cbv zeta.
  fold (avgTotalOf states).
  rewrite (forEach_push_flat_map _
             (fun s =>
                flat_map
                  (recommendStep toFixed parseFloat formatMonth (avgTotalOf states)
                     (stateMedianOf s) s month [])
                  (filter (fun d => Level_eqb (DistrictData.intensity d) high)
                          (StateData.districts s)))).
  - reflexivity.
  - intros acc s. fold (stateMedianOf s).
    apply forEach_push_flat_map. intros acc' d. apply recommendStep_push.
Qed.

Lemma sortInsert_highFirst (x : Recommendation.t) (hs ms : list Recommendation.t) :
  Forall (fun r => isHigh r = true) hs ->
  Forall (fun r => isHigh r = false) ms ->
  sortInsert highFirst x (hs ++ ms)
  = if isHigh x then x :: hs ++ ms else hs ++ x :: ms.
Proof.
  intros Hh Hm. induction Hh as [|h hs Hh _ IH]; cbn [app sortInsert].
  - destruct Hm as [|m ms Hm _]; cbn [app sortInsert].
    + now destruct (isHigh x).
    + unfold highFirst. fold (isHigh m). fold (isHigh x). rewrite Hm.
      now destruct (isHigh x).
  - rewrite IH. unfold highFirst. fold (isHigh h). fold (isHigh x). rewrite Hh.
    now destruct (isHigh x).
Qed.

(** Sorting by [highFirst] moves the high recommendations to the front and
    keeps the order within each of the two groups. *)
Lemma sort_highFirst (l : list Recommendation.t) :
  sort highFirst l
  = filter isHigh l ++ filter (fun r => negb (isHigh r)) l.
Proof.
  induction l as [|x l IH]; simpl; [reflexivity|].
  rewrite IH, sortInsert_highFirst.
  - now destruct (isHigh x).
  - apply Forall_forall. intros r Hr. now apply filter_In in Hr.
  - apply Forall_forall. intros r Hr. apply filter_In in Hr.
    now apply negb_true_iff.
Qed.

(** Against the average of a non-empty population, "more than twice the
    average" is a comparison of integers. *)
Lemma twice_average_gt (t sum : Z) (n : nat) :
  (0 < n)%nat ->
  ngt (ofZ t) (nmul (ndiv (ofZ sum) (ofZ (Z.of_nat n))) (ofZ 2))
  = (2 * sum <? t * Z.of_nat n).
Proof.
  intros Hn. destruct (Z.of_nat n) as [|k|k] eqn:E; try lia.
  unfold ndiv, nmul, ofZ, ngt, Qeq_bool, Qle_bool, Qdiv, Qmult, Qinv, inject_Z.
  cbn -[Z.mul Z.leb Z.ltb Z.eqb].
  destruct (Z.eqb_spec (Z.pos k * 1) (0 * 1)) as [E0|_]; [lia|].
  cbn -[Z.mul Z.leb Z.ltb Z.eqb Pos.mul]. rewrite Pos.mul_1_r.
  destruct (Z.leb_spec (t * Z.pos k) (sum * 1 * 2 * 1));
    destruct (Z.ltb_spec (2 * sum) (t * Z.pos k)); simpl; try reflexivity; lia.
Qed.

Lemma firstn_incl {A : Type} (n : nat) (l : list A) (x : A) :
  In x (firstn n l) -> In x l.
Proof.
  intros H. rewrite <- (firstn_skipn n l). apply in_or_app. now left.
Qed.

Lemma Level_eqb_eq (a b : Level) : Level_eqb a b = true <-> a = b.
Proof. destruct a, b; simpl; split; intros; congruence. Qed.

(** C6. Every recommendation that [generateRecommendations] returns was
    produced for one sub-region of intensity [high]; its severity is
    [high] exactly when that sub-region's [totalUpdates] exceeds twice
    [avgTotal], with the expected impact "~25–35% load normalization", and
    [medium] otherwise, with "~15–20% efficiency improvement".  The
    returned list is the first four, at most, of the produced
    recommendations rearranged so that the [high] ones come first, each of
    the two groups in production order. *)
Theorem generateRecommendations_spec (toFixed : number -> nat -> string)
    (parseFloat : string -> number) (formatMonth : string -> string)
    (states : list StateData.t) (month : string) :
  let avgTotal := avgTotalOf states in
  let allDistricts := flat_map StateData.districts states in
  let produced :=
    producedRecommendations toFixed parseFloat formatMonth states month in
  let returned :=
    generateRecommendations toFixed parseFloat formatMonth states month in
  Forall
    (fun r =>
       exists s d,
         In s states /\ In d (StateData.districts s)
         /\ DistrictData.intensity d = high
         /\ recommendStep toFixed parseFloat formatMonth avgTotal
              (stateMedianOf s) s month [] d = [r]
         /\ (Recommendation.severity r = high
             <-> ngt (ofZ (DistrictData.totalUpdates d)) (nmul avgTotal (ofZ 2))
                 = true)
         /\ (Recommendation.severity r = high
             <-> 2 * sumTotals allDistricts
                 < DistrictData.totalUpdates d * Z.of_nat (List.length allDistricts))
         /\ (Recommendation.severity r = high ->
             Recommendation.expectedImpact r = "~25–35% load normalization")
         /\ (Recommendation.severity r <> high ->
             Recommendation.severity r = medium
             /\ Recommendation.expectedImpact r = "~15–20% efficiency improvement"))
    returned
  /\ returned
     = firstn 4 (filter isHigh produced
                 ++ filter (fun r => negb (isHigh r)) produced)
  /\ (List.length returned <= 4)%nat.
Proof.
  intros avgTotal allDistricts produced returned.
  assert (E : returned
              = firstn 4 (filter isHigh produced
                          ++ filter (fun r => negb (isHigh r)) produced)).
  { subst returned produced. unfold generateRecommendations, slice0.
    now rewrite sort_highFirst. }
  split; [|split; [exact E|rewrite E; apply firstn_le_length]].
  apply Forall_forall. intros r Hr. rewrite E in Hr.
  apply firstn_incl in Hr.
  assert (Hp : In r produced).
  { apply in_app_or in Hr. destruct Hr as [Hr|Hr]; now apply filter_In in Hr. }
  clear Hr. subst produced. rewrite producedRecommendations_flat in Hp.
  apply in_flat_map in Hp. destruct Hp as (s & Hs & Hp).
  apply in_flat_map in Hp. destruct Hp as (d & Hd & Hp).
  apply filter_In in Hd. destruct Hd as [Hd Hi]. apply Level_eqb_eq in Hi.
  fold avgTotal in Hp.
  apply recommendStep_tier in Hp. destruct Hp as (Hone & Hsev & Himp).
  assert (Hn : (0 < List.length allDistricts)%nat).
  { assert (Hin : In d allDistricts)
      by (apply in_flat_map; exists s; now split).
    destruct allDistricts; [contradiction|simpl; lia]. }
  pose proof (twice_average_gt (DistrictData.totalUpdates d)
                (sumTotals allDistricts) _ Hn) as Hz.
  change (ngt (ofZ (DistrictData.totalUpdates d)) (nmul avgTotal (ofZ 2))
          = (2 * sumTotals allDistricts
             <? DistrictData.totalUpdates d * Z.of_nat (List.length allDistricts)))
    in Hz.
  exists s, d.
  split; [assumption|]. split; [assumption|]. split; [assumption|].
  split; [assumption|].
  rewrite Hsev, Himp. unfold tierOf.
  destruct (ngt (ofZ (DistrictData.totalUpdates d)) (nmul avgTotal (ofZ 2))).
  - symmetry in Hz. apply Z.ltb_lt in Hz.
    repeat split; intros; try reflexivity; try assumption; congruence.
  - symmetry in Hz. apply Z.ltb_ge in Hz.
    repeat split; intros; try reflexivity; try discriminate; try lia.
Qed.

(** ** The parser *)

Lemma string_app_assoc (a b c : string) : ((a ++ b) ++ c = a ++ (b ++ c))%string.
Proof. induction a as [|x a IH]; simpl; [reflexivity|now rewrite IH]. Qed.

Lemma string_app_nil_r (a : string) : (a ++ "")%string = a.
Proof. induction a as [|x a IH]; simpl; [reflexivity|now rewrite IH]. Qed.

Lemma stringForall_app (p : ascii -> bool) (a b : string) :
  stringForall p (a ++ b) = stringForall p a && stringForall p b.
Proof.
  induction a as [|x a IH]; simpl; [reflexivity|].
  now rewrite IH, andb_assoc.
Qed.

Lemma stringForall_impl (p q : ascii -> bool) (s : string) :
  (forall c, p c = true -> q c = true) ->
  stringForall p s = true -> stringForall q s = true.
Proof.
  intros H. induction s as [|c s IH]; simpl; [reflexivity|].
  intros E. apply andb_true_iff in E. destruct E as [E1 E2].
  now rewrite (H _ E1), IH.
Qed.

(** *** Trimming *)

Lemma trimStart_app (a b : string) :
  trimStart a <> EmptyString -> trimStart (a ++ b) = (trimStart a ++ b)%string.
Proof.
  induction a as [|c a IH]; simpl; [congruence|].
  destruct (isWhitespace c); [exact IH|reflexivity].
Qed.

Lemma trimStart_forall (p : ascii -> bool) (s : string) :
  stringForall p s = true -> stringForall p (trimStart s) = true.
Proof.
  induction s as [|c s IH]; simpl; [reflexivity|].
  intros E. destruct (isWhitespace c); [|exact E].
  apply andb_true_iff in E. now apply IH.
Qed.

Lemma trimEnd_no_whitespace (s : string) :
  stringForall (fun c => negb (isWhitespace c)) s = true -> trimEnd s = s.
Proof.
  induction s as [|c s IH]; simpl; [reflexivity|].
  intros E. apply andb_true_iff in E. destruct E as [E1 E2].
  rewrite (IH E2). apply negb_true_iff in E1. rewrite E1.
  now destruct s.
Qed.

Lemma trimEnd_app (a b : string) :
  b <> EmptyString -> trimEnd b = b -> trimEnd (a ++ b) = (a ++ b)%string.
Proof.
  intros Hb Eb. induction a as [|c a IH]; simpl; [exact Eb|].
  rewrite IH. destruct (a ++ b)%string eqn:E; [|reflexivity].
  destruct a; simpl in E; [congruence|discriminate].
Qed.

(** *** Splitting *)

Lemma split_no_sep (sep : ascii) (s : string) :
  stringForall (fun c => negb (Ascii.eqb c sep)) s = true -> split sep s = [s].
Proof.
  induction s as [|c s IH]; simpl; [reflexivity|].
  intros E. apply andb_true_iff in E. destruct E as [E1 E2].
  apply negb_true_iff in E1. now rewrite E1, (IH E2).
Qed.

Lemma split_app_sep (sep : ascii) (a b : string) :
  stringForall (fun c => negb (Ascii.eqb c sep)) a = true ->
  split sep (a ++ String sep b) = a :: split sep b.
Proof.
  induction a as [|c a IH]; simpl.
  - now rewrite Ascii.eqb_refl.
  - intros E. apply andb_true_iff in E. destruct E as [E1 E2].
    apply negb_true_iff in E1. now rewrite E1, (IH E2).
Qed.

(** *** Fields of a line *)

Lemma plainChar_inv (c : ascii) :
  plainChar c = true ->
  Ascii.eqb c commaChar = false /\ Ascii.eqb c quoteChar = false
  /\ Ascii.eqb c newlineChar = false.
Proof.
  unfold plainChar. intros E.
  apply andb_true_iff in E. destruct E as [E E3].
  apply andb_true_iff in E. destruct E as [E1 E2].
  now rewrite !negb_true_iff in *.
Qed.

Lemma parseCSVLine_loop_field (f rest : string) (result : list string)
    (current : string) :
  stringForall plainChar f = true ->
  parseCSVLine_loop (f ++ rest) result current false
  = parseCSVLine_loop rest result (current ++ f)%string false.
Proof.
  revert current. induction f as [|c f IH]; intros current; simpl.
  - now rewrite string_app_nil_r.
  - intros E. apply andb_true_iff in E. destruct E as [E1 E2].
    destruct (plainChar_inv c E1) as (Hc & Hq & _).
    rewrite Hq, Hc. simpl. rewrite (IH _ E2).
    now rewrite string_app_assoc.
Qed.

Lemma parseCSVLine_loop_comma (rest : string) (result : list string)
    (current : string) :
  parseCSVLine_loop (String commaChar rest) result current false
  = parseCSVLine_loop rest (push result (trim current)) EmptyString false.
Proof. reflexivity. Qed.

(** A line of six fields without commas and quotes is cut into its six
    fields, each trimmed. *)
Lemma parseCSVLine_fields (f0 f1 f2 f3 f4 f5 : string) :
  stringForall plainChar f0 = true -> stringForall plainChar f1 = true ->
  stringForall plainChar f2 = true -> stringForall plainChar f3 = true ->
  stringForall plainChar f4 = true -> stringForall plainChar f5 = true ->
  parseCSVLine (join "," [f0; f1; f2; f3; f4; f5])
  = [trim f0; trim f1; trim f2; trim f3; trim f4; trim f5].
Proof.
  intros H0 H1 H2 H3 H4 H5. unfold parseCSVLine. cbn [join].
  change ("," ++ ?s)%string with (String commaChar s).
  repeat (rewrite parseCSVLine_loop_field by assumption;
          rewrite parseCSVLine_loop_comma; cbn [append]; unfold push; cbn [app]).
  rewrite <- (string_app_nil_r f5) at 1.
  rewrite parseCSVLine_loop_field by assumption.
  reflexivity.
Qed.

(** *** Decimal digits *)

Arguments digitChar : simpl never.
Arguments digitValue : simpl never.

Lemma digit_cases (d : Z) :
  0 <= d < 10 ->
  d = 0 \/ d = 1 \/ d = 2 \/ d = 3 \/ d = 4 \/ d = 5 \/ d = 6 \/ d = 7
  \/ d = 8 \/ d = 9.
Proof. lia. Qed.

Lemma digitValue_digitChar (d : Z) :
  0 <= d < 10 -> digitValue (digitChar d) = Some d.
Proof.
  intros H. destruct (digit_cases d H) as [->|[->|[->|[->|[->|[->|[->|[->|[->| ->]]]]]]]]];
    reflexivity.
Qed.

Lemma digitChar_plain (d : Z) :
  0 <= d < 10 ->
  plainChar (digitChar d) = true /\ isWhitespace (digitChar d) = false
  /\ isDigit (digitChar d) = true.
Proof.
  intros H. destruct (digit_cases d H) as [->|[->|[->|[->|[->|[->|[->|[->|[->| ->]]]]]]]]];
    repeat split.
Qed.

Lemma digitsBefore_app (fuel : nat) (n : Z) (acc : string) :
  digitsBefore fuel n acc = (digitsBefore fuel n EmptyString ++ acc)%string.
Proof.
  revert n acc. induction fuel as [|fuel IH]; intros n acc; simpl; [reflexivity|].
  destruct (n / 10 =? 0); [reflexivity|].
  rewrite IH, (IH _ (String _ EmptyString)).
  now rewrite string_app_assoc.
Qed.

Lemma readDigits_snoc (s : string) (d a : Z) :
  stringForall isDigit s = true -> 0 <= d < 10 ->
  readDigits (s ++ String (digitChar d) EmptyString) a = 10 * readDigits s a + d.
Proof.
  intros Hs Hd. revert a.
  induction s as [|c s IH]; intros a; cbn [append readDigits].
  - now rewrite digitValue_digitChar.
  - cbn [stringForall] in Hs. apply andb_true_iff in Hs. destruct Hs as [Hc Hs].
    unfold isDigit in Hc. destruct (digitValue c); [|discriminate].
    now apply IH.
Qed.

(** The digits written for [n] are digits, at least one, and read back as
    [n]. *)
Lemma digitsBefore_spec (fuel : nat) (n : Z) :
  0 <= n < 2 ^ Z.of_nat (S fuel) ->
  let ds := digitsBefore (S fuel) n EmptyString in
  stringForall isDigit ds = true /\ ds <> EmptyString /\ readDigits ds 0 = n.
Proof.
  revert n. induction fuel as [|fuel IH]; intros n Hn.
  - assert (n = 0 \/ n = 1) as [-> | ->] by (simpl in Hn; lia); repeat split; discriminate.
  - cbn zeta. change (digitsBefore (S (S fuel)) n EmptyString)
      with (let acc' := String (digitChar (n mod 10)) EmptyString in
            if n / 10 =? 0 then acc' else digitsBefore (S fuel) (n / 10) acc').
    cbn zeta.
    assert (Hd : 0 <= n mod 10 < 10) by (apply Z.mod_pos_bound; lia).
    destruct (digitChar_plain _ Hd) as (_ & _ & Hdig).
    destruct (Z.eqb_spec (n / 10) 0) as [E|E].
    + cbn [stringForall readDigits]. rewrite Hdig, digitValue_digitChar by assumption.
      repeat split; [discriminate|].
      pose proof (Z.div_mod n 10). lia.
    + rewrite digitsBefore_app.
      assert (Hq : 0 <= n / 10 < 2 ^ Z.of_nat (S fuel)).
      { split; [apply Z.div_pos; lia|].
        apply Z.div_lt_upper_bound; [lia|].
        rewrite Nat2Z.inj_succ, Z.pow_succ_r in Hn by lia. lia. }
      destruct (IH _ Hq) as (H1 & H2 & H3).
      split; [|split].
      * rewrite stringForall_app, H1. cbn [stringForall andb]. now rewrite Hdig.
      * destruct (digitsBefore (S fuel) (n / 10) EmptyString);
          [congruence|discriminate].
      * rewrite readDigits_snoc, H3 by assumption.
        pose proof (Z.div_mod n 10). lia.
Qed.

Lemma parseDigits_readDigits (s : string) (a : option Z) :
  stringForall isDigit s = true -> s <> EmptyString ->
  parseDigits s a
  = Some (readDigits s (match a with Some a => a | None => 0 end)).
Proof.
  revert a. induction s as [|c s IH]; intros a Hs Hne; [congruence|].
  simpl in *. apply andb_true_iff in Hs. destruct Hs as [Hc Hs].
  unfold isDigit in Hc. destruct (digitValue c) as [d|]; [|discriminate].
  destruct s as [|c' s'].
  - reflexivity.
  - now rewrite (IH _ Hs) by discriminate.
Qed.

Lemma isDigit_facts (c : ascii) :
  isDigit c = true ->
  plainChar c = true /\ isWhitespace c = false
  /\ Ascii.eqb c "-" = false /\ Ascii.eqb c "+" = false.
Proof.
  unfold isDigit, digitValue.
  destruct c as [[] [] [] [] [] [] [] []]; cbv; intros; try discriminate;
    repeat split.
Qed.

(** Up to [MAX_SAFE_INTEGER] a number is written with all its digits. *)
Lemma numberToString_safe (n : Z) :
  Z.abs n <= MAX_SAFE_INTEGER ->
  numberToString n
  = if n <? 0 then String "-" (decimalDigits (- n)) else decimalDigits n.
Proof.
  unfold MAX_SAFE_INTEGER, numberToString. intros Hn.
  destruct (Z.ltb_spec (Z.abs n) (2 ^ 53)) as [_|Hge]; [|lia].
  destruct (Z.ltb_spec n 0).
  - now rewrite Z.abs_neq by lia.
  - now rewrite Z.abs_eq by lia.
Qed.

(** A count up to [MAX_SAFE_INTEGER] is written as plain digits, which
    [trim] leaves alone and [parseInt] reads back. *)
Lemma numberToString_spec (n : Z) :
  safeCount n ->
  stringForall plainChar (numberToString n) = true
  /\ stringForall (fun c => negb (isWhitespace c)) (numberToString n) = true
  /\ numberToString n <> EmptyString
  /\ parseInt (Some (trim (numberToString n))) = Some n.
Proof.
  intros [Hn Hmax]. rewrite numberToString_safe by (rewrite Z.abs_eq; assumption).
  unfold decimalDigits.
  destruct (Z.ltb_spec n 0) as [|_]; [lia|].
  assert (Hb : 0 <= n < 2 ^ Z.of_nat (S (Z.to_nat (Z.log2 n)))).
  { split; [assumption|]. rewrite Nat2Z.inj_succ, Z2Nat.id by apply Z.log2_nonneg.
    destruct (Z.eq_dec n 0) as [->|]; [reflexivity|].
    apply Z.log2_spec. lia. }
  destruct (digitsBefore_spec _ _ Hb) as (Hd & Hne & Hr).
  set (ds := digitsBefore (S (Z.to_nat (Z.log2 n))) n EmptyString) in *.
  assert (Hp : stringForall plainChar ds = true).
  { revert Hd. apply stringForall_impl. intros c Hc. now apply isDigit_facts. }
  assert (Hw : stringForall (fun c => negb (isWhitespace c)) ds = true).
  { revert Hd. apply stringForall_impl. intros c Hc.
    apply negb_true_iff. now apply isDigit_facts. }
  repeat split; try assumption.
  unfold trim. destruct ds as [|c ds']; [congruence|].
  simpl in Hd. apply andb_true_iff in Hd. destruct Hd as [Hc Hd'].
  destruct (isDigit_facts c Hc) as (_ & Hws & Hminus & Hplus).
  assert (Hts : trimStart (String c ds') = String c ds') by (simpl; now rewrite Hws).
  rewrite Hts, (trimEnd_no_whitespace _ Hw).
  unfold parseInt. rewrite Hts.
  assert (Hpd : parseDigits (String c ds') None = Some n).
  { rewrite parseDigits_readDigits; [now rewrite Hr| |discriminate].
    simpl. now rewrite Hc, Hd'. }
  destruct c as [b0 b1 b2 b3 b4 b5 b6 b7].
  destruct b0, b1, b2, b3, b4, b5, b6, b7; try discriminate; exact Hpd.
Qed.

(** *** Names *)

Lemma lowerChar_space (c : ascii) :
  Ascii.eqb (lowerChar c) spaceChar = Ascii.eqb c spaceChar.
Proof. destruct c as [[] [] [] [] [] [] [] []]; reflexivity. Qed.

Lemma split_nonempty (sep : ascii) (s : string) : split sep s <> [].
Proof.
  destruct s as [|c s]; simpl; [discriminate|].
  destruct (Ascii.eqb c sep); [discriminate|].
  destruct (split sep s); discriminate.
Qed.

Lemma join_cons_char (sep : string) (c : ascii) (w : string) (ws : list string) :
  join sep (String c w :: ws) = String c (join sep (w :: ws)).
Proof. destruct ws; reflexivity. Qed.

Lemma join_capitalizeFrom (first : bool) (s : string) :
  join " " (capitalizeFrom first (split spaceChar (toLowerCase s)))
  = titleCaseBy isSpace first s.
Proof.
  revert first. induction s as [|c s IH]; intros first.
  - now destruct first.
  - cbn [toLowerCase mapChars split titleCaseBy].
    fold (toLowerCase s). rewrite lowerChar_space.
    change (isSpace c) with (Ascii.eqb c spaceChar).
    destruct (Ascii.eqb_spec c spaceChar) as [->|Hc].
    + rewrite <- (IH true).
      pose proof (split_nonempty spaceChar (toLowerCase s)) as Hne.
      destruct (split spaceChar (toLowerCase s)) as [|w ws]; [congruence|].
      now destruct first.
    + rewrite <- (IH false).
      pose proof (split_nonempty spaceChar (toLowerCase s)) as Hne.
      destruct (split spaceChar (toLowerCase s)) as [|w ws]; [congruence|].
      unfold capitalizeFrom.
      destruct first; unfold capitalize at 1; cbn [charAt0 slice1 toUpperCase mapChars append];
        now rewrite join_cons_char.
Qed.

(** [normalizeCase] lower-cases its argument and capitalizes the first
    character and every character that follows a space. *)
Lemma normalizeCase_titleCaseSpaces (s : string) :
  normalizeCase s = titleCaseSpaces s.
Proof.
  unfold normalizeCase, titleCaseSpaces. rewrite <- join_capitalizeFrom.
  pose proof (split_nonempty spaceChar (toLowerCase s)) as Hne.
  destruct (split spaceChar (toLowerCase s)); [congruence|reflexivity].
Qed.

(** Where spaces are the only whitespace of a name, words delimited by
    spaces are words delimited by whitespace. *)
Lemma titleCaseBy_spaces_only (first : bool) (s : string) :
  stringForall (fun c => Bool.eqb (isWhitespace c) (isSpace c)) s = true ->
  titleCaseBy isSpace first s = titleCaseBy isWhitespace first s.
Proof.
  revert first. induction s as [|c s IH]; intros first; simpl; [reflexivity|].
  intros E. apply andb_true_iff in E. destruct E as [E1 E2].
  apply Bool.eqb_prop in E1. now rewrite E1, (IH _ E2).
Qed.

(** *** One record, written and read back *)

Lemma csvLine_facts (r : AadhaarRecord) :
  stringForall plainChar (Month r) = true ->
  stringForall plainChar (State r) = true ->
  stringForall plainChar (District r) = true ->
  safeCount (Age_0_5 r) -> safeCount (Age_5_17 r) -> safeCount (Age_18_plus r) ->
  stringForall notNewline (csvLine r) = true
  /\ csvLine r <> EmptyString
  /\ trimEnd (csvLine r) = csvLine r.
Proof.
  intros Hm Hs Hd H1 H2 H3.
  destruct (numberToString_spec _ H1) as (P1 & _ & _ & _).
  destruct (numberToString_spec _ H2) as (P2 & _ & _ & _).
  destruct (numberToString_spec _ H3) as (P3 & W3 & N3 & _).
  assert (Hnl : forall f, stringForall plainChar f = true ->
                          stringForall notNewline f = true).
  { intros f. apply stringForall_impl. intros c Hc.
    unfold notNewline. apply negb_true_iff. now apply plainChar_inv. }
  unfold csvLine. cbn [join].
  set (n3 := numberToString (Age_18_plus r)) in *.
  split; [|split].
  - rewrite !stringForall_app. cbn [stringForall].
    rewrite !Hnl by assumption. reflexivity.
  - destruct (Month r); discriminate.
  - rewrite <- !string_app_assoc.
    apply trimEnd_app; [assumption|now apply trimEnd_no_whitespace].
Qed.

Lemma trim_csvText (header : string) (r : AadhaarRecord) :
  trimStart header <> EmptyString ->
  csvLine r <> EmptyString -> trimEnd (csvLine r) = csvLine r ->
  trim (csvText header r)
  = (trimStart header ++ String newlineChar (csvLine r))%string.
Proof.
  intros Hh Hne Ht. unfold trim, csvText.
  rewrite trimStart_app by assumption.
  change (String newlineChar (csvLine r))
    with (String newlineChar EmptyString ++ csvLine r)%string.
  rewrite <- string_app_assoc.
  now apply trimEnd_app.
Qed.

(** C9, as the program has it. For every record whose period, region and
    sub-region are ASCII texts without comma, double quote or newline and
    whose three counts are integers from 0 to [Number.MAX_SAFE_INTEGER]
    (the counts that [toString] writes with all their digits and that
    [parseInt] reads exactly), and every header line of ASCII characters
    that is not blank, [parseCSV] applied to the header followed by the
    comma-joined line of the record yields exactly one record; its three
    counts are the original ones, and its region and sub-region names are
    the original ones with leading and trailing whitespace removed,
    lower-cased, and with the first character and each character that
    follows a space capitalized. *)
Theorem parseCSV_roundtrip (header : string) (r : AadhaarRecord) :
  asciiText header ->
  stringForall notNewline header = true ->
  trimStart header <> EmptyString ->
  asciiText (Month r) -> asciiText (State r) -> asciiText (District r) ->
  stringForall plainChar (Month r) = true ->
  stringForall plainChar (State r) = true ->
  stringForall plainChar (District r) = true ->
  safeCount (Age_0_5 r) -> safeCount (Age_5_17 r) -> safeCount (Age_18_plus r) ->
  parseCSV (csvText header r)
  = Ok [{| Month := trim (Month r);
           State := titleCaseSpaces (trim (State r));
           District := titleCaseSpaces (trim (District r));
           Age_0_5 := Some (Age_0_5 r);
           Age_5_17 := Some (Age_5_17 r);
           Age_18_plus := Some (Age_18_plus r) |}].
Proof.
  intros _ Hh Hb _ _ _ Hm Hs Hd H1 H2 H3.
  destruct (csvLine_facts r Hm Hs Hd H1 H2 H3) as (Lnl & Lne & Lt).
  destruct (numberToString_spec _ H1) as (P1 & _ & _ & I1).
  destruct (numberToString_spec _ H2) as (P2 & _ & _ & I2).
  destruct (numberToString_spec _ H3) as (P3 & _ & _ & I3).
  unfold parseCSV. rewrite trim_csvText by assumption.
  rewrite split_app_sep by (now apply trimStart_forall).
  rewrite split_no_sep by exact Lnl.
  cbn [skipn mapR]. unfold csvLine at 1 2 3 4 5 6.
  rewrite parseCSVLine_fields by assumption.
  cbn [nth_error nth normalizeCaseOf bindR].
  now rewrite I1, I2, I3, !normalizeCase_titleCaseSpaces.
Qed.

Lemma parseCSV_roundtrip_witness :
  let header := "Month,State,District,Age_0_5,Age_5_17,Age_18_plus" in
  let r := {| Month := "2024-01"; State := "UTTAR PRADESH"; District := "agra";
              Age_0_5 := 120; Age_5_17 := 45; Age_18_plus := 0 |} in
  asciiText header
  /\ stringForall notNewline header = true
  /\ trimStart header <> EmptyString
  /\ asciiText (Month r) /\ asciiText (State r) /\ asciiText (District r)
  /\ stringForall plainChar (Month r) = true
  /\ stringForall plainChar (State r) = true
  /\ stringForall plainChar (District r) = true
  /\ safeCount (Age_0_5 r) /\ safeCount (Age_5_17 r)
  /\ safeCount (Age_18_plus r)
  /\ parseCSV (csvText header r)
     = Ok [{| Month := "2024-01"; State := "Uttar Pradesh"; District := "Agra";
              Age_0_5 := Some 120; Age_5_17 := Some 45;
              Age_18_plus := Some 0 |}].
Proof.
  intros header r.
  assert (Hsafe : forall n, 0 <= n <= 1000 -> safeCount n).
  { intros n Hn. unfold safeCount, MAX_SAFE_INTEGER. lia. }
  split; [reflexivity|]. split; [reflexivity|]. split; [discriminate|].
  split; [reflexivity|]. split; [reflexivity|]. split; [reflexivity|].
  split; [reflexivity|]. split; [reflexivity|]. split; [reflexivity|].
  split; [apply Hsafe; simpl; lia|].
  split; [apply Hsafe; simpl; lia|].
  split; [apply Hsafe; simpl; lia|].
  apply (parseCSV_roundtrip header r);
    try reflexivity; try discriminate; apply Hsafe; simpl; lia.
Defined.

(** A name written with a leading space comes back without it, while the
    normalization of the original keeps it. *)
Lemma parseCSV_roundtrip_counterexample :
  let header := "Month,State,District,Age_0_5,Age_5_17,Age_18_plus" in
  let r := {| Month := "2024-01"; State := " goa"; District := "panaji";
              Age_0_5 := 1; Age_5_17 := 2; Age_18_plus := 3 |} in
  stringForall plainChar (Month r) = true
  /\ stringForall plainChar (State r) = true
  /\ stringForall plainChar (District r) = true
  /\ 0 <= Age_0_5 r /\ 0 <= Age_5_17 r /\ 0 <= Age_18_plus r
  /\ parseCSV (csvText header r)
     = Ok [{| Month := "2024-01"; State := "Goa"; District := "Panaji";
              Age_0_5 := Some 1; Age_5_17 := Some 2; Age_18_plus := Some 3 |}]
  /\ titleCase (State r) = " Goa"
  /\ "Goa" <> titleCase (State r).
Proof.
  repeat split; try discriminate.
Qed.

(** ** Scenarios of the specification, by evaluation *)

(** [toString] up to 2^53, beyond, and from 1e21 on. *)
Example sample_toString :
  map numberToString
      [0; -42; 2 ^ 53; 2 ^ 64; 10 ^ 21; - 10 ^ 21; 2 ^ 70; 10 ^ 23]
  = ["0"; "-42"; "9007199254740992"; "18446744073709552000"; "1e+21";
     "-1e+21"; "1.1805916207174113e+21"; "1e+23"].
Proof. vm_compute. reflexivity. Qed.

(** Equal totals: the regions stay in the order in which they were first
    seen, and each carries its sub-regions in input order. *)
Example sample_regions :
  map (fun s => (StateData.state s, StateData.totalUpdates s,
                 map DistrictData.district (StateData.districts s)))
      (aggregateByState sampleRecords "2024-01")
  = [("Goa", 200, ["North Goa"; "South Goa"]);
     ("Kerala", 200, ["Kochi"; "Idukki"])].
Proof. reflexivity. Qed.

(** One sub-region with a child ratio of 0.45: exactly one alert, of high
    severity, for that sub-region. *)
Example sample_alerts (toFixed : number -> nat -> string) :
  map (fun a => (Alert.state a, Alert.district a, Alert.severity a))
      (getDemographicAlerts toFixed (aggregateByState sampleRecords "2024-01"))
  = [("Goa", "North Goa", sev_high)].
Proof. reflexivity. Qed.

(** Against an average of 100, a total of 250 is of high severity and a
    total of 180 of medium severity. *)
Example sample_tiers :
  let d total :=
    {| DistrictData.district := "Kochi"; DistrictData.state := "Kerala";
       DistrictData.totalUpdates := total;
       DistrictData.age0_5 := 0; DistrictData.age5_17 := 0;
       DistrictData.age18Plus := total;
       DistrictData.dominantAgeGroup := "Adult (18+)";
       DistrictData.intensity := high |} in
  tierOf (ofZ 100) (d 250) = high /\ tierOf (ofZ 100) (d 180) = medium
  /\ tierOf (ofZ 100) (d 200) = medium.
Proof. repeat split. Qed.

(** Ten reference values: the cut points are the fourth and the seventh
    smallest. *)
Example sample_intensities :
  map (fun v => calculateIntensity v [7; 1; 9; 3; 5; 2; 10; 4; 8; 6])
      [1; 4; 5; 7; 8; 11]
  = [low; low; medium; medium; high; high].
Proof. reflexivity. Qed.

(** A quoted field keeps its comma, names are normalized, and a count that
    is not a number is read as NaN. *)
Example sample_parse :
  parseCSV
    (String.concat (String newlineChar EmptyString)
       ["Month,State,District,Age_0_5,Age_5_17,Age_18_plus";
        String.concat (String quoteChar EmptyString)
          ["2024-01, uttar PRADESH ,"; "agra, east"; ",12,7,x3"];
        "2024-02,goa,panaji,-5,+7, 12abc";
        ""])
  = Ok [{| Month := "2024-01"; State := "Uttar Pradesh"; District := "Agra, East";
           Age_0_5 := Some 12; Age_5_17 := Some 7; Age_18_plus := None |};
        {| Month := "2024-02"; State := "Goa"; District := "Panaji";
           Age_0_5 := Some (-5); Age_5_17 := Some 7; Age_18_plus := Some 12 |}].
Proof. reflexivity. Qed.

(** A line with fewer than three fields makes [parseCSV] throw. *)
Example sample_parse_short_line :
  parseCSV (String.concat (String newlineChar EmptyString) ["header"; "2024-01,goa"])
  = Throw "TypeError".
Proof. reflexivity. Qed.

(** * Further properties of the utilities *)

(** ** The classifier on arbitrary reference values *)

Lemma sorted_perm_unique (l1 l2 : list Z) :
  StronglySorted Z.le l1 -> StronglySorted Z.le l2 -> Permutation l1 l2 ->
  l1 = l2.
Proof.
  intros H1. revert l2. induction H1 as [|x t1 Ht1 IH Hx]; intros l2 H2 P.
  - apply Permutation_nil in P. now subst.
  - destruct H2 as [|y t2 Ht2 Hy].
    + apply Permutation_sym, Permutation_nil in P. discriminate.
    + assert (E : x = y).
      { assert (Hxy : In x (y :: t2)) by (apply (Permutation_in _ P); now left).
        assert (Hyx : In y (x :: t1))
          by (apply (Permutation_in _ (Permutation_sym P)); now left).
        rewrite Forall_forall in Hx, Hy.
        destruct Hxy as [->|Hxy]; [reflexivity|].
        destruct Hyx as [->|Hyx]; [reflexivity|].
        specialize (Hx _ Hyx). specialize (Hy _ Hxy). lia. }
      subst y. f_equal. apply IH; [assumption|].
      now apply Permutation_cons_inv in P.
Qed.

Lemma sort_ascending_perm (l1 l2 : list Z) :
  Permutation l1 l2 -> sort ascending l1 = sort ascending l2.
Proof.
  intros P. apply sorted_perm_unique; try apply sort_ascending_sorted.
  eapply perm_trans; [apply Permutation_sym, sort_perm|].
  eapply perm_trans; [exact P|apply sort_perm].
Qed.

(** X1. [calculateIntensity] depends on the reference values as a
    multiset only: rearranging them does not change the answer. *)
Theorem calculateIntensity_perm (value : Z) (values values' : list Z) :
  Permutation values values' ->
  calculateIntensity value values = calculateIntensity value values'.
Proof.
  intros P. unfold calculateIntensity.
  now rewrite (sort_ascending_perm _ _ P).
Qed.

Lemma calculateIntensity_perm_witness :
  Permutation [3; 1; 2] [1; 2; 3]
  /\ calculateIntensity 2 [3; 1; 2] = calculateIntensity 2 [1; 2; 3].
Proof.
  assert (P : Permutation [3; 1; 2] [1; 2; 3]).
  { apply perm_trans with (l' := [1; 3; 2]);
      [apply perm_swap|apply perm_skip, perm_swap]. }
  split; [exact P|].
  apply (calculateIntensity_perm 2 [3; 1; 2] [1; 2; 3] P).
Defined.

Lemma leElem_mono (v v' : Z) (p : option Z) :
  v <= v' -> leElem v' p = true -> leElem v p = true.
Proof.
  intros H. destruct p as [p|]; simpl; [|discriminate].
  rewrite !Z.leb_le. lia.
Qed.

(** X2. For fixed reference values the class never goes down when the
    value goes up. *)
Theorem calculateIntensity_monotone (v v' : Z) (values : list Z) :
  v <= v' ->
  (levelRank (calculateIntensity v values)
   <= levelRank (calculateIntensity v' values))%nat.
Proof.
  intros H. unfold calculateIntensity.
  set (p33 := nth_error _ (floor33 _)). set (p66 := nth_error _ (floor66 _)).
  destruct (leElem v' p33) eqn:E1.
  - now rewrite (leElem_mono _ _ _ H E1).
  - destruct (leElem v' p66) eqn:E2.
    + rewrite (leElem_mono _ _ _ H E2). destruct (leElem v p33); simpl; lia.
    + destruct (leElem v p33); [simpl; lia|].
      destruct (leElem v p66); simpl; lia.
Qed.

Lemma calculateIntensity_monotone_witness :
  3 <= 8
  /\ (levelRank (calculateIntensity 3 [5; 1; 9; 7]%Z)
      <= levelRank (calculateIntensity 8 [5; 1; 9; 7]%Z))%nat.
Proof.
  split; [lia|].
  apply (calculateIntensity_monotone 3 8 [5; 1; 9; 7]). lia.
Defined.

Lemma floor33_le_floor66 (n : nat) : (floor33 n <= floor66 n)%nat.
Proof.
  unfold floor33, floor66. apply Nat.Div0.div_le_mono. lia.
Qed.

Lemma sorted_nth_le (l : list Z) (i j : nat) (x y : Z) :
  StronglySorted Z.le l -> (i <= j)%nat ->
  nth_error l i = Some x -> nth_error l j = Some y -> x <= y.
Proof.
  intros Hs. revert i j. induction Hs as [|a l Hl IH Ha]; intros i j Hij Hi Hj.
  - destruct i; discriminate.
  - destruct i as [|i], j as [|j]; simpl in *; try lia.
    + injection Hi as <-. injection Hj as <-. lia.
    + injection Hi as <-. apply nth_error_In in Hj.
      rewrite Forall_forall in Ha. now apply Ha.
    + apply (IH i j); [lia|assumption|assumption].
Qed.

Lemma calculateIntensity_cuts (value : Z) (values : list Z) :
  values <> [] ->
  exists c33 c66,
    In c33 values /\ In c66 values /\ c33 <= c66
    /\ calculateIntensity value values
       = if value <=? c33 then low else if value <=? c66 then medium else high.
Proof.
  intros Hne.
  assert (Hlen : (0 < List.length values)%nat)
    by (destruct values; [congruence|simpl; lia]).
  pose proof (sort_length ascending values) as Hsl.
  destruct (nth_error (sort ascending values) (floor33 (List.length values)))
    as [c33|] eqn:E33.
  2:{ apply nth_error_None in E33. pose proof (floor33_lt _ Hlen). lia. }
  destruct (nth_error (sort ascending values) (floor66 (List.length values)))
    as [c66|] eqn:E66.
  2:{ apply nth_error_None in E66. pose proof (floor66_lt _ Hlen). lia. }
  exists c33, c66.
  split; [apply (sort_In ascending), (nth_error_In _ _ E33)|].
  split; [apply (sort_In ascending), (nth_error_In _ _ E66)|].
  split.
  - apply (sorted_nth_le _ _ _ _ _ (sort_ascending_sorted values)
             (floor33_le_floor66 _) E33 E66).
  - unfold calculateIntensity. now rewrite Hsl, E33, E66.
Qed.

(** X3. With no reference value every value is classified [high].  With
    reference values, a value not above their minimum is [low] and a value
    above their maximum is [high]; in particular the smallest reference
    value is always [low]. *)
Theorem calculateIntensity_bounds (value : Z) (values : list Z) :
  calculateIntensity value [] = high
  /\ (values <> [] ->
      (Forall (fun x => value <= x) values ->
       calculateIntensity value values = low)
      /\ (Forall (fun x => x < value) values ->
          calculateIntensity value values = high)).
Proof.
  split; [reflexivity|]. intros Hne.
  destruct (calculateIntensity_cuts value values Hne)
    as (c33 & c66 & I33 & I66 & _ & E).
  rewrite E. split; intros H; rewrite Forall_forall in H.
  - specialize (H _ I33). apply Z.leb_le in H. now rewrite H.
  - pose proof (H _ I33) as H1. pose proof (H _ I66) as H2.
    apply Z.leb_gt in H1, H2. now rewrite H1, H2.
Qed.

(** ** Ranking of the sub-regions *)

Lemma sorted_app_split {A : Type} (R : A -> A -> Prop) (l1 l2 : list A) :
  StronglySorted R (l1 ++ l2) ->
  StronglySorted R l1 /\ forall x y, In x l1 -> In y l2 -> R x y.
Proof.
  induction l1 as [|a l1 IH]; simpl; intros H.
  - split; [constructor|intros x y []].
  - inversion H as [|? ? Hs Ha]; subst. destruct (IH Hs) as [H1 H2].
    rewrite Forall_app in Ha. destruct Ha as [Ha1 Ha2].
    split; [now constructor|].
    intros x y [<-|Hx] Hy.
    + rewrite Forall_forall in Ha2. now apply Ha2.
    + now apply H2.
Qed.

Lemma sliceTo_firstn {A : Type} (n : Z) (l : list A) :
  exists k, sliceTo n l = firstn k l
            /\ k = if n <? 0 then Z.to_nat (Z.of_nat (List.length l) + n)
                   else Z.to_nat n.
Proof.
  unfold sliceTo. destruct (n <? 0); eexists; split; reflexivity.
Qed.

Lemma Before_firstn {A : Type} (a b : A) (k : nat) (l : list A) :
  Before a b (firstn k l) -> Before a b l.
Proof.
  intros (l1 & l2 & l3 & E). exists l1, l2, (l3 ++ skipn k l).
  rewrite <- (firstn_skipn k l) at 1. rewrite E.
  rewrite <- !app_assoc. simpl. now rewrite <- !app_assoc.
Qed.

(** X4. [getTopDistricts] returns the beginning of an arrangement of all
    sub-regions by descending total: the returned ones are in descending
    order, none of them has a smaller total than a sub-region left out,
    and a limit of [n >= 0] returns [n] sub-regions, or all when there are
    fewer (a negative limit leaves out that many from the end; no limit
    means five). *)
Theorem getTopDistricts_spec (states : list StateData.t) (limit : option Z) :
  let all := flat_map StateData.districts states in
  let n := match limit with Some n => n | None => 5 end in
  let top := getTopDistricts states limit in
  exists rest,
    Permutation (top ++ rest) all
    /\ StronglySorted
         (fun a b => DistrictData.totalUpdates a >= DistrictData.totalUpdates b)
         top
    /\ (forall d d', In d top -> In d' rest ->
          DistrictData.totalUpdates d >= DistrictData.totalUpdates d')
    /\ List.length top
       = if n <? 0 then Z.to_nat (Z.of_nat (List.length all) + n)
         else Nat.min (Z.to_nat n) (List.length all).
Proof.
  intros all n top. subst top. unfold getTopDistricts. fold all. fold n.
  set (sorted := sort descendingDistrictTotal all).
  destruct (sliceTo_firstn n sorted) as (k & E & Hk). rewrite E.
  exists (skipn k sorted).
  assert (Hs : StronglySorted
                 (fun a b => DistrictData.totalUpdates a
                             >= DistrictData.totalUpdates b)
                 (firstn k sorted ++ skipn k sorted)).
  { rewrite firstn_skipn. subst sorted.
    apply sort_sorted; unfold descendingDistrictTotal; intros; lia. }
  apply sorted_app_split in Hs. destruct Hs as [Hs1 Hs2].
  split; [rewrite firstn_skipn; apply Permutation_sym, sort_perm|].
  split; [exact Hs1|]. split; [exact Hs2|].
  rewrite length_firstn. subst sorted. rewrite sort_length in *.
  subst k. destruct (Z.ltb_spec n 0); lia.
Qed.

(** X5. Sub-regions with equal totals are returned by [getTopDistricts]
    in the order in which the regions and their lists hold them. *)
Theorem getTopDistricts_stable (states : list StateData.t) (limit : option Z)
    (a b : DistrictData.t) :
  Before a b (getTopDistricts states limit) ->
  DistrictData.totalUpdates a = DistrictData.totalUpdates b ->
  Before a b (flat_map StateData.districts states).
Proof.
  intros H Ht. unfold getTopDistricts in H.
  destruct (sliceTo_firstn (match limit with Some n => n | None => 5 end)
              (sort descendingDistrictTotal (flat_map StateData.districts states)))
    as (k & E & _).
  rewrite E in H. apply Before_firstn in H.
  apply (sort_stable descendingDistrictTotal
           (fun d => DistrictData.totalUpdates d =? DistrictData.totalUpdates a))
    in H; [exact H| | |].
  - unfold descendingDistrictTotal. intros x y Hx Hy.
    apply Z.eqb_eq in Hx, Hy. lia.
  - apply Z.eqb_refl.
  - apply Z.eqb_eq. now symmetry.
Qed.

(** ** The list of periods *)

Lemma string_compare_refl (a : string) : String.compare a a = Eq.
Proof.
  induction a as [|x a IH]; simpl; [reflexivity|].
  unfold Ascii.compare. now rewrite N.compare_refl.
Qed.

Lemma string_compare_lt_trans (a b c : string) :
  String.compare a b = Lt -> String.compare b c = Lt -> String.compare a c = Lt.
Proof.
  revert b c. induction a as [|x a IH]; intros [|y b] [|z c]; simpl;
    try discriminate; try reflexivity.
  unfold Ascii.compare.
  destruct (N.compare_spec (N_of_ascii x) (N_of_ascii y)) as [Exy|Lxy|Gxy];
    try discriminate;
    destruct (N.compare_spec (N_of_ascii y) (N_of_ascii z)) as [Eyz|Lyz|Gyz];
    try discriminate;
    destruct (N.compare_spec (N_of_ascii x) (N_of_ascii z)) as [Exz|Lxz|Gxz];
    intros H1 H2; try reflexivity; try lia.
  now apply (IH b c).
Qed.

Lemma stringLe_trans (a b c : string) : stringLe a b -> stringLe b c -> stringLe a c.
Proof.
  unfold stringLe. intros H1 H2.
  destruct (String.compare a b) eqn:E1; [| |congruence].
  - apply String.compare_eq_iff in E1. now subst.
  - destruct (String.compare b c) eqn:E2; [| |congruence].
    + apply String.compare_eq_iff in E2. subst. now rewrite E1.
    + now rewrite (string_compare_lt_trans _ _ _ E1 E2).
Qed.

Lemma sort_compareStrings_sorted (l : list string) :
  StronglySorted stringLe (sort compareStrings l).
Proof.
  apply sort_sorted.
  - intros x y. unfold compareStrings, stringLe.
    destruct (String.compare x y); [congruence|congruence|lia].
  - intros x y. unfold compareStrings, stringLe.
    rewrite (String.compare_antisym y x).
    destruct (String.compare x y); simpl; try lia; congruence.
  - apply stringLe_trans.
Qed.

Lemma sorted_strict (l : list string) :
  StronglySorted stringLe l -> NoDup l ->
  StronglySorted (fun a b => String.compare a b = Lt) l.
Proof.
  induction 1 as [|x l Hs IH Hx]; intros Hn; [constructor|].
  inversion Hn as [|? ? Hnx Hnl]; subst.
  constructor; [now apply IH|].
  rewrite Forall_forall in *. intros y Hy. specialize (Hx y Hy).
  unfold stringLe in Hx. destruct (String.compare x y) eqn:E; [|reflexivity|congruence].
  apply String.compare_eq_iff in E. subst. contradiction.
Qed.

Lemma sorted_app {A : Type} (R : A -> A -> Prop) (l1 l2 : list A) :
  StronglySorted R l1 -> StronglySorted R l2 ->
  (forall x y, In x l1 -> In y l2 -> R x y) ->
  StronglySorted R (l1 ++ l2).
Proof.
  induction 1 as [|a l1 Hs IH Ha]; intros H2 H; simpl; [assumption|].
  constructor.
  - apply IH; [assumption|]. intros x y Hx Hy. apply H; [now right|assumption].
  - apply Forall_app. split; [assumption|].
    apply Forall_forall. intros y Hy. apply H; [now left|assumption].
Qed.

Lemma sorted_rev {A : Type} (R : A -> A -> Prop) (l : list A) :
  StronglySorted R l -> StronglySorted (fun a b => R b a) (rev l).
Proof.
  induction 1 as [|a l Hs IH Ha]; simpl; [constructor|].
  apply sorted_app; [assumption|repeat constructor|].
  intros x y Hx [<-|[]]. apply in_rev in Hx.
  rewrite Forall_forall in Ha. now apply Ha.
Qed.

Lemma addKey_facts (ks : list string) (k : string) :
  NoDup ks ->
  NoDup (addKey ks k) /\ forall x, In x (addKey ks k) <-> In x ks \/ x = k.
Proof.
  intros Hn. unfold addKey. destruct (existsb (String.eqb k) ks) eqn:E.
  - apply existsb_eqb_In in E. split; [assumption|].
    intros x. split; [tauto|]. intros [H| ->]; assumption.
  - assert (Hk : ~ In k ks).
    { intros H. apply existsb_eqb_In in H. congruence. }
    split.
    + apply NoDup_app; [assumption|repeat constructor; intros []|].
      intros x Hx [<-|[]]. contradiction.
    + intros x. rewrite in_app_iff. simpl. split; [intros [H|[<-|[]]]|intros [H| ->]]; auto.
Qed.

Lemma fold_addKey_facts (l ks : list string) :
  NoDup ks ->
  NoDup (fold_left addKey l ks)
  /\ forall x, In x (fold_left addKey l ks) <-> In x ks \/ In x l.
Proof.
  revert ks. induction l as [|k l IH]; intros ks Hn; simpl.
  - split; [assumption|]. intros x. tauto.
  - destruct (addKey_facts ks k Hn) as [Hn' Hin].
    destruct (IH _ Hn') as [H1 H2]. split; [assumption|].
    intros x. rewrite H2, Hin. intuition (subst; auto).
Qed.

Lemma setFrom_facts (l : list string) :
  NoDup (setFrom l) /\ forall x, In x (setFrom l) <-> In x l.
Proof.
  destruct (fold_addKey_facts l [] (NoDup_nil _)) as [H1 H2].
  split; [exact H1|]. intros x. rewrite (H2 x). simpl. tauto.
Qed.

Lemma getUniqueMonths_facts (records : list AadhaarRecord) :
  StronglySorted (fun a b => String.compare b a = Lt) (getUniqueMonths records)
  /\ NoDup (getUniqueMonths records)
  /\ forall m, In m (getUniqueMonths records) <-> In m (map Month records).
Proof.
  unfold getUniqueMonths.
  destruct (setFrom_facts (map Month records)) as [Hn Hin].
  assert (Hn' : NoDup (sort compareStrings (setFrom (map Month records)))).
  { apply (Permutation_NoDup (sort_perm _ _)), Hn. }
  split; [|split].
  - apply (sorted_rev (fun a b => String.compare a b = Lt)).
    apply sorted_strict; [apply sort_compareStrings_sorted|exact Hn'].
  - apply NoDup_rev, Hn'.
  - intros m. rewrite <- in_rev, sort_In. apply Hin.
Qed.

(** X6. [getUniqueMonths] lists every period that occurs in the records
    exactly once, later periods first in the order of their characters. *)
Theorem getUniqueMonths_spec (records : list AadhaarRecord) :
  let months := getUniqueMonths records in
  StronglySorted (fun a b => String.compare b a = Lt) months
  /\ NoDup months
  /\ forall m, In m months <-> exists r, In r records /\ Month r = m.
Proof.
  intros months. subst months.
  destruct (getUniqueMonths_facts records) as (H1 & H2 & H3).
  split; [exact H1|]. split; [exact H2|].
  intros m. rewrite H3, in_map_iff.
  split; intros (r & Ha & Hb); exists r; now split.
Qed.

(** ** The summaries as a grouping of the records *)

Lemma map_get_set {V : Type} (k k' : string) (v : V) (m : JsMap V) :
  map_get k (map_set k' v m)
  = if String.eqb k' k then Some v else map_get k m.
Proof.
  induction m as [|[k0 v0] m IH]; simpl.
  - reflexivity.
  - destruct (String.eqb_spec k0 k') as [->|Hn]; simpl.
    + now destruct (String.eqb k' k).
    + rewrite IH. destruct (String.eqb_spec k0 k) as [->|]; [|reflexivity].
      destruct (String.eqb_spec k' k) as [->|]; [congruence|reflexivity].
Qed.

Lemma map_get_entry {V : Type} (k : string) (v : V) (m : JsMap V) :
  NoDup (map fst m) -> In (k, v) m -> map_get k m = Some v.
Proof.
  induction m as [|[k0 v0] m IH]; simpl; intros Hn H; [contradiction|].
  inversion Hn as [|? ? Hk Hm]; subst.
  destruct H as [[= -> ->]|H].
  - now rewrite String.eqb_refl.
  - destruct (String.eqb_spec k0 k) as [->|]; [|now apply IH].
    exfalso. apply Hk. change k with (fst (k, v)). now apply in_map.
Qed.

Lemma recordsOfState_app (k : string) (rs1 rs2 : list AadhaarRecord) :
  recordsOfState k (rs1 ++ rs2) = recordsOfState k rs1 ++ recordsOfState k rs2.
Proof. apply filter_app. Qed.

Lemma accOfRecords_snoc (rs : list AadhaarRecord) (r : AadhaarRecord) :
  accOfRecords (rs ++ [r])
  = {| StateAcc.age0_5 := StateAcc.age0_5 (accOfRecords rs) + Age_0_5 r;
       StateAcc.age5_17 := StateAcc.age5_17 (accOfRecords rs) + Age_5_17 r;
       StateAcc.age18Plus := StateAcc.age18Plus (accOfRecords rs) + Age_18_plus r;
       StateAcc.districts := push (StateAcc.districts (accOfRecords rs)) (rawDistrict r) |}.
Proof.
  unfold accOfRecords, push. cbn [StateAcc.age0_5 StateAcc.age5_17
    StateAcc.age18Plus StateAcc.districts].
  rewrite !map_app, !sumZ_app. cbn [map sumZ fold_right].
  now rewrite !Z.add_0_r.
Qed.

(** What the map holds for a region once the records [rs] are consumed. *)
Lemma forEach_accumulate_get (rs : list AadhaarRecord) (k : string) :
  map_get k (forEach rs accumulate [])
  = match recordsOfState k rs with
    | [] => None
    | _ :: _ => Some (accOfRecords (recordsOfState k rs))
    end.
Proof.
  induction rs as [|r rs IH] using rev_ind; [reflexivity|].
  unfold forEach in *. rewrite fold_left_app. cbn [fold_left].
  set (m := fold_left accumulate rs []) in *.
  unfold accumulate. rewrite map_get_set, recordsOfState_app.
  change (recordsOfState k [r])
    with (if String.eqb (State r) k then [r] else []).
  destruct (String.eqb_spec (State r) k) as [<-|Hn].
  - assert (E : match map_get (State r) m with
                | Some e => e
                | None => {| StateAcc.age0_5 := 0; StateAcc.age5_17 := 0;
                             StateAcc.age18Plus := 0; StateAcc.districts := [] |}
                end = accOfRecords (recordsOfState (State r) rs)).
    { rewrite IH. now destruct (recordsOfState (State r) rs). }
    rewrite E.
    replace (match recordsOfState (State r) rs ++ [r] with
             | [] => None
             | _ :: _ => Some (accOfRecords (recordsOfState (State r) rs ++ [r]))
             end)
      with (Some (accOfRecords (recordsOfState (State r) rs ++ [r])))
      by (now destruct (recordsOfState (State r) rs)).
    now rewrite accOfRecords_snoc.
  - rewrite app_nil_r. apply IH.
Qed.

Lemma forEach_accumulate_NoDup (rs : list AadhaarRecord) :
  NoDup (map fst (forEach rs accumulate []))
  /\ forall k, In k (map fst (forEach rs accumulate [])) <-> In k (map State rs).
Proof.
  rewrite forEach_accumulate_keys. simpl. apply setFrom_facts.
Qed.

(** The map holds, for each region of the records and for no other key,
    the accumulated records of that region. *)
Lemma forEach_accumulate_entries (rs : list AadhaarRecord) :
  forEach rs accumulate []
  = map (fun k => (k, accOfRecords (recordsOfState k rs)))
        (setFrom (map State rs)).
Proof.
  destruct (forEach_accumulate_NoDup rs) as [Hn _].
  pose proof (forEach_accumulate_keys rs []) as Hk. simpl in Hk.
  fold (setFrom (map State rs)) in Hk. rewrite <- Hk.
  assert (H : forall e, In e (forEach rs accumulate []) ->
                        e = (fst e, accOfRecords (recordsOfState (fst e) rs))).
  { intros [k a] He. simpl. f_equal.
    pose proof (map_get_entry _ _ _ Hn He) as Hg.
    rewrite forEach_accumulate_get in Hg.
    destruct (recordsOfState k rs); congruence. }
  clear Hn Hk. induction (forEach rs accumulate []) as [|e m IH]; [reflexivity|].
  simpl. rewrite <- IH by (intros e' He'; apply H; now right).
  f_equal. apply H. now left.
Qed.

Lemma regionSummary_perm (t t' d d' : list Z) (k : string)
    (rs : list AadhaarRecord) :
  Permutation t t' -> Permutation d d' ->
  regionSummary t d k rs = regionSummary t' d' k rs.
Proof.
  intros Pt Pd. unfold regionSummary. cbv zeta.
  f_equal.
  - apply map_ext. intros r. unfold districtSummary. f_equal.
    unfold calculateIntensity. now rewrite (sort_ascending_perm _ _ Pd).
  - unfold calculateIntensity. now rewrite (sort_ascending_perm _ _ Pt).
Qed.

Lemma classifyState_regionSummary (t d : list Z) (k : string)
    (rs : list AadhaarRecord) :
  fst (classifyState t d (stateOfEntry (k, accOfRecords rs)))
  = regionSummary t d k rs.
Proof.
  rewrite classifyState_fst. unfold regionSummary, stateOfEntry, accOfRecords.
  cbv zeta. cbn [StateAcc.age0_5 StateAcc.age5_17 StateAcc.age18Plus
    StateAcc.districts StateData.state StateData.totalUpdates StateData.age0_5
    StateData.age5_17 StateData.age18Plus StateData.districts
    StateData.dominantAgeGroup].
  now rewrite map_map.
Qed.

(** The records of the regions [ks], region after region, are the records
    themselves in another order. *)
Lemma flat_map_insert {A : Type} (r : A) (f : string -> list A) (k0 : string)
    (ks : list string) :
  NoDup ks -> In k0 ks ->
  Permutation
    (flat_map (fun k => if String.eqb k0 k then r :: f k else f k) ks)
    (r :: flat_map f ks).
Proof.
  induction ks as [|k ks IH]; intros Hn Hin; [contradiction|].
  inversion Hn as [|? ? Hk Hks]; subst. cbn [flat_map].
  destruct (String.eqb_spec k0 k) as [->|Hne].
  - assert (E : flat_map (fun k' => if String.eqb k k' then r :: f k' else f k') ks
                = flat_map f ks).
    { rewrite !flat_map_concat_map. f_equal.
      apply map_ext_in. intros k' Hk'.
      destruct (String.eqb_spec k k') as [->|]; [contradiction|reflexivity]. }
    rewrite E. apply Permutation_refl.
  - destruct Hin as [->|Hin]; [congruence|].
    eapply perm_trans; [apply Permutation_app_head, (IH Hks Hin)|].
    apply Permutation_sym, Permutation_middle.
Qed.

Lemma records_by_state (rs : list AadhaarRecord) (ks : list string) :
  NoDup ks -> (forall r, In r rs -> In (State r) ks) ->
  Permutation (flat_map (fun k => recordsOfState k rs) ks) rs.
Proof.
  intros Hn. induction rs as [|r rs IH]; intros Hin.
  - assert (E : flat_map (fun k => recordsOfState k []) ks = []).
    { clear. induction ks as [|k ks IH]; [reflexivity|exact IH]. }
    rewrite E. constructor.
  - eapply perm_trans.
    + assert (E : flat_map (fun k => recordsOfState k (r :: rs)) ks
                  = flat_map (fun k => if String.eqb (State r) k
                                       then r :: recordsOfState k rs
                                       else recordsOfState k rs) ks).
      { apply flat_map_ext. intros k. unfold recordsOfState. cbn [filter].
        reflexivity. }
      rewrite E. apply flat_map_insert; [assumption|apply Hin; now left].
    + apply perm_skip, IH. intros r' Hr'. apply Hin. now right.
Qed.

(** The summaries before sorting: one per region of the period, in the
    order of first occurrence, each built from the records of its region;
    the reference lists are the totals of these summaries and, up to
    order, the totals of the period's records. *)
Lemma classifiedStates_groups (records : list AadhaarRecord) (month : string) :
  let filtered := filterMonth records month in
  exists d,
    Permutation d (map recordTotal filtered)
    /\ classifiedStates records month
       = map (fun k => regionSummary
                         (regionTotals (classifiedStates records month)) d k
                         (recordsOfState k filtered))
             (setFrom (map State filtered)).
Proof.
  intros filtered.
  destruct (setFrom_facts (map State filtered)) as [Hn Hin].
  set (ks := setFrom (map State filtered)) in *.
  set (entries := map (fun k => (k, accOfRecords (recordsOfState k filtered))) ks).
  set (states0 := map stateOfEntry entries).
  assert (Hc : classifiedStates records month
               = map (fun s => fst (classifyState (regionTotals states0)
                                      (subRegionTotals states0) s)) states0).
  { unfold classifiedStates. fold filtered.
    rewrite (forEach_accumulate_entries filtered). reflexivity. }
  exists (subRegionTotals states0). split.
  - unfold subRegionTotals, states0, entries. rewrite !flat_map_concat_map, !map_map.
    cbn [stateOfEntry StateData.districts accOfRecords StateAcc.districts].
    rewrite <- (flat_map_concat_map
                  (fun k => map DistrictData.totalUpdates
                                (map rawDistrict (recordsOfState k filtered)))).
    assert (E : flat_map (fun k => map DistrictData.totalUpdates
                                       (map rawDistrict (recordsOfState k filtered))) ks
                = map recordTotal (flat_map (fun k => recordsOfState k filtered) ks)).
    { clear. induction ks as [|k ks IH]; [reflexivity|].
      cbn [flat_map]. rewrite map_app, IH, map_map. reflexivity. }
    rewrite E. apply Permutation_map, records_by_state; [assumption|].
    intros r Hr. apply Hin. now apply in_map.
  - assert (Et : regionTotals (classifiedStates records month) = regionTotals states0).
    { rewrite Hc. apply classified_regionTotals. }
    rewrite Et, Hc. unfold states0, entries. rewrite !map_map.
    apply map_ext. intros k. apply classifyState_regionSummary.
Qed.

Lemma aggregateByState_groups (records : list AadhaarRecord) (month : string) :
  let filtered := filterMonth records month in
  let out := aggregateByState records month in
  Forall
    (fun s =>
       s = regionSummary (regionTotals out) (map recordTotal filtered)
             (StateData.state s) (recordsOfState (StateData.state s) filtered)
       /\ In (StateData.state s) (map State filtered))
    out
  /\ NoDup (map StateData.state out)
  /\ (forall k, In k (map StateData.state out) <-> In k (map State filtered))
  /\ Permutation (flat_map StateData.districts out)
       (map (districtSummary (map recordTotal filtered)) filtered).
Proof.
  intros filtered out. subst out. rewrite aggregateByState_unfold.
  set (C := classifiedStates records month).
  pose proof (sort_perm descendingTotal C) as PC.
  destruct (classifiedStates_groups records month) as (d & Pd & EC).
  fold filtered in Pd, EC. fold C in EC.
  destruct (setFrom_facts (map State filtered)) as [Hn Hin].
  set (ks := setFrom (map State filtered)) in *.
  set (t' := regionTotals (sort descendingTotal C)).
  set (d' := map recordTotal filtered).
  assert (EC' : C = map (fun k => regionSummary t' d' k (recordsOfState k filtered)) ks).
  { rewrite EC at 1. apply map_ext. intros k. apply regionSummary_perm.
    - unfold t', regionTotals. now apply Permutation_map.
    - exact Pd. }
  assert (Enames : map StateData.state C = ks).
  { rewrite EC', map_map. cbn [regionSummary StateData.state]. apply map_id. }
  split; [|split; [|split]].
  - apply sort_Forall. rewrite EC' at 1. apply Forall_map, Forall_forall.
    intros k Hk. cbn [regionSummary StateData.state].
    split; [reflexivity|now apply Hin].
  - apply (Permutation_NoDup (Permutation_map StateData.state PC)).
    now rewrite Enames.
  - intros k. rewrite <- Hin, <- Enames.
    split; apply Permutation_in;
      [apply Permutation_sym|]; now apply Permutation_map.
  - eapply perm_trans;
      [apply Permutation_sym, (Permutation_flat_map StateData.districts PC)|].
    rewrite EC'.
    assert (E : flat_map StateData.districts
                  (map (fun k => regionSummary t' d' k (recordsOfState k filtered)) ks)
                = map (districtSummary d')
                      (flat_map (fun k => recordsOfState k filtered) ks)).
    { clear. induction ks as [|k ks IH]; [reflexivity|].
      cbn [map flat_map]. rewrite map_app, IH. reflexivity. }
    rewrite E. apply Permutation_map, records_by_state; [assumption|].
    intros r Hr. apply Hin. now apply in_map.
Qed.

(** X7. Every region summary that [aggregateByState] returns is the
    summary of the period's records of its region: its brackets are their
    sums, its sub-regions are their summaries in input order, each
    classified against the totals of all records of the period, and the
    region itself is classified against the totals of all returned
    regions.  No returned region is without sub-region. *)
Theorem aggregateByState_grouping (records : list AadhaarRecord) (month : string) :
  let filtered := filterMonth records month in
  let out := aggregateByState records month in
  Forall
    (fun s =>
       s = regionSummary (regionTotals out) (map recordTotal filtered)
             (StateData.state s) (recordsOfState (StateData.state s) filtered)
       /\ StateData.districts s <> [])
    out.
Proof.
  intros filtered out.
  destruct (aggregateByState_groups records month) as (H & _).
  fold filtered in H. fold out in H.
  revert H. apply Forall_impl. intros s [E Hin]. split; [exact E|].
  rewrite E. cbn [regionSummary StateData.districts].
  apply in_map_iff in Hin. destruct Hin as (r & Hr & Hin).
  assert (Hr' : In r (recordsOfState (StateData.state s) filtered)).
  { apply filter_In. split; [assumption|]. now apply String.eqb_eq. }
  destruct (recordsOfState (StateData.state s) filtered); [contradiction|discriminate].
Qed.

(** X8. [aggregateByState] returns one summary per region of the period:
    the names of the returned summaries are pairwise distinct and are the
    [State] values of the period's records. *)
Theorem aggregateByState_regions (records : list AadhaarRecord) (month : string) :
  let out := aggregateByState records month in
  NoDup (map StateData.state out)
  /\ forall k, In k (map StateData.state out)
               <-> exists r, In r records /\ Month r = month /\ State r = k.
Proof.
  intros out.
  destruct (aggregateByState_groups records month) as (_ & Hn & Hin & _).
  split; [exact Hn|]. intros k. fold out in Hin. rewrite Hin, in_map_iff.
  unfold filterMonth. split.
  - intros (r & E & Hr). apply filter_In in Hr. destruct Hr as [Hr Hm].
    apply String.eqb_eq in Hm. now exists r.
  - intros (r & Hr & Hm & E). exists r. split; [assumption|].
    apply filter_In. split; [assumption|now apply String.eqb_eq].
Qed.

(** X9. Taken together, the sub-region summaries of the returned regions
    are the summaries of the period's records, one per record. *)
Theorem aggregateByState_districts (records : list AadhaarRecord) (month : string) :
  let filtered := filterMonth records month in
  Permutation
    (flat_map StateData.districts (aggregateByState records month))
    (map (districtSummary (map recordTotal filtered)) filtered).
Proof.
  intros filtered.
  now destruct (aggregateByState_groups records month) as (_ & _ & _ & H).
Qed.

Lemma intensity_among (v : Z) (l : list Z) :
  l <> [] ->
  ((forall x, In x l -> v <= x) -> calculateIntensity v l = low)
  /\ (calculateIntensity v l = high -> exists x, In x l /\ x < v).
Proof.
  intros Hne.
  destruct (calculateIntensity_cuts v l Hne) as (c33 & c66 & I33 & I66 & _ & E).
  rewrite E. split.
  - intros H. specialize (H _ I33). apply Z.leb_le in H. now rewrite H.
  - destruct (Z.leb_spec v c33); [discriminate|].
    destruct (Z.leb_spec v c66); [discriminate|]. intros _. now exists c66.
Qed.

Lemma subRegionTotals_perm (records : list AadhaarRecord) (month : string) :
  Permutation (subRegionTotals (aggregateByState records month))
              (map recordTotal (filterMonth records month)).
Proof.
  destruct (aggregateByState_groups records month) as (_ & _ & _ & P).
  apply (Permutation_map DistrictData.totalUpdates) in P.
  rewrite map_map in P. cbn [districtSummary DistrictData.totalUpdates] in P.
  unfold subRegionTotals. rewrite flat_map_concat_map.
  rewrite flat_map_concat_map, concat_map, map_map in P. exact P.
Qed.

(** X10. In what [aggregateByState] returns, a region whose total is the
    smallest of all returned regions has intensity [low], and a region of
    intensity [high] has a total greater than that of some other returned
    region; the same holds for every sub-region among all returned
    sub-regions.  So summaries with equal totals are all [low]. *)
Theorem aggregateByState_relative_intensity
    (records : list AadhaarRecord) (month : string) :
  let out := aggregateByState records month in
  Forall
    (fun s =>
       ((forall t, In t (regionTotals out) -> StateData.totalUpdates s <= t) ->
        StateData.intensity s = low)
       /\ (StateData.intensity s = high ->
           exists t, In t (regionTotals out) /\ t < StateData.totalUpdates s)
       /\ Forall
            (fun d =>
               ((forall t, In t (subRegionTotals out) ->
                           DistrictData.totalUpdates d <= t) ->
                DistrictData.intensity d = low)
               /\ (DistrictData.intensity d = high ->
                   exists t, In t (subRegionTotals out)
                             /\ t < DistrictData.totalUpdates d))
            (StateData.districts s))
    out.
Proof.
  intros out.
  destruct (aggregateByState_groups records month) as (H & _).
  fold out in H.
  pose proof (subRegionTotals_perm records month) as Pd. fold out in Pd.
  apply Forall_forall. intros s Hs.
  rewrite Forall_forall in H. destruct (H s Hs) as [E Hin].
  assert (Ht : regionTotals out <> []).
  { intros E0. apply (in_map StateData.totalUpdates) in Hs.
    unfold regionTotals in E0. rewrite E0 in Hs. contradiction. }
  assert (Is : StateData.intensity s
               = calculateIntensity (StateData.totalUpdates s) (regionTotals out)).
  { rewrite E at 1 2. reflexivity. }
  rewrite Is. destruct (intensity_among (StateData.totalUpdates s) _ Ht) as [L Hh].
  split; [exact L|]. split; [exact Hh|].
  apply Forall_forall. intros d Hd.
  assert (Id : DistrictData.intensity d
               = calculateIntensity (DistrictData.totalUpdates d) (subRegionTotals out)).
  { rewrite E in Hd. cbn [regionSummary StateData.districts] in Hd.
    apply in_map_iff in Hd. destruct Hd as (r & <- & _).
    cbn [districtSummary DistrictData.intensity DistrictData.totalUpdates].
    unfold calculateIntensity.
    now rewrite (sort_ascending_perm _ _ Pd). }
  assert (Hdt : subRegionTotals out <> []).
  { intros E0. assert (Hi : In (DistrictData.totalUpdates d) (subRegionTotals out)).
    { unfold subRegionTotals. apply in_flat_map. exists s. split; [assumption|].
      now apply in_map. }
    rewrite E0 in Hi. contradiction. }
  rewrite Id. apply (intensity_among _ _ Hdt).
Qed.

(** ** Periods and their summaries *)

Lemma aggregateByState_nonempty_iff (records : list AadhaarRecord) (month : string) :
  aggregateByState records month <> [] <-> In month (map Month records).
Proof.
  destruct (aggregateByState_groups records month) as (_ & _ & Hin & _).
  split.
  - intros Hne. destruct (aggregateByState records month) as [|s out] eqn:E;
      [congruence|].
    assert (Hs : In (StateData.state s) (map State (filterMonth records month))).
    { apply Hin. now left. }
    apply in_map_iff in Hs. destruct Hs as (r & _ & Hr).
    apply filter_In in Hr. destruct Hr as [Hr Hm]. apply String.eqb_eq in Hm.
    apply in_map_iff. now exists r.
  - intros Hm E. apply in_map_iff in Hm. destruct Hm as (r & Hm & Hr).
    assert (Hs : In (State r) (map State (filterMonth records month))).
    { apply in_map, filter_In. split; [assumption|now apply String.eqb_eq]. }
    apply Hin in Hs. rewrite E in Hs. contradiction.
Qed.

(** X11. The periods that [getUniqueMonths] lists are exactly those for
    which [aggregateByState] returns at least one region. *)
Theorem getUniqueMonths_aggregate (records : list AadhaarRecord) (month : string) :
  In month (getUniqueMonths records) <-> aggregateByState records month <> [].
Proof.
  destruct (getUniqueMonths_facts records) as (_ & _ & H).
  now rewrite H, aggregateByState_nonempty_iff.
Qed.

Lemma getUniqueMonths_head (records : list AadhaarRecord) (r : AadhaarRecord) :
  In r records ->
  In (initialMonth records) (map Month records)
  /\ stringLe (Month r) (initialMonth records).
Proof.
  intros Hr. destruct (getUniqueMonths_facts records) as (Hs & _ & Hin).
  unfold initialMonth.
  assert (Hm : In (Month r) (getUniqueMonths records))
    by (apply Hin; now apply in_map).
  destruct (getUniqueMonths records) as [|m ms]; [contradiction|].
  cbn [nth]. split; [apply Hin; now left|].
  inversion Hs as [|? ? _ Hall]; subst. unfold stringLe.
  destruct Hm as [<-|Hm].
  - now rewrite string_compare_refl.
  - rewrite Forall_forall in Hall. now rewrite (Hall _ Hm).
Qed.

(** X12. The period the dashboard selects when the records arrive is the
    latest period of the records, and the summaries it then shows are not
    empty unless that period is the empty text; without records it selects
    the empty text and shows no summary. *)
Theorem initialMonth_latest (records : list AadhaarRecord) :
  (records = [] ->
   initialMonth records = EmptyString
   /\ selectedStateData records (initialMonth records) = [])
  /\ (records <> [] ->
      In (initialMonth records) (map Month records)
      /\ (forall r, In r records -> stringLe (Month r) (initialMonth records))
      /\ (initialMonth records <> EmptyString ->
          selectedStateData records (initialMonth records) <> [])).
Proof.
  split.
  - intros ->. split; reflexivity.
  - intros Hne. destruct records as [|r0 rs]; [congruence|].
    set (records := r0 :: rs) in *.
    destruct (getUniqueMonths_head records r0 (or_introl eq_refl)) as [Hin _].
    split; [exact Hin|]. split.
    + intros r Hr. now apply getUniqueMonths_head.
    + intros Hm. unfold selectedStateData.
      destruct (String.eqb_spec (initialMonth records) EmptyString); [congruence|].
      now apply aggregateByState_nonempty_iff.
Qed.

(** ** The figures of the dashboard *)

Lemma fold_left_sum {A : Type} (f : A -> Z) (l : list A) (a : Z) :
  fold_left (fun sum x => sum + f x) l a = a + sumZ (map f l).
Proof.
  revert a. induction l as [|x l IH]; intros a; simpl; [lia|].
  rewrite IH. lia.
Qed.

Lemma fold_left_count {A B : Type} (f : A -> list B) (l : list A) (a : nat) :
  fold_left (fun sum x => (sum + List.length (f x))%nat) l a
  = (a + List.length (flat_map f l))%nat.
Proof.
  revert a. induction l as [|x l IH]; intros a; simpl; [lia|].
  rewrite IH, length_app. lia.
Qed.

Lemma sumZ_perm (l1 l2 : list Z) : Permutation l1 l2 -> sumZ l1 = sumZ l2.
Proof.
  induction 1; simpl; lia.
Qed.

Lemma sumZ_flat_map {A : Type} (f : A -> list Z) (l : list A) :
  sumZ (flat_map f l) = sumZ (map (fun x => sumZ (f x)) l).
Proof.
  induction l as [|x l IH]; simpl; [reflexivity|].
  now rewrite sumZ_app, IH.
Qed.

(** The sum of a bracket over the returned regions is its sum over the
    period's records. *)
Lemma aggregateByState_bracket_sum (records : list AadhaarRecord) (month : string)
    (fs : StateData.t -> Z) (fd : DistrictData.t -> Z) (fr : AadhaarRecord -> Z) :
  (forall t d k rs, fs (regionSummary t d k rs) = sumZ (map fr rs)) ->
  (forall d r, fd (districtSummary d r) = fr r) ->
  sumZ (map fs (aggregateByState records month))
  = sumZ (map fr (filterMonth records month)).
Proof.
  intros Hs Hd.
  destruct (aggregateByState_groups records month) as (H & _ & _ & P).
  set (out := aggregateByState records month) in *.
  set (filtered := filterMonth records month) in *.
  assert (E : map fs out
              = map (fun s => sumZ (map fd (StateData.districts s))) out).
  { apply map_ext_in. intros s Hin. rewrite Forall_forall in H.
    destruct (H s Hin) as [E _].
    assert (exists t d k rs, s = regionSummary t d k rs) as (t & d & k & rs & Es)
      by (do 4 eexists; exact E).
    clear E Hin. subst s. rewrite Hs.
    cbn [regionSummary StateData.districts].
    rewrite map_map. f_equal. apply map_ext. intros r. now rewrite Hd. }
  rewrite E.
  rewrite <- (sumZ_flat_map (fun s => map fd (StateData.districts s))).
  assert (E2 : flat_map (fun s => map fd (StateData.districts s)) out
               = map fd (flat_map StateData.districts out)).
  { clear. induction out as [|s out IH]; [reflexivity|].
    cbn [flat_map]. now rewrite map_app, IH. }
  rewrite E2, (sumZ_perm _ _ (Permutation_map fd P)), map_map.
  f_equal. apply map_ext. intros r. apply Hd.
Qed.

Lemma sumZ_recordTotal (rs : list AadhaarRecord) :
  sumZ (map recordTotal rs)
  = sumZ (map Age_0_5 rs) + sumZ (map Age_5_17 rs) + sumZ (map Age_18_plus rs).
Proof.
  induction rs as [|r rs IH]; [reflexivity|].
  cbn [map sumZ fold_right] in *. fold (sumZ (map recordTotal rs)).
  fold (sumZ (map Age_0_5 rs)). fold (sumZ (map Age_5_17 rs)).
  fold (sumZ (map Age_18_plus rs)). unfold recordTotal at 1. lia.
Qed.

(** X13. For the summaries of a period, the dashboard's total of updates
    is the sum of the three counts of all records of the period, its three
    age totals are the sums of the records' three counts and add up to the
    total of updates, its number of sub-regions is the number of records
    of the period, and its number of high-activity sub-regions does not
    exceed it. *)
Theorem summaryStats_of_period (records : list AadhaarRecord) (month : string) :
  let filtered := filterMonth records month in
  let stateData := aggregateByState records month in
  SummaryStats.totalUpdates (summaryStats stateData)
  = sumZ (map recordTotal filtered)
  /\ map AgeSlice.value (ageData stateData)
     = [sumZ (map Age_0_5 filtered); sumZ (map Age_5_17 filtered);
        sumZ (map Age_18_plus filtered)]
  /\ totalAll stateData = SummaryStats.totalUpdates (summaryStats stateData)
  /\ SummaryStats.totalDistricts (summaryStats stateData) = List.length filtered
  /\ (SummaryStats.highActivityCount (summaryStats stateData)
      <= List.length filtered)%nat.
Proof.
  intros filtered stateData.
  assert (E0 : sumZ (map StateData.age0_5 stateData) = sumZ (map Age_0_5 filtered)).
  { apply (aggregateByState_bracket_sum records month StateData.age0_5
             DistrictData.age0_5 Age_0_5); reflexivity. }
  assert (E1 : sumZ (map StateData.age5_17 stateData) = sumZ (map Age_5_17 filtered)).
  { apply (aggregateByState_bracket_sum records month StateData.age5_17
             DistrictData.age5_17 Age_5_17); reflexivity. }
  assert (E2 : sumZ (map StateData.age18Plus stateData)
               = sumZ (map Age_18_plus filtered)).
  { apply (aggregateByState_bracket_sum records month StateData.age18Plus
             DistrictData.age18Plus Age_18_plus); reflexivity. }
  assert (Et : sumZ (map StateData.totalUpdates stateData)
               = sumZ (map recordTotal filtered)).
  { apply (aggregateByState_bracket_sum records month StateData.totalUpdates
             DistrictData.totalUpdates recordTotal); [|reflexivity].
    intros t d k rs. cbn [regionSummary StateData.totalUpdates].
    now rewrite sumZ_recordTotal. }
  destruct (aggregateByState_groups records month) as (_ & _ & _ & P).
  fold stateData in P. fold filtered in P.
  apply Permutation_length in P. rewrite length_map in P.
  unfold totalAll, ageData, summaryStats.
  cbn [SummaryStats.totalUpdates SummaryStats.totalDistricts
       SummaryStats.highActivityCount map AgeSlice.value fold_left].
  rewrite !fold_left_sum, fold_left_count, E0, E1, E2, Et, P.
  rewrite sumZ_recordTotal.
  repeat split; try lia.
  rewrite <- P. apply filter_length_le.
Qed.

Lemma string_length_app (a b : string) :
  String.length (a ++ b) = (String.length a + String.length b)%nat.
Proof. induction a as [|c a IH]; simpl; [reflexivity|now rewrite IH]. Qed.

Lemma substring_length_le (n : nat) (s : string) :
  (String.length (substring 0 n s) <= n)%nat.
Proof.
  revert s. induction n as [|n IH]; intros [|c s]; simpl; try lia.
  specialize (IH s). lia.
Qed.

Lemma sorted_firstn {A : Type} (R : A -> A -> Prop) (n : nat) (l : list A) :
  StronglySorted R l -> StronglySorted R (firstn n l).
Proof.
  intros H. rewrite <- (firstn_skipn n l) in H.
  now apply sorted_app_split in H.
Qed.

(** X14. The bar chart of a period shows the first ten regions that
    [aggregateByState] returns, or all when there are fewer, in the same
    order, which is that of descending totals; the label of a bar is the
    region name when it has at most 14 characters and otherwise its first
    14 characters followed by three dots, so a label never has more than
    17 characters. *)
Theorem barChartData_spec (records : list AadhaarRecord) (month : string) :
  let stateData := aggregateByState records month in
  let bars := barChartData stateData in
  map Bar.fullName bars = map StateData.state (firstn 10 stateData)
  /\ map Bar.updates bars = map StateData.totalUpdates (firstn 10 stateData)
  /\ List.length bars = Nat.min 10 (List.length stateData)
  /\ StronglySorted (fun a b => Bar.updates a >= Bar.updates b) bars
  /\ Forall
       (fun b =>
          (String.length (Bar.name b) <= 17)%nat
          /\ ((String.length (Bar.fullName b) <= 14)%nat ->
              Bar.name b = Bar.fullName b)
          /\ ((14 < String.length (Bar.fullName b))%nat ->
              Bar.name b = (substring 0 14 (Bar.fullName b) ++ "...")%string))
       bars.
Proof.
  intros stateData bars. subst bars. unfold barChartData, slice0.
  rewrite !map_map, length_map, length_firstn. cbn [Bar.fullName Bar.updates].
  split; [reflexivity|]. split; [reflexivity|]. split; [reflexivity|]. split.
  - assert (Hs : StronglySorted
                   (fun a b => StateData.totalUpdates a >= StateData.totalUpdates b)
                   (firstn 10 stateData)).
    { apply sorted_firstn. subst stateData. rewrite aggregateByState_unfold.
      apply sort_sorted; unfold descendingTotal; intros; lia. }
    induction Hs as [|s l Hl IH Hall]; [constructor|].
    cbn [map]. constructor; [exact IH|].
    apply Forall_map. revert Hall. apply Forall_impl. intros s' H. exact H.
  - apply Forall_map, Forall_forall. intros s _.
    cbn [Bar.name Bar.fullName].
    destruct (Nat.ltb_spec 14 (String.length (StateData.state s))) as [Hl|Hl].
    + split; [|split; [lia|reflexivity]].
      rewrite string_length_app. cbn [String.length].
      pose proof (substring_length_le 14 (StateData.state s)). lia.
    + split; [lia|]. split; [reflexivity|lia].
Qed.

Lemma monthTotal (records : list AadhaarRecord) (month : string) :
  fold_left (fun sum s => sum + StateData.totalUpdates s)
            (aggregateByState records month) 0
  = sumZ (map recordTotal (filterMonth records month)).
Proof.
  rewrite fold_left_sum.
  rewrite (aggregateByState_bracket_sum records month StateData.totalUpdates
             DistrictData.totalUpdates recordTotal); [lia| |reflexivity].
  intros t d k rs. cbn [regionSummary StateData.totalUpdates].
  now rewrite sumZ_recordTotal.
Qed.

(** X15. The trend chart covers the six latest periods of the records, or
    all when there are fewer, earliest first; the figure of each period is
    the sum of the three counts of all records of that period. *)
Theorem trendData_spec (formatMonth : string -> string)
    (records : list AadhaarRecord) :
  let months := trendMonths records in
  map TrendPoint.updates (trendData formatMonth records)
  = map (fun m => sumZ (map recordTotal (filterMonth records m))) months
  /\ List.length months = Nat.min 6 (List.length (getUniqueMonths records))
  /\ StronglySorted (fun a b => String.compare a b = Lt) months
  /\ (forall m, In m months -> In m (map Month records))
  /\ (forall m m', In m months -> In m' (map Month records) -> ~ In m' months ->
        String.compare m' m = Lt).
Proof.
  intros months. subst months. unfold trendData, trendMonths, slice0.
  destruct (getUniqueMonths_facts records) as (Hs & _ & Hin).
  set (U := getUniqueMonths records) in *.
  split; [|split; [|split; [|split]]].
  - rewrite map_map. cbn [TrendPoint.updates]. apply map_ext.
    intros m. apply monthTotal.
  - now rewrite length_rev, length_firstn.
  - apply (sorted_rev (fun a b => String.compare b a = Lt)).
    now apply sorted_firstn.
  - intros m Hm. apply in_rev, firstn_incl in Hm. now apply Hin.
  - intros m m' Hm Hm' Hn. apply in_rev in Hm. rewrite <- in_rev in Hn.
    apply Hin in Hm'. rewrite <- (firstn_skipn 6 U) in Hs, Hm'.
    apply sorted_app_split in Hs. destruct Hs as [_ Hs].
    apply in_app_or in Hm'. destruct Hm' as [Hm'|Hm']; [contradiction|].
    now apply Hs.
Qed.

(** ** The summaries by region name *)

Lemma stateDataMap_snoc (l : list StateData.t) (s : StateData.t) :
  stateDataMap (l ++ [s]) = map_set (StateData.state s) s (stateDataMap l).
Proof. unfold stateDataMap, forEach. now rewrite fold_left_app. Qed.

Lemma stateDataMap_get (l : list StateData.t) (k : string) :
  map_get k (stateDataMap l)
  = find (fun s => String.eqb (StateData.state s) k) (rev l).
Proof.
  induction l as [|s l IH] using rev_ind; [reflexivity|].
  rewrite stateDataMap_snoc, map_get_set, rev_app_distr. cbn [rev app find].
  now rewrite IH.
Qed.

(** X16. Looking a name up in [stateDataMap] gives the last summary of
    the list that bears this name, and nothing when no summary bears
    it. *)
Theorem stateDataMap_lookup (stateData : list StateData.t) (name : string) :
  map_get name (stateDataMap stateData)
  = find (fun s => String.eqb (StateData.state s) name) (rev stateData)
  /\ (map_get name (stateDataMap stateData) = None
      <-> ~ In name (map StateData.state stateData)).
Proof.
  split; [apply stateDataMap_get|].
  rewrite stateDataMap_get. split.
  - intros Hf Hin. apply in_map_iff in Hin. destruct Hin as (s & E & Hs).
    apply in_rev in Hs. apply (find_none _ _ Hf) in Hs.
    rewrite E, String.eqb_refl in Hs. discriminate.
  - intros Hn. destruct (find _ (rev stateData)) as [s|] eqn:E; [|reflexivity].
    apply find_some in E. destruct E as [Hs E]. apply String.eqb_eq in E.
    exfalso. apply Hn. rewrite <- E. apply in_map. now apply in_rev.
Qed.

Lemma find_unique (l : list StateData.t) (s : StateData.t) :
  NoDup (map StateData.state l) -> In s l ->
  find (fun x => String.eqb (StateData.state x) (StateData.state s)) l = Some s.
Proof.
  induction l as [|x l IH]; intros Hn Hin; [contradiction|].
  inversion Hn as [|? ? Hx Hl]; subst. cbn [find].
  destruct Hin as [->|Hin]; [now rewrite String.eqb_refl|].
  destruct (String.eqb_spec (StateData.state x) (StateData.state s)) as [E|];
    [|now apply IH].
  exfalso. apply Hx. rewrite E. now apply in_map.
Qed.

(** *** The name under which a feature is looked up *)

Lemma STATE_NAME_MAP_entries (geoName name : string) :
  In (geoName, name) STATE_NAME_MAP ->
  map_get geoName STATE_NAME_MAP = Some name
  /\ String.eqb name EmptyString = false
  /\ existsb (String.eqb name) (aliasNames ++ inheritedNames) = false.
Proof.
  assert (H : forallb
                (fun kv =>
                   match map_get (fst kv) STATE_NAME_MAP with
                   | Some v => String.eqb v (snd kv)
                   | None => false
                   end
                   && negb (String.eqb (snd kv) EmptyString)
                   && negb (existsb (String.eqb (snd kv))
                                    (aliasNames ++ inheritedNames)))
                STATE_NAME_MAP = true) by (vm_compute; reflexivity).
  intros Hin. rewrite forallb_forall in H. specialize (H _ Hin).
  cbn [fst snd] in H.
  apply andb_true_iff in H. destruct H as [H H3].
  apply andb_true_iff in H. destruct H as [H1 H2].
  apply negb_true_iff in H2, H3.
  destruct (map_get geoName STATE_NAME_MAP) as [v|]; [|discriminate].
  apply String.eqb_eq in H1. now subst.
Qed.

Lemma map_get_none {V : Type} (k : string) (m : JsMap V) :
  map_get k m = None <-> ~ In k (map fst m).
Proof.
  induction m as [|[k' v] m IH]; cbn [map_get map fst In]; [tauto|].
  destruct (String.eqb_spec k' k) as [->|Hn].
  - split; [discriminate|]. intros H. exfalso. apply H. now left.
  - rewrite IH. tauto.
Qed.

Lemma normalizedName_text (geoName name : string) :
  normalizedName geoName = TextKey name <->
  In (geoName, name) STATE_NAME_MAP
  \/ (name = geoName /\ ~ In geoName (map fst STATE_NAME_MAP)
      /\ ~ In geoName inheritedNames).
Proof.
  unfold normalizedName. split.
  - destruct (map_get geoName STATE_NAME_MAP) as [v|] eqn:E.
    + pose proof (map_get_In _ _ _ E) as Hin.
      destruct (STATE_NAME_MAP_entries _ _ Hin) as (_ & Hv & _).
      rewrite Hv. intros [= <-]. now left.
    + destruct (existsb (String.eqb geoName) inheritedNames) eqn:I;
        [discriminate|].
      intros [= <-]. right. split; [reflexivity|].
      split; [now apply map_get_none|].
      rewrite <- existsb_eqb_In. now rewrite I.
  - intros [Hin|(-> & Hk & Hi)].
    + destruct (STATE_NAME_MAP_entries _ _ Hin) as (-> & -> & _). reflexivity.
    + apply map_get_none in Hk. rewrite Hk.
      destruct (existsb (String.eqb geoName) inheritedNames) eqn:I;
        [|reflexivity].
      apply existsb_eqb_In in I. contradiction.
Qed.

(** No feature is looked up under an alias or under an inherited name. *)
Lemma normalizedName_never (geoName name : string) :
  In name (aliasNames ++ inheritedNames) ->
  normalizedName geoName <> TextKey name.
Proof.
  intros Hn E. apply normalizedName_text in E.
  destruct E as [Hin|(-> & Hk & Hi)].
  - destruct (STATE_NAME_MAP_entries _ _ Hin) as (_ & _ & Hv).
    apply existsb_eqb_In in Hn. congruence.
  - apply in_app_or in Hn. destruct Hn as [Ha|Hh]; [|contradiction].
    apply Hk. revert Ha. unfold aliasNames. cbn [In].
    intros [<-|[<-|[<-|[]]]]; apply existsb_eqb_In; reflexivity.
Qed.

Lemma featureData_found (stateData : list StateData.t) (geoName : string)
    (s : StateData.t) :
  featureData stateData geoName = Some s ->
  In s stateData /\ normalizedName geoName = TextKey (StateData.state s).
Proof.
  unfold featureData.
  destruct (normalizedName geoName) as [name|]; [|discriminate].
  rewrite stateDataMap_get. intros F. apply find_some in F.
  destruct F as [Hs F]. apply String.eqb_eq in F. subst name.
  split; [now apply in_rev|reflexivity].
Qed.

(** X17. For the summaries of a period, the feature named [geoName] of
    the map is looked up under the name [STATE_NAME_MAP] gives it, or
    under its own name when it is neither a key of [STATE_NAME_MAP] nor
    inherited from [Object.prototype].  When a returned region bears that
    name, the feature shows this region and is filled with the colour of
    its intensity; when no returned region does, the feature shows none
    and is filled with the colour of low intensity.  A region named by an
    alias ([NCT of Delhi], [Orissa], [Uttaranchal]) or by an inherited
    name is shown by no feature. *)
Theorem featureFill_of_period (records : list AadhaarRecord)
    (month geoName : string) :
  let stateData := aggregateByState records month in
  (forall name,
     normalizedName geoName = TextKey name <->
     In (geoName, name) STATE_NAME_MAP
     \/ (name = geoName /\ ~ In geoName (map fst STATE_NAME_MAP)
         /\ ~ In geoName inheritedNames))
  /\ (forall s,
        In s stateData ->
        normalizedName geoName = TextKey (StateData.state s) ->
        featureData stateData geoName = Some s
        /\ featureFill stateData geoName
           = getStateColor (Some (StateData.intensity s)))
  /\ ((forall s, In s stateData ->
                 normalizedName geoName <> TextKey (StateData.state s)) ->
      featureData stateData geoName = None
      /\ featureFill stateData geoName = getStateColor (Some low))
  /\ (forall s,
        In (StateData.state s) (aliasNames ++ inheritedNames) ->
        featureData stateData geoName <> Some s).
Proof.
  intros stateData.
  destruct (aggregateByState_groups records month) as (_ & Hn & _).
  fold stateData in Hn.
  split; [intros name; apply normalizedName_text|].
  split; [|split].
  - intros s Hs Hk.
    assert (E : featureData stateData geoName = Some s).
    { unfold featureData. rewrite Hk, stateDataMap_get. apply find_unique.
      - rewrite map_rev. now apply NoDup_rev.
      - now apply in_rev in Hs. }
    split; [exact E|]. unfold featureFill. now rewrite E.
  - intros Hnone.
    assert (E : featureData stateData geoName = None).
    { destruct (featureData stateData geoName) as [s|] eqn:F; [|reflexivity].
      apply featureData_found in F. destruct F as [Hs Hk].
      now destruct (Hnone s Hs). }
    split; [exact E|]. unfold featureFill. now rewrite E.
  - intros s Hs F. apply featureData_found in F. destruct F as [_ Hk].
    now apply (normalizedName_never geoName (StateData.state s)).
Qed.

(** *** Names as the parser spells them *)

Lemma titleCaseBy_wordsCapitalized (first : bool) (s : string) :
  wordsCapitalized first (titleCaseBy isSpace first s) = true.
Proof.
  revert first. induction s as [|c s IH]; intros first; [reflexivity|].
  cbn [titleCaseBy wordsCapitalized].
  assert (Hc : isSpace (upperChar (lowerChar c)) = isSpace c
               /\ isSpace (lowerChar c) = isSpace c
               /\ isLower (upperChar (lowerChar c)) = false)
    by (destruct c as [[] [] [] [] [] [] [] []]; repeat split).
  destruct Hc as (Hsul & Hsl & Hlow).
  destruct first.
  - now rewrite Hsul, IH, Hlow.
  - now rewrite Hsl, IH.
Qed.

(** X25. The parser spells every name with a capital at the beginning of
    each word.  So when the region names of the records are names as
    [normalizeCase] returns them, the features [Andaman and Nicobar],
    [Dadra and Nagar Haveli], [Daman and Diu] and [Jammu and Kashmir],
    which are looked up under these very names, show no region of any
    period and are filled with the colour of low intensity. *)
Theorem featureFill_small_word (records : list AadhaarRecord)
    (month geoName : string) :
  (forall r, In r records ->
             exists raw, asciiText raw /\ State r = normalizeCase raw) ->
  In geoName namesWithSmallWord ->
  let stateData := aggregateByState records month in
  normalizedName geoName = TextKey geoName
  /\ featureData stateData geoName = None
  /\ featureFill stateData geoName = getStateColor (Some low).
Proof.
  intros Hrec Hg stateData.
  assert (Hk : normalizedName geoName = TextKey geoName
               /\ wordsCapitalized true geoName = false).
  { revert Hg. unfold namesWithSmallWord. cbn [In].
    intros [<-|[<-|[<-|[<-|[]]]]]; split; reflexivity. }
  destruct Hk as [Hk Hw]. split; [exact Hk|].
  assert (E : featureData stateData geoName = None).
  { destruct (featureData stateData geoName) as [s|] eqn:F; [|reflexivity].
    exfalso. apply featureData_found in F. destruct F as [Hs Hs'].
    rewrite Hk in Hs'. injection Hs' as Hs'.
    destruct (aggregateByState_groups records month) as (_ & _ & Hin & _).
    fold stateData in Hin.
    assert (Hst : In (StateData.state s) (map StateData.state stateData))
      by now apply in_map.
    apply Hin in Hst. apply in_map_iff in Hst. destruct Hst as (r & Er & Hr).
    apply filter_In in Hr. destruct Hr as [Hr _].
    destruct (Hrec r Hr) as (raw & _ & Eraw).
    rewrite Hs', <- Er, Eraw, normalizeCase_titleCaseSpaces in Hw.
    unfold titleCaseSpaces in Hw.
    now rewrite titleCaseBy_wordsCapitalized in Hw. }
  split; [exact E|]. unfold featureFill. now rewrite E.
Qed.

Lemma featureFill_small_word_witness :
  let records := [row "2024-01" "Jammu And Kashmir" "Srinagar" 10 20 70] in
  (forall r, In r records ->
             exists raw, asciiText raw /\ State r = normalizeCase raw)
  /\ In "Jammu and Kashmir" namesWithSmallWord
  /\ aggregateByState records "2024-01" <> []
  /\ featureFill (aggregateByState records "2024-01") "Jammu and Kashmir"
     = getStateColor (Some low).
Proof.
  intros records.
  assert (H : forall r, In r records ->
                        exists raw, asciiText raw /\ State r = normalizeCase raw).
  { intros r [<-|[]]. exists "JAMMU AND KASHMIR". split; reflexivity. }
  assert (G : In "Jammu and Kashmir" namesWithSmallWord)
    by (right; right; right; left; reflexivity).
  split; [exact H|]. split; [exact G|]. split; [discriminate|].
  apply (featureFill_small_word records "2024-01" "Jammu and Kashmir" H G).
Defined.

(** ** Lines and their fields *)

Lemma trimEnd_forall (p : ascii -> bool) (s : string) :
  stringForall p s = true -> stringForall p (trimEnd s) = true.
Proof.
  induction s as [|c s IH]; [reflexivity|].
  cbn [stringForall trimEnd]. intros E. apply andb_true_iff in E.
  destruct E as [E1 E2]. specialize (IH E2).
  destruct (trimEnd s) as [|c' t].
  - destruct (isWhitespace c); [reflexivity|]. cbn [stringForall]. now rewrite E1.
  - cbn [stringForall] in *. now rewrite E1, IH.
Qed.

Lemma trim_forall (p : ascii -> bool) (s : string) :
  stringForall p s = true -> stringForall p (trim s) = true.
Proof. intros H. now apply trimEnd_forall, trimStart_forall. Qed.

Lemma trimEnd_idem (s : string) : trimEnd (trimEnd s) = trimEnd s.
Proof.
  induction s as [|c s IH]; [reflexivity|]. cbn [trimEnd].
  destruct (trimEnd s) as [|c' t] eqn:E.
  - destruct (isWhitespace c) eqn:W; [reflexivity|]. cbn [trimEnd]. now rewrite W.
  - cbn [trimEnd] in *. now rewrite IH.
Qed.

Lemma trimStart_head (s : string) :
  trimStart s = EmptyString
  \/ exists c r, trimStart s = String c r /\ isWhitespace c = false.
Proof.
  induction s as [|c s IH]; [now left|]. cbn [trimStart].
  destruct (isWhitespace c) eqn:W; [exact IH|].
  right. now exists c, s.
Qed.

Lemma trimStart_trim (s : string) : trimStart (trim s) = trim s.
Proof.
  unfold trim. destruct (trimStart_head s) as [->|(c & r & -> & W)]; [reflexivity|].
  cbn [trimEnd]. destruct (trimEnd r); [rewrite W|]; cbn [trimStart]; now rewrite W.
Qed.

Lemma trim_idem (s : string) : trim (trim s) = trim s.
Proof.
  unfold trim at 1. rewrite trimStart_trim. unfold trim. apply trimEnd_idem.
Qed.

Lemma parseCSVLine_loop_inv (P : string -> Prop) (line : string)
    (result : list string) (current : string) (inQuotes : bool) :
  (forall s, stringForall notQuote s = true -> P (trim s)) ->
  Forall P result -> stringForall notQuote current = true ->
  Forall P (parseCSVLine_loop line result current inQuotes).
Proof.
  intros HP. revert result current inQuotes.
  induction line as [|c line IH]; intros result current inQuotes Hr Hc.
  - cbn [parseCSVLine_loop]. unfold push. apply Forall_app. split; [assumption|].
    constructor; [now apply HP|constructor].
  - cbn [parseCSVLine_loop].
    destruct (Ascii.eqb c quoteChar) eqn:Q; [now apply IH|].
    destruct (Ascii.eqb c commaChar && negb inQuotes).
    + apply IH; [|reflexivity]. unfold push. apply Forall_app.
      split; [assumption|]. constructor; [now apply HP|constructor].
    + apply IH; [assumption|]. rewrite stringForall_app, Hc.
      cbn [stringForall]. unfold notQuote. now rewrite Q.
Qed.

Lemma parseCSVLine_loop_length (line : string) (result : list string)
    (current : string) :
  stringForall notQuote line = true ->
  List.length (parseCSVLine_loop line result current false)
  = (List.length result + S (countChar commaChar line))%nat.
Proof.
  revert result current. induction line as [|c line IH]; intros result current.
  - intros _. cbn [parseCSVLine_loop countChar]. unfold push.
    rewrite length_app. simpl. lia.
  - cbn [stringForall parseCSVLine_loop countChar]. intros E.
    apply andb_true_iff in E. destruct E as [E1 E2].
    unfold notQuote in E1. apply negb_true_iff in E1. rewrite E1.
    destruct (Ascii.eqb c commaChar); cbn [andb negb].
    + rewrite (IH _ _ E2). unfold push. rewrite length_app. simpl. lia.
    + apply (IH _ _ E2).
Qed.

Lemma parseCSVLine_loop_nonempty (line : string) (result : list string)
    (current : string) (inQuotes : bool) :
  parseCSVLine_loop line result current inQuotes <> [].
Proof.
  revert result current inQuotes.
  induction line as [|c line IH]; intros result current q.
  - cbn [parseCSVLine_loop]. unfold push. intros E.
    apply app_eq_nil in E. destruct E as [_ E]. discriminate.
  - cbn [parseCSVLine_loop].
    destruct (Ascii.eqb c quoteChar); [apply IH|].
    destruct (Ascii.eqb c commaChar && negb q); apply IH.
Qed.

(** X18. [parseCSVLine] never returns an empty list; none of the fields
    it returns holds a double quote and none begins or ends with
    whitespace; and a line without double quotes is cut into one field
    more than it has commas. *)
Theorem parseCSVLine_fields_facts (line : string) :
  parseCSVLine line <> []
  /\ Forall (fun f => stringForall notQuote f = true /\ trim f = f)
            (parseCSVLine line)
  /\ (stringForall notQuote line = true ->
      List.length (parseCSVLine line) = S (countChar commaChar line)).
Proof.
  split; [|split].
  - apply parseCSVLine_loop_nonempty.
  - apply parseCSVLine_loop_inv; [|constructor|reflexivity].
    intros s Hs. split; [now apply trim_forall|apply trim_idem].
  - intros H. unfold parseCSVLine. now rewrite parseCSVLine_loop_length.
Qed.

Lemma parseCSVLine_loop_plain (f rest : string) (result : list string)
    (current : string) :
  stringForall (fun c => notComma c && notQuote c) f = true ->
  parseCSVLine_loop (f ++ rest) result current false
  = parseCSVLine_loop rest result (current ++ f)%string false.
Proof.
  revert current. induction f as [|c f IH]; intros current.
  - intros _. now rewrite string_app_nil_r.
  - cbn [stringForall append parseCSVLine_loop]. intros E.
    apply andb_true_iff in E. destruct E as [E1 E2].
    apply andb_true_iff in E1. destruct E1 as [Ec Eq].
    unfold notComma in Ec. unfold notQuote in Eq.
    apply negb_true_iff in Ec, Eq. rewrite Eq, Ec. cbn [andb].
    rewrite (IH _ E2). now rewrite string_app_assoc.
Qed.

Lemma parseCSVLine_loop_quoted (f rest : string) (result : list string)
    (current : string) :
  stringForall notQuote f = true ->
  parseCSVLine_loop (f ++ rest) result current true
  = parseCSVLine_loop rest result (current ++ f)%string true.
Proof.
  revert current. induction f as [|c f IH]; intros current.
  - intros _. now rewrite string_app_nil_r.
  - cbn [stringForall append parseCSVLine_loop]. intros E.
    apply andb_true_iff in E. destruct E as [Eq E2].
    unfold notQuote in Eq. apply negb_true_iff in Eq. rewrite Eq.
    rewrite andb_false_r. rewrite (IH _ E2). now rewrite string_app_assoc.
Qed.

Lemma parseCSVLine_loop_written (f : CsvField) (rest : string)
    (result : list string) (current : string) :
  writableField f = true ->
  parseCSVLine_loop (writeField f ++ rest) result current false
  = parseCSVLine_loop rest result (current ++ fieldText f)%string false.
Proof.
  destruct f as [s|s]; cbn [writableField writeField fieldText]; intros H.
  - now apply parseCSVLine_loop_plain.
  - cbn [append]. rewrite string_app_assoc. cbn [append parseCSVLine_loop].
    rewrite Ascii.eqb_refl. cbn [negb].
    rewrite (parseCSVLine_loop_quoted _ _ _ _ H).
    cbn [parseCSVLine_loop]. now rewrite Ascii.eqb_refl.
Qed.

Lemma parseCSVLine_loop_line (fields : list CsvField) (result : list string) :
  fields <> [] -> Forall (fun f => writableField f = true) fields ->
  parseCSVLine_loop (join "," (map writeField fields)) result EmptyString false
  = result ++ map (fun f => trim (fieldText f)) fields.
Proof.
  intros Hne Hw. revert result.
  induction Hw as [|f fields Hf Hw IH]; [congruence|]. intros result.
  destruct fields as [|g fields].
  - cbn [map join]. rewrite <- (string_app_nil_r (writeField f)).
    rewrite (parseCSVLine_loop_written _ _ _ _ Hf). reflexivity.
  - change (join "," (map writeField (f :: g :: fields)))
      with (writeField f ++ String commaChar (join "," (map writeField (g :: fields))))%string.
    rewrite (parseCSVLine_loop_written _ _ _ _ Hf).
    rewrite parseCSVLine_loop_comma. rewrite IH by discriminate.
    unfold push. rewrite <- app_assoc. reflexivity.
Qed.

(** X19. A line written field by field, a field being put between double
    quotes or, when it holds neither comma nor quote, as it is, is read
    back by [parseCSVLine] as the same fields, each with its leading and
    trailing whitespace removed; commas between quotes stay in their
    field. *)
Theorem parseCSVLine_written (fields : list CsvField) :
  fields <> [] ->
  Forall (fun f => writableField f = true) fields ->
  parseCSVLine (join "," (map writeField fields))
  = map (fun f => trim (fieldText f)) fields.
Proof.
  intros Hne Hw. unfold parseCSVLine.
  now rewrite parseCSVLine_loop_line.
Qed.

Lemma parseCSVLine_written_witness :
  let fields := [PlainField " 2024-01 "; QuotedField "Agra, East "; PlainField "12"] in
  fields <> []
  /\ Forall (fun f => writableField f = true) fields
  /\ parseCSVLine (join "," (map writeField fields))
     = ["2024-01"; "Agra, East"; "12"].
Proof.
  intros fields.
  assert (Hw : Forall (fun f => writableField f = true) fields)
    by (repeat constructor).
  split; [discriminate|]. split; [exact Hw|].
  apply (parseCSVLine_written fields); [discriminate|exact Hw].
Defined.

(** ** Texts and their records *)

Lemma parseCSV_mapR (csvText : string) :
  parseCSV csvText = mapR recordOfLineOrThrow (dataLines csvText).
Proof. reflexivity. Qed.

Lemma recordOfLineOrThrow_cases (line : string) :
  ((3 <= List.length (parseCSVLine line))%nat ->
   recordOfLineOrThrow line = Ok (recordOfLine line))
  /\ ((List.length (parseCSVLine line) < 3)%nat ->
      recordOfLineOrThrow line = Throw "TypeError").
Proof.
  unfold recordOfLineOrThrow, recordOfLine. cbv zeta.
  destruct (parseCSVLine line) as [|v0 [|v1 [|v2 vs]]]; cbn [List.length];
    split; intros H; try lia; reflexivity.
Qed.

(** X20. [parseCSV] turns every line after the first into one record, in
    order, when each of these lines has at least three fields; it throws
    as soon as one of them has fewer, an empty line among them included;
    and a text that is empty or has a single line gives no record. *)
Theorem parseCSV_outcome (csvText : string) :
  let lines := dataLines csvText in
  (Forall (fun l => (3 <= List.length (parseCSVLine l))%nat) lines ->
   parseCSV csvText = Ok (map recordOfLine lines))
  /\ (Exists (fun l => (List.length (parseCSVLine l) < 3)%nat) lines ->
      parseCSV csvText = Throw "TypeError")
  /\ (In EmptyString lines -> parseCSV csvText = Throw "TypeError")
  /\ (stringForall notNewline (trim csvText) = true -> parseCSV csvText = Ok []).
Proof.
  intros lines. rewrite parseCSV_mapR. fold lines.
  assert (Hex : Exists (fun l => (List.length (parseCSVLine l) < 3)%nat) lines ->
                mapR recordOfLineOrThrow lines = Throw "TypeError").
  { induction 1 as [l ls Hl|l ls Hls IH]; cbn [mapR].
    - now rewrite (proj2 (recordOfLineOrThrow_cases l) Hl).
    - destruct (Nat.le_gt_cases 3 (List.length (parseCSVLine l))) as [Hl|Hl].
      + rewrite (proj1 (recordOfLineOrThrow_cases l) Hl). cbn [bindR].
        now rewrite IH.
      + now rewrite (proj2 (recordOfLineOrThrow_cases l) Hl). }
  split; [|split; [exact Hex|split]].
  - clear Hex. induction 1 as [|l ls Hl Hls IH]; [reflexivity|]. cbn [mapR map].
    rewrite (proj1 (recordOfLineOrThrow_cases l) Hl). cbn [bindR].
    now rewrite IH.
  - intros Hin. apply Hex, Exists_exists. exists EmptyString.
    split; [assumption|]. cbn. lia.
  - intros H. subst lines. unfold dataLines.
    rewrite split_no_sep by exact H. reflexivity.
Qed.

(** ** Names in any casing *)

Lemma char_case_facts (c : ascii) :
  lowerChar (upperChar c) = lowerChar c
  /\ lowerChar (lowerChar c) = lowerChar c
  /\ upperChar (lowerChar (upperChar (lowerChar c))) = upperChar (lowerChar c)
  /\ isSpace (lowerChar c) = isSpace c
  /\ isSpace (upperChar c) = isSpace c
  /\ isSpace (upperChar (lowerChar c)) = isSpace c.
Proof. destruct c as [[] [] [] [] [] [] [] []]; repeat split. Qed.

Lemma titleCaseBy_idem (first : bool) (s : string) :
  titleCaseBy isSpace first (titleCaseBy isSpace first s)
  = titleCaseBy isSpace first s.
Proof.
  revert first. induction s as [|c s IH]; intros first; [reflexivity|].
  cbn [titleCaseBy].
  destruct (char_case_facts c) as (_ & Hll & Hul & Hsl & _ & Hsul).
  destruct first.
  - now rewrite Hul, Hsul, IH.
  - now rewrite Hll, Hsl, IH.
Qed.

Lemma titleCaseBy_upper (first : bool) (s : string) :
  titleCaseBy isSpace first (toUpperCase s) = titleCaseBy isSpace first s.
Proof.
  revert first. induction s as [|c s IH]; intros first; [reflexivity|].
  cbn [toUpperCase mapChars titleCaseBy]. fold (toUpperCase s).
  destruct (char_case_facts c) as (Hlu & _ & _ & _ & Hsu & _).
  now rewrite Hlu, Hsu, IH.
Qed.

Lemma titleCaseBy_lower (first : bool) (s : string) :
  titleCaseBy isSpace first (toLowerCase s) = titleCaseBy isSpace first s.
Proof.
  revert first. induction s as [|c s IH]; intros first; [reflexivity|].
  cbn [toLowerCase mapChars titleCaseBy]. fold (toLowerCase s).
  destruct (char_case_facts c) as (_ & Hll & _ & Hsl & _ & _).
  now rewrite Hll, Hsl, IH.
Qed.

Lemma titleCaseBy_length (delim : ascii -> bool) (first : bool) (s : string) :
  String.length (titleCaseBy delim first s) = String.length s.
Proof.
  revert first. induction s as [|c s IH]; intros first; [reflexivity|].
  cbn [titleCaseBy String.length]. now rewrite IH.
Qed.

Lemma titleCaseBy_ascii (delim : ascii -> bool) (first : bool) (s : string) :
  asciiText s -> asciiText (titleCaseBy delim first s).
Proof.
  unfold asciiText. revert first.
  induction s as [|c s IH]; intros first; [reflexivity|].
  cbn [titleCaseBy stringForall]. intros H.
  apply andb_true_iff in H. destruct H as [Hc Hs].
  rewrite (IH _ Hs), andb_true_r. clear IH Hs.
  destruct c as [[] [] [] [] [] [] [] []]; destruct first;
    try discriminate Hc; reflexivity.
Qed.

(** X21. On names of ASCII characters, [normalizeCase] gives one spelling
    to all casings of a name: two names that differ only in the case of
    their letters are normalized to the same text; the normalized name is
    again a text of ASCII characters, of the same length, and normalizing
    it once more changes nothing. *)
Theorem normalizeCase_canonical (s s' : string) :
  asciiText s -> asciiText s' ->
  (toLowerCase s = toLowerCase s' -> normalizeCase s = normalizeCase s')
  /\ normalizeCase (toUpperCase s) = normalizeCase s
  /\ asciiText (normalizeCase s)
  /\ normalizeCase (normalizeCase s) = normalizeCase s
  /\ String.length (normalizeCase s) = String.length s.
Proof.
  intros Hs _.
  rewrite !normalizeCase_titleCaseSpaces. unfold titleCaseSpaces.
  split; [|split; [|split; [|split]]].
  - intros E. rewrite <- (titleCaseBy_lower true s), E.
    apply titleCaseBy_lower.
  - apply titleCaseBy_upper.
  - now apply titleCaseBy_ascii.
  - apply titleCaseBy_idem.
  - apply titleCaseBy_length.
Qed.

Lemma normalizeCase_canonical_witness :
  asciiText "UTTAR pradesh" /\ asciiText "uttar PRADESH"
  /\ normalizeCase "UTTAR pradesh" = normalizeCase "uttar PRADESH"
  /\ normalizeCase "UTTAR pradesh" = "Uttar Pradesh".
Proof.
  assert (H1 : asciiText "UTTAR pradesh") by reflexivity.
  assert (H2 : asciiText "uttar PRADESH") by reflexivity.
  split; [exact H1|]. split; [exact H2|].
  destruct (normalizeCase_canonical "UTTAR pradesh" "uttar PRADESH" H1 H2)
    as [H _].
  split; [apply H; reflexivity|reflexivity].
Defined.

(** ** Small numbers as text *)

Lemma trimStart_no_whitespace (s : string) :
  stringForall (fun c => negb (isWhitespace c)) s = true -> trimStart s = s.
Proof.
  destruct s as [|c s]; [reflexivity|]. cbn [stringForall trimStart].
  intros E. apply andb_true_iff in E. destruct E as [E _].
  apply negb_true_iff in E. now rewrite E.
Qed.

Lemma digits_of_bound (n : Z) :
  0 <= n -> 0 <= n < 2 ^ Z.of_nat (S (Z.to_nat (Z.log2 n))).
Proof.
  intros Hn. split; [assumption|].
  rewrite Nat2Z.inj_succ, Z2Nat.id by apply Z.log2_nonneg.
  destruct (Z.eq_dec n 0) as [->|]; [reflexivity|].
  apply Z.log2_spec. lia.
Qed.

(** The text of an integer up to [MAX_SAFE_INTEGER] in absolute value is
    a minus sign, when the integer is negative, and digits; [parseInt]
    reads the integer back from it. *)
Lemma numberToString_parseInt (n : Z) :
  Z.abs n <= MAX_SAFE_INTEGER ->
  (exists ds, stringForall isDigit ds = true /\ ds <> EmptyString
              /\ numberToString n = if n <? 0 then String "-" ds else ds)
  /\ parseInt (Some (numberToString n)) = Some n.
Proof.
  intros Hmax. rewrite (numberToString_safe n Hmax). unfold decimalDigits.
  destruct (Z.ltb_spec n 0) as [Hneg|Hpos].
  - destruct (digitsBefore_spec _ _ (digits_of_bound (- n) ltac:(lia)))
      as (Hd & Hne & Hr).
    set (ds := digitsBefore _ (- n) EmptyString) in *.
    split; [now exists ds|].
    unfold parseInt. cbn [trimStart].
    change (isWhitespace "-") with false. cbv iota.
    rewrite (parseDigits_readDigits _ _ Hd Hne), Hr. cbn [option_map].
    f_equal. lia.
  - destruct (digitsBefore_spec _ _ (digits_of_bound n Hpos)) as (Hd & Hne & _).
    assert (Hs : safeCount n) by (split; [assumption|now rewrite Z.abs_eq in Hmax]).
    destruct (numberToString_spec n Hs) as (_ & Hw & _ & Hp).
    rewrite (numberToString_safe n Hmax) in Hw, Hp. unfold decimalDigits in Hw, Hp.
    destruct (Z.ltb_spec n 0) as [|_]; [lia|].
    set (ds := digitsBefore _ n EmptyString) in *.
    split; [now exists ds|].
    unfold trim in Hp.
    now rewrite (trimStart_no_whitespace _ Hw), (trimEnd_no_whitespace _ Hw) in Hp.
Qed.

(** X22. An integer below one thousand and not below
    [-Number.MAX_SAFE_INTEGER], zero and the negative integers included,
    is shown by [formatNumber] without rounding and without suffix: the
    text is a minus sign, when the integer is negative, and decimal
    digits, and [parseInt] reads the same integer back from it. *)
Theorem formatNumber_small (toFixed : number -> nat -> string) (n : Z) :
  - MAX_SAFE_INTEGER <= n < 1000 ->
  (exists ds, stringForall isDigit ds = true /\ ds <> EmptyString
              /\ formatNumber toFixed n = if n <? 0 then String "-" ds else ds)
  /\ parseInt (Some (formatNumber toFixed n)) = Some n.
Proof.
  intros Hn.
  assert (E : formatNumber toFixed n = numberToString n).
  { unfold formatNumber.
    destruct (Z.leb_spec 1000000 n); [lia|].
    destruct (Z.leb_spec 1000 n); [lia|reflexivity]. }
  rewrite E. apply numberToString_parseInt.
  unfold MAX_SAFE_INTEGER in *. lia.
Qed.

Lemma formatNumber_small_witness :
  - MAX_SAFE_INTEGER <= -42 < 1000
  /\ forall toFixed : number -> nat -> string,
       formatNumber toFixed (-42) = "-42"
       /\ parseInt (Some (formatNumber toFixed (-42))) = Some (-42).
Proof.
  assert (H : - MAX_SAFE_INTEGER <= -42 < 1000)
    by (unfold MAX_SAFE_INTEGER; lia).
  split; [exact H|]. intros toFixed.
  split; [reflexivity|].
  apply (formatNumber_small toFixed (-42) H).
Defined.

(** ** What a recommendation always holds *)

Lemma pushIf_nonempty (c : bool) (l items : list string) :
  l <> [] -> pushIf c l items <> [].
Proof.
  intros Hl. unfold pushIf. destruct c; [|assumption].
  revert l Hl. induction items as [|x items IH]; intros l Hl; [assumption|].
  cbn [fold_left]. apply IH. unfold push. intros E.
  apply app_eq_nil in E. destruct E as [_ E]. discriminate.
Qed.

Lemma recommendStep_facts (toFixed : number -> nat -> string)
    (parseFloat : string -> number) (formatMonth : string -> string)
    (avg med : number) (s : StateData.t) (month : string)
    (d : DistrictData.t) (r : Recommendation.t) :
  In r (recommendStep toFixed parseFloat formatMonth avg med s month [] d) ->
  Recommendation.reasons r <> []
  /\ Recommendation.actions r <> []
  /\ Recommendation.severity r <> low
  /\ Recommendation.month r = formatMonth month
  /\ Recommendation.location r
     = (DistrictData.district d ++ ", " ++ StateData.state s)%string.
Proof.
  unfold recommendStep. cbv zeta.
  match goal with
  | |- context [if (0 <? List.length ?rs)%nat then push [] _ else []] =>
      set (reasons := rs); destruct (Nat.ltb_spec 0 (List.length reasons)) as [Hr|Hr]
  end; unfold push; [|intros []].
  intros [<-|[]].
  cbn [app Recommendation.reasons Recommendation.actions Recommendation.severity
       Recommendation.month Recommendation.location].
  split; [destruct reasons; [simpl in Hr; lia|discriminate]|].
  split.
  - match goal with
    | |- (if (0 <? List.length ?acts)%nat then _ else _) <> [] =>
        destruct (Nat.ltb_spec 0 (List.length acts)) as [Ha|Ha];
          [destruct acts; [simpl in Ha; lia|discriminate]|discriminate]
    end.
  - split; [|split; reflexivity].
    destruct (ngt (ofZ (DistrictData.totalUpdates d)) (nmul avg (ofZ 2)));
      discriminate.
Qed.

(** X23. Every recommendation that [generateRecommendations] returns
    gives at least one reason and at least one action, has a severity
    other than [low], and bears the formatted period; and nothing is
    recommended when no sub-region has intensity [high]. *)
Theorem generateRecommendations_invariants (toFixed : number -> nat -> string)
    (parseFloat : string -> number) (formatMonth : string -> string)
    (states : list StateData.t) (month : string) :
  let returned :=
    generateRecommendations toFixed parseFloat formatMonth states month in
  Forall
    (fun r =>
       Recommendation.reasons r <> []
       /\ Recommendation.actions r <> []
       /\ Recommendation.severity r <> low
       /\ Recommendation.month r = formatMonth month)
    returned
  /\ ((forall s d, In s states -> In d (StateData.districts s) ->
         DistrictData.intensity d <> high) ->
      returned = []).
Proof.
  intros returned. subst returned. unfold generateRecommendations, slice0.
  rewrite sort_highFirst, producedRecommendations_flat.
  generalize (avgTotalOf states). intros avg.
  set (produced := flat_map _ states).
  split.
  - apply Forall_forall. intros r Hr. apply firstn_incl in Hr.
    assert (Hp : In r produced).
    { apply in_app_or in Hr. destruct Hr as [Hr|Hr]; now apply filter_In in Hr. }
    subst produced. apply in_flat_map in Hp. destruct Hp as (s & _ & Hp).
    apply in_flat_map in Hp. destruct Hp as (d & _ & Hp).
    apply recommendStep_facts in Hp. tauto.
  - intros Hno.
    assert (E : produced = []).
    { subst produced. induction states as [|s states IH]; [reflexivity|].
      cbn [flat_map].
      assert (Ef : filter (fun d => Level_eqb (DistrictData.intensity d) high)
                          (StateData.districts s) = []).
      { assert (Hs : forall d, In d (StateData.districts s) ->
                               DistrictData.intensity d <> high)
          by (intros d Hd; apply (Hno s d); [now left|assumption]).
        induction (StateData.districts s) as [|d ds IHd]; [reflexivity|].
        cbn [filter]. destruct (Level_eqb (DistrictData.intensity d) high) eqn:El.
        - apply Level_eqb_eq in El. exfalso. apply (Hs d); [now left|assumption].
        - apply IHd. intros d' Hd'. apply Hs. now right. }
      rewrite Ef. cbn [flat_map app]. apply IH.
      intros s' d' Hs' Hd'. apply (Hno s' d'); [now right|assumption]. }
    now rewrite E.
Qed.

(** ** Alerts for a period of non-negative counts *)

Lemma getDemographicAlerts_flat (toFixed : number -> nat -> string)
    (states : list StateData.t) :
  getDemographicAlerts toFixed states
  = firstn 5
      (flat_map (fun s => flat_map (alertsOfDistrict toFixed s) (StateData.districts s))
                states).
Proof.
  unfold getDemographicAlerts, slice0. f_equal.
  rewrite (forEach_push_flat_map _
             (fun s => flat_map (alertsOfDistrict toFixed s) (StateData.districts s))).
  - reflexivity.
  - intros acc s. apply forEach_push_flat_map. intros acc' d.
    apply alertStep_push.
Qed.

Lemma no_rule_without_updates (d : DistrictData.t) :
  DistrictData.totalUpdates d = 0 ->
  DistrictData.age0_5 d <= 0 -> DistrictData.age5_17 d <= 0 ->
  DistrictData.age18Plus d <= 0 ->
  firstMatchingRule d = None.
Proof.
  intros H0 Hc Hy Ha. destruct (zero_total_rules d H0) as (Rc & Ra & Ry).
  unfold firstMatchingRule. cbn [find]. rewrite Rc, Ra, Ry.
  destruct (Z.ltb_spec 0 (DistrictData.age0_5 d)); [lia|].
  destruct (Z.ltb_spec 0 (DistrictData.age18Plus d)); [lia|].
  destruct (Z.ltb_spec 0 (DistrictData.age5_17 d)); [lia|reflexivity].
Qed.

(** X24. When no record of the period has a negative count, every alert
    that [getDemographicAlerts] raises on the summaries of the period is
    for a sub-region with at least one update, bears the names of that
    sub-region and of its region, and has the severity of the first rule
    this sub-region matches. *)
Theorem alerts_of_period (toFixed : number -> nat -> string)
    (records : list AadhaarRecord) (month : string) :
  (forall r, In r records -> Month r = month ->
             0 <= Age_0_5 r /\ 0 <= Age_5_17 r /\ 0 <= Age_18_plus r) ->
  let stateData := aggregateByState records month in
  Forall
    (fun a =>
       exists s d rule,
         In s stateData /\ In d (StateData.districts s)
         /\ Alert.state a = StateData.state s
         /\ Alert.district a = DistrictData.district d
         /\ 0 < DistrictData.totalUpdates d
         /\ firstMatchingRule d = Some rule
         /\ Alert.severity a = ruleSeverity rule)
    (getDemographicAlerts toFixed stateData).
Proof.
  intros Hpos stateData.
  rewrite getDemographicAlerts_flat. apply Forall_forall. intros a Ha.
  apply firstn_incl in Ha. apply in_flat_map in Ha. destruct Ha as (s & Hs & Ha).
  apply in_flat_map in Ha. destruct Ha as (d & Hd & Ha).
  unfold alertsOfDistrict in Ha.
  destruct (firstMatchingRule d) as [rule|] eqn:E; [|contradiction].
  destruct Ha as [<-|[]]. exists s, d, rule.
  cbn [Alert.state Alert.district Alert.severity].
  repeat split; try assumption.
  destruct (aggregateByState_groups records month) as (H & _).
  fold stateData in H. rewrite Forall_forall in H. destruct (H s Hs) as [Es _].
  rewrite Es in Hd. cbn [regionSummary StateData.districts] in Hd.
  apply in_map_iff in Hd. destruct Hd as (r & Ed & Hr).
  apply filter_In in Hr. destruct Hr as [Hr _].
  apply filter_In in Hr. destruct Hr as [Hr Hm]. apply String.eqb_eq in Hm.
  destruct (Hpos r Hr Hm) as (P1 & P2 & P3).
  destruct (Z.lt_trichotomy 0 (DistrictData.totalUpdates d)) as [Hlt|[Heq|Hgt]].
  - exact Hlt.
  - exfalso. subst d.
    cbn [districtSummary DistrictData.totalUpdates] in Heq. unfold recordTotal in Heq.
    rewrite no_rule_without_updates in E; [discriminate| | | |];
      cbn [districtSummary DistrictData.totalUpdates DistrictData.age0_5
           DistrictData.age5_17 DistrictData.age18Plus]; unfold recordTotal; lia.
  - exfalso. subst d.
    cbn [districtSummary DistrictData.totalUpdates] in Hgt. unfold recordTotal in Hgt.
    lia.
Qed.

Lemma alerts_of_period_witness :
  (forall r, In r sampleRecords -> Month r = "2024-01" ->
             0 <= Age_0_5 r /\ 0 <= Age_5_17 r /\ 0 <= Age_18_plus r)
  /\ forall toFixed : number -> nat -> string,
       Forall
         (fun a =>
            exists s d rule,
              In s (aggregateByState sampleRecords "2024-01")
              /\ In d (StateData.districts s)
              /\ Alert.state a = StateData.state s
              /\ Alert.district a = DistrictData.district d
              /\ 0 < DistrictData.totalUpdates d
              /\ firstMatchingRule d = Some rule
              /\ Alert.severity a = ruleSeverity rule)
         (getDemographicAlerts toFixed (aggregateByState sampleRecords "2024-01")).
Proof.
  assert (H : forall r, In r sampleRecords -> Month r = "2024-01" ->
                        0 <= Age_0_5 r /\ 0 <= Age_5_17 r /\ 0 <= Age_18_plus r).
  { intros r Hr _. unfold sampleRecords in Hr. simpl in Hr.
    repeat (destruct Hr as [<-|Hr]; [simpl; lia|]). contradiction. }
  split; [exact H|]. intros toFixed.
  apply (alerts_of_period toFixed sampleRecords "2024-01" H).
Defined.

Lemma getTopDistricts_stable_witness :
  let states := aggregateByState sampleRecords "2024-01" in
  let a := districtSummary [100; 100; 100; 100]
             (row "2024-01" "Goa" "North Goa" 45 20 35) in
  let b := districtSummary [100; 100; 100; 100]
             (row "2024-01" "Goa" "South Goa" 10 30 60) in
  Before a b (getTopDistricts states None)
  /\ DistrictData.totalUpdates a = DistrictData.totalUpdates b
  /\ Before a b (flat_map StateData.districts states).
Proof.
  intros states a b.
  assert (H : Before a b (getTopDistricts states None)).
  { exists [], [].
    exists (skipn 2 (flat_map StateData.districts states)). reflexivity. }
  split; [exact H|]. split; [reflexivity|].
  apply (getTopDistricts_stable states None a b H). reflexivity.
Defined.
